(** * Echo scoring, validation and parsing: a shallow embedding

    This development embeds the pure core of the echo enhancement add-on
    (src/echo/profile.py, src/echo/calculate.py, the evaluation step of
    src/task/AutoEnhanceEchoTask.py and get_angle_between of
    src/task/BaseWWTask.py) and proves properties of it.

    Numbers.  Python's float and int values are modelled by exact rationals
    [Q]; equality of numbers is [Qeq] (written [==]), which is what Python's
    [==] decides on the values that occur here.  Rounding of binary floating
    point is not represented in [Q].  Where the program divides, either the
    divisor is shown to be non-zero ([comb_pos], [max_potential_positive])
    or the division by zero is an explicit [ZeroDivisionError].  Overflow
    is represented where the program can meet it: the [inf] that [float]
    makes of a numeral too large for binary64 is explicit where text is
    read ([pyfloat]).

    Text.  A Python [str] is modelled by a [string] holding its UTF-8
    encoding: substring tests agree with Python's on well-formed text, and
    [py_len] counts code points as Python's [len] does.  The class [\d],
    the digits [float] reads and the white space removed by [strip] are
    those of Unicode 14.0, the character database of CPython 3.11.

    Errors.  A Python exception is an explicit [Raise] result.

    Binary floating point.  The scores, the two expected scores and the
    probability of reaching a threshold are embedded a second time, in
    [EchoProfileF] and [CalculatorF], over the kernel's binary64 numbers,
    which are Python's floats: the same loops in the same order, every
    stored number read as the nearest binary64. *)

From Stdlib Require Import ZArith QArith Qround Lqa Lia List String Ascii Bool Arith
  Permutation.
From Corelib Require PrimFloat.
Import ListNotations.

Local Open Scope Q_scope.

(** ** Numbers *)

Definition Qltb (a b : Q) : bool := negb (Qle_bool b a).
Definition Qgtb (a b : Q) : bool := Qltb b a.
Definition Qleb (a b : Q) : bool := Qle_bool a b.
Definition Qneqb (a b : Q) : bool := negb (Qeq_bool a b).

(** ** Exceptions *)

Inductive exn : Set :=
| KeyError
| NameError
| ValueError
| ZeroDivisionError
| OverflowError.

Inductive result (A : Type) : Type :=
| Ok (a : A)
| Raise (e : exn).
Arguments Ok {A} a.
Arguments Raise {A} e.

Definition bind {A B : Type} (m : result A) (f : A -> result B) : result B :=
  match m with
  | Ok a => f a
  | Raise e => Raise e
  end.

Notation "x <- m ;; k" := (bind m (fun x => k))
  (at level 61, m at next level, right associativity).

Definition returns {A : Type} (m : result A) : Prop :=
  exists a, m = Ok a.

(** ** The thirteen stat keys *)

Module StatKey.

Inductive t : Set :=
| atk_rate | atk_num | def_rate | def_num | hp_rate | hp_num
| cri_rate | cri_dmg | normal_dmg | charged_atk
| resonance_skill | resonance_burst | resonance_eff.

Definition eqb (a b : t) : bool :=
  match a, b with
  | atk_rate, atk_rate | atk_num, atk_num | def_rate, def_rate
  | def_num, def_num | hp_rate, hp_rate | hp_num, hp_num
  | cri_rate, cri_rate | cri_dmg, cri_dmg | normal_dmg, normal_dmg
  | charged_atk, charged_atk | resonance_skill, resonance_skill
  | resonance_burst, resonance_burst | resonance_eff, resonance_eff => true
  | _, _ => false
  end.

Definition eq_dec (a b : t) : {a = b} + {a <> b}.
Proof. decide equality. Defined.

(** The order of the fields in the two dataclasses, which is the order of
    [__dict__.items()]. *)
Definition field_keys : list t :=
  [atk_rate; atk_num; def_rate; def_num; hp_rate; hp_num;
   cri_rate; cri_dmg; normal_dmg; charged_atk;
   resonance_skill; resonance_burst; resonance_eff].

End StatKey.

Abbreviation field_keys := StatKey.field_keys.

(** ** The catalogs (assets/config/entry_stats.yml, entry_coef.yml and
    assets/echo.json)

    The three files are not part of the sources; the tables they hold are
    parameters of everything below.  A table is the list of the items of
    the loaded dict, in the order of the file. *)

Inductive StatType : Set := flat | percentage.

Definition StatType_eqb (a b : StatType) : bool :=
  match a, b with
  | flat, flat | percentage, percentage => true
  | _, _ => false
  end.

Module DistItem.
Record t : Type := mk { value : Q; probability : Q }.
End DistItem.

Module StatEntry.
Record t : Type := mk {
  name : string;
  type : StatType;
  distribution : list DistItem.t
}.
End StatEntry.

Definition StatTable : Type := list (StatKey.t * StatEntry.t).

Module CoefEntry.
Record t : Type := mk {
  dmg_source : string;
  coef : list (StatKey.t * Q)
}.
End CoefEntry.

Definition CoefTable : Type := list (string * CoefEntry.t).

(** [d.get(key)] on a dict given by its items. *)
Fixpoint dict_get {K V : Type} (eqb : K -> K -> bool)
  (d : list (K * V)) (key : K) : option V :=
  match d with
  | [] => None
  | (k, v) :: d' => if eqb k key then Some v else dict_get eqb d' key
  end.

(** [d[key]]. *)
Definition dict_item {K V : Type} (eqb : K -> K -> bool)
  (d : list (K * V)) (key : K) : result V :=
  match dict_get eqb d key with
  | Some v => Ok v
  | None => Raise KeyError
  end.

Definition dict_keys {K V : Type} (d : list (K * V)) : list K := map fst d.

(** A table that is a dict has no key twice. *)
Definition is_dict {K V : Type} (d : list (K * V)) : Prop :=
  NoDup (dict_keys d).

(** The stat catalog names each of the thirteen keys. *)
Definition stat_table_complete (tbl : StatTable) : Prop :=
  forall k : StatKey.t, In k (dict_keys tbl).

Local Open Scope string_scope.

(** ** Python text operations used by the parser *)


(** [sub in s] *)
Fixpoint contains (sub s : string) : bool :=
  if prefix sub s then true
  else match s with
       | EmptyString => false
       | String _ s' => contains sub s'
       end.

(** A byte that continues a UTF-8 sequence: [10xxxxxx]. *)
Definition is_continuation (c : ascii) : bool :=
  let n := nat_of_ascii c in (128 <=? n)%nat && (n <? 192)%nat.

(** [len(s)]: the number of code points. *)
Fixpoint py_len (s : string) : nat :=
  match s with
  | EmptyString => O
  | String c s' => if is_continuation c then py_len s' else S (py_len s')
  end.

(** The code points of the text, each as the bytes that encode it: a byte
    that is not a continuation byte starts a code point, the continuation
    bytes that follow it belong to it.  The first component holds the
    continuation bytes at the head of the text. *)
Fixpoint chunks (s : string) : string * list string :=
  match s with
  | EmptyString => (EmptyString, [])
  | String c s' =>
      let '(tail, cs) := chunks s' in
      if is_continuation c then (String c tail, cs)
      else (EmptyString, String c tail :: cs)
  end.

Definition chars (s : string) : list string :=
  let '(tail, cs) := chunks s in
  match tail with
  | EmptyString => cs
  | _ => tail :: cs
  end.

(** The payload of the first byte of a UTF-8 sequence. *)
Definition lead_bits (b : N) : N :=
  if (b <? 128)%N then b
  else if (b <? 224)%N then (b - 192)%N
  else if (b <? 240)%N then (b - 224)%N
  else (b - 240)%N.

Fixpoint continuation_bits (acc : N) (s : string) : N :=
  match s with
  | EmptyString => acc
  | String c s' => continuation_bits (acc * 64 + (N_of_ascii c - 128))%N s'
  end.

(** [ord(ch)] of a character given by its UTF-8 sequence. *)
Definition code_point (ch : string) : N :=
  match ch with
  | EmptyString => 0%N
  | String c s' => continuation_bits (lead_bits (N_of_ascii c)) s'
  end.

Definition code_points (s : string) : list N := map code_point (chars s).

(** [ch.isspace()]: the white space of Unicode 14.0. *)
Definition is_space (c : N) : bool :=
  ((0x9 <=? c) && (c <=? 0xD) || (0x1C <=? c) && (c <=? 0x20)
   || (c =? 0x85) || (c =? 0xA0) || (c =? 0x1680)
   || (0x2000 <=? c) && (c <=? 0x200A)
   || (c =? 0x2028) || (c =? 0x2029) || (c =? 0x202F) || (c =? 0x205F)
   || (c =? 0x3000))%N.

Fixpoint lstrip (cs : list string) : list string :=
  match cs with
  | [] => []
  | ch :: cs' => if is_space (code_point ch) then lstrip cs' else cs
  end.

Definition rstrip (cs : list string) : list string :=
  rev (lstrip (rev cs)).

(** [s.strip()] *)
Definition strip (s : string) : string :=
  String.concat EmptyString (rstrip (lstrip (chars s))).

(** [s.split("\n")] *)
Fixpoint split_lines (s : string) : list string :=
  match s with
  | EmptyString => [EmptyString]
  | String c s' =>
      if Ascii.eqb c "010"%char then EmptyString :: split_lines s'
      else match split_lines s' with
           | [] => [String c EmptyString]
           | l :: ls => String c l :: ls
           end
  end.

(** The digit zero of every script of Unicode 14.0; the nine code points
    after each are its digits one to nine.  These are the characters of the
    class [\d], and [float] reads each as its digit. *)
Definition decimal_zeros : list N :=
  [ 0x30; 0x660; 0x6F0; 0x7C0; 0x966; 0x9E6; 0xA66; 0xAE6; 0xB66; 0xBE6;
    0xC66; 0xCE6; 0xD66; 0xDE6; 0xE50; 0xED0; 0xF20; 0x1040; 0x1090;
    0x17E0; 0x1810; 0x1946; 0x19D0; 0x1A80; 0x1A90; 0x1B50; 0x1BB0;
    0x1C40; 0x1C50; 0xA620; 0xA8D0; 0xA900; 0xA9D0; 0xA9F0; 0xAA50;
    0xABF0; 0xFF10; 0x104A0; 0x10D30; 0x11066; 0x110F0; 0x11136; 0x111D0;
    0x112F0; 0x11450; 0x114D0; 0x11650; 0x116C0; 0x11730; 0x118E0;
    0x11950; 0x11C50; 0x11D50; 0x11DA0; 0x16A60; 0x16AC0; 0x16B50;
    0x1D7CE; 0x1D7D8; 0x1D7E2; 0x1D7EC; 0x1D7F6; 0x1E140; 0x1E2F0;
    0x1E950; 0x1FBF0 ]%N.

(** [unicodedata.decimal(ch)], or [None] for a character that is not a
    decimal digit. *)
Definition decimal (c : N) : option Z :=
  match
    find (fun zero => (zero <=? c)%N && (c <? zero + 10)%N) decimal_zeros
  with
  | Some zero => Some (Z.of_N (c - zero))
  | None => None
  end.

Definition is_digit (c : N) : bool :=
  match decimal c with
  | Some _ => true
  | None => false
  end.

Definition digit_val (c : N) : Z :=
  match decimal c with
  | Some d => d
  | None => 0%Z
  end.

(** The code points from the first digit on. *)
Fixpoint from_first_digit (s : list N) : list N :=
  match s with
  | [] => []
  | c :: s' => if is_digit c then s else from_first_digit s'
  end.

(** The longest run of digits at the head of the text, read as a decimal
    numeral after [acc], with the number of digits and the rest. *)
Fixpoint read_digits (acc : Z) (n : nat) (s : list N) : Z * nat * list N :=
  match s with
  | [] => (acc, n, [])
  | c :: s' =>
      if is_digit c then read_digits (acc * 10 + digit_val c)%Z (S n) s'
      else (acc, n, s)
  end.

(** A float read from a decimal numeral: the number, or [inf]. *)
Inductive pyfloat : Type :=
| Finite (q : Q)
| Inf.

(** The least number that the nearest binary64 cannot hold: half a unit
    in the last place above the greatest binary64, 2^1024 - 2^971. *)
Definition overflow_bound : Q := inject_Z (2 ^ 1024 - 2 ^ 970).

(** [float(numeral)] for a numeral without sign and exponent: [inf] from
    the bound on (a tie goes to the even side, which is 2^1024). *)
Definition float_of (q : Q) : pyfloat :=
  if Qltb q overflow_bound then Finite q else Inf.

(** [bool(x)] of a float. *)
Definition truthy (x : pyfloat) : bool :=
  match x with
  | Finite q => Qneqb q 0
  | Inf => true
  end.

(** [a == b] on floats. *)
Definition pyfloat_eqb (a b : pyfloat) : bool :=
  match a, b with
  | Finite x, Finite y => Qeq_bool x y
  | Inf, Inf => true
  | _, _ => false
  end.

(** [float(re.findall(r"\d+\.?\d?", line)[0])], or [None] when nothing
    matches: the first run of digits, a dot when one follows, and one digit
    when one follows that. *)
Definition _extract_number (line : string) : option pyfloat :=
  match from_first_digit (code_points line) with
  | [] => None
  | s =>
      let '(int_part, _, rest) := read_digits 0 0 s in
      match rest with
      | 0x2E%N :: c :: _ =>
          if is_digit c
          then Some (float_of (inject_Z int_part + inject_Z (digit_val c) / 10)%Q)
          else Some (float_of (inject_Z int_part))
      | _ => Some (float_of (inject_Z int_part))
      end
  end.


(** [round(x)]: to the nearest integer, a tie going to the even one. *)
Definition py_round (x : Q) : Z :=
  let f := Qfloor x in
  let r := (x - inject_Z f)%Q in
  if Qltb r (1 # 2) then f
  else if Qltb (1 # 2) r then (f + 1)%Z
  else if Z.even f then f else (f + 1)%Z.

(** [key in keys] *)
Definition key_in (key : StatKey.t) (keys : list StatKey.t) : bool :=
  existsb (StatKey.eqb key) keys.

(** ** src/echo/profile.py *)

(** [EntryCoef]: one weight per stat key. *)
Module EntryCoef.

Record t : Type := mk {
  atk_rate : Q; atk_num : Q; def_rate : Q; def_num : Q;
  hp_rate : Q; hp_num : Q; cri_rate : Q; cri_dmg : Q;
  normal_dmg : Q; charged_atk : Q; resonance_skill : Q;
  resonance_burst : Q; resonance_eff : Q
}.

(** The thirteen assignments at the head of [__init__]. *)
Definition zero : t := mk 0 0 0 0 0 0 0 0 0 0 0 0 0.

Definition getattr (c : t) (k : StatKey.t) : Q :=
  match k with
  | StatKey.atk_rate => atk_rate c | StatKey.atk_num => atk_num c
  | StatKey.def_rate => def_rate c | StatKey.def_num => def_num c
  | StatKey.hp_rate => hp_rate c | StatKey.hp_num => hp_num c
  | StatKey.cri_rate => cri_rate c | StatKey.cri_dmg => cri_dmg c
  | StatKey.normal_dmg => normal_dmg c
  | StatKey.charged_atk => charged_atk c
  | StatKey.resonance_skill => resonance_skill c
  | StatKey.resonance_burst => resonance_burst c
  | StatKey.resonance_eff => resonance_eff c
  end.

Definition setattr (c : t) (k : StatKey.t) (v : Q) : t :=
  let 'mk a1 a2 a3 a4 a5 a6 a7 a8 a9 a10 a11 a12 a13 := c in
  match k with
  | StatKey.atk_rate => mk v a2 a3 a4 a5 a6 a7 a8 a9 a10 a11 a12 a13
  | StatKey.atk_num => mk a1 v a3 a4 a5 a6 a7 a8 a9 a10 a11 a12 a13
  | StatKey.def_rate => mk a1 a2 v a4 a5 a6 a7 a8 a9 a10 a11 a12 a13
  | StatKey.def_num => mk a1 a2 a3 v a5 a6 a7 a8 a9 a10 a11 a12 a13
  | StatKey.hp_rate => mk a1 a2 a3 a4 v a6 a7 a8 a9 a10 a11 a12 a13
  | StatKey.hp_num => mk a1 a2 a3 a4 a5 v a7 a8 a9 a10 a11 a12 a13
  | StatKey.cri_rate => mk a1 a2 a3 a4 a5 a6 v a8 a9 a10 a11 a12 a13
  | StatKey.cri_dmg => mk a1 a2 a3 a4 a5 a6 a7 v a9 a10 a11 a12 a13
  | StatKey.normal_dmg => mk a1 a2 a3 a4 a5 a6 a7 a8 v a10 a11 a12 a13
  | StatKey.charged_atk => mk a1 a2 a3 a4 a5 a6 a7 a8 a9 v a11 a12 a13
  | StatKey.resonance_skill => mk a1 a2 a3 a4 a5 a6 a7 a8 a9 a10 v a12 a13
  | StatKey.resonance_burst => mk a1 a2 a3 a4 a5 a6 a7 a8 a9 a10 a11 v a13
  | StatKey.resonance_eff => mk a1 a2 a3 a4 a5 a6 a7 a8 a9 a10 a11 a12 v
  end.


Section WithCoefData.

(** The coefficient catalog [coef_data]. *)
Variable coef_data : CoefTable.

(** [for key, value in mapping.items(): setattr(self, key, value)] *)
Definition apply_coef (self : t) (mapping : list (StatKey.t * Q)) : t :=
  fold_left (fun self kv => setattr self (fst kv) (snd kv)) mapping self.

Definition set_char (self : t) (char_name : string) : result t :=
  match dict_get String.eqb coef_data char_name with
  | None => Raise ValueError
  | Some entry =>
      let dmg_source := CoefEntry.dmg_source entry in
      let self :=
        if String.eqb dmg_source "hp" then
          setattr (setattr self StatKey.hp_num (676 # 100000)) StatKey.hp_rate 1
        else if String.eqb dmg_source "atk" then
          setattr (setattr self StatKey.atk_num (1 # 10)) StatKey.atk_rate 1
        else if String.eqb dmg_source "def" then
          setattr (setattr self StatKey.def_num (1 # 10)) StatKey.def_rate 1
        else self in
      Ok (apply_coef self (CoefEntry.coef entry))
  end.

(** [EntryCoef(char_name)] *)
Definition init (char_name : option string) : result t :=
  default <- dict_item String.eqb coef_data "Default" ;;
  let self := apply_coef zero (CoefEntry.coef default) in
  match char_name with
  | Some char_name => set_char self char_name
  | None => Ok self
  end.

End WithCoefData.

End EntryCoef.

(** [EchoProfile]: a level, a name and one value per stat key. *)
Module EchoProfile.

Record t : Type := mk {
  level : Z; name : string;
  atk_rate : Q; atk_num : Q; def_rate : Q; def_num : Q;
  hp_rate : Q; hp_num : Q; cri_rate : Q; cri_dmg : Q;
  normal_dmg : Q; charged_atk : Q; resonance_skill : Q;
  resonance_burst : Q; resonance_eff : Q
}.

(** [EchoProfile()]: every field at its default. *)
Definition default : t := mk 0%Z EmptyString 0 0 0 0 0 0 0 0 0 0 0 0 0.

Definition getattr (p : t) (k : StatKey.t) : Q :=
  match k with
  | StatKey.atk_rate => atk_rate p | StatKey.atk_num => atk_num p
  | StatKey.def_rate => def_rate p | StatKey.def_num => def_num p
  | StatKey.hp_rate => hp_rate p | StatKey.hp_num => hp_num p
  | StatKey.cri_rate => cri_rate p | StatKey.cri_dmg => cri_dmg p
  | StatKey.normal_dmg => normal_dmg p
  | StatKey.charged_atk => charged_atk p
  | StatKey.resonance_skill => resonance_skill p
  | StatKey.resonance_burst => resonance_burst p
  | StatKey.resonance_eff => resonance_eff p
  end.

Definition setattr (p : t) (k : StatKey.t) (v : Q) : t :=
  let 'mk l n a1 a2 a3 a4 a5 a6 a7 a8 a9 a10 a11 a12 a13 := p in
  match k with
  | StatKey.atk_rate => mk l n v a2 a3 a4 a5 a6 a7 a8 a9 a10 a11 a12 a13
  | StatKey.atk_num => mk l n a1 v a3 a4 a5 a6 a7 a8 a9 a10 a11 a12 a13
  | StatKey.def_rate => mk l n a1 a2 v a4 a5 a6 a7 a8 a9 a10 a11 a12 a13
  | StatKey.def_num => mk l n a1 a2 a3 v a5 a6 a7 a8 a9 a10 a11 a12 a13
  | StatKey.hp_rate => mk l n a1 a2 a3 a4 v a6 a7 a8 a9 a10 a11 a12 a13
  | StatKey.hp_num => mk l n a1 a2 a3 a4 a5 v a7 a8 a9 a10 a11 a12 a13
  | StatKey.cri_rate => mk l n a1 a2 a3 a4 a5 a6 v a8 a9 a10 a11 a12 a13
  | StatKey.cri_dmg => mk l n a1 a2 a3 a4 a5 a6 a7 v a9 a10 a11 a12 a13
  | StatKey.normal_dmg => mk l n a1 a2 a3 a4 a5 a6 a7 a8 v a10 a11 a12 a13
  | StatKey.charged_atk => mk l n a1 a2 a3 a4 a5 a6 a7 a8 a9 v a11 a12 a13
  | StatKey.resonance_skill => mk l n a1 a2 a3 a4 a5 a6 a7 a8 a9 a10 v a12 a13
  | StatKey.resonance_burst => mk l n a1 a2 a3 a4 a5 a6 a7 a8 a9 a10 a11 v a13
  | StatKey.resonance_eff => mk l n a1 a2 a3 a4 a5 a6 a7 a8 a9 a10 a11 a12 v
  end.

Definition set_level (p : t) (l : Z) : t :=
  let 'mk _ n a1 a2 a3 a4 a5 a6 a7 a8 a9 a10 a11 a12 a13 := p in
  mk l n a1 a2 a3 a4 a5 a6 a7 a8 a9 a10 a11 a12 a13.

Definition set_name (p : t) (n : string) : t :=
  let 'mk l _ a1 a2 a3 a4 a5 a6 a7 a8 a9 a10 a11 a12 a13 := p in
  mk l n a1 a2 a3 a4 a5 a6 a7 a8 a9 a10 a11 a12 a13.


(** An object some of whose stat fields hold float [inf], which a field
    of [t] cannot: [numbers] holds level, name and the stat fields that are
    numbers, [infinite] names the stat fields that hold [inf] (what
    [numbers] holds for them is not read). *)
Record object : Type := mk_object {
  numbers : t;
  infinite : list StatKey.t
}.

(** An object whose fields are all numbers. *)
Definition of_numbers (p : t) : object := mk_object p [].

(** [getattr(self, key)] *)
Definition field (self : object) (key : StatKey.t) : pyfloat :=
  if key_in key (infinite self) then Inf
  else Finite (getattr (numbers self) key).

(** [setattr(self, key, value)] *)
Definition set_field (self : object) (key : StatKey.t) (value : pyfloat)
  : object :=
  match value with
  | Finite q =>
      mk_object (setattr (numbers self) key q)
        (filter (fun k => negb (StatKey.eqb k key)) (infinite self))
  | Inf => mk_object (numbers self) (key :: infinite self)
  end.

Section WithCatalogs.

(** The stat catalog [stat_data] and the keys of the name catalog
    [echo_data]. *)
Variable stat_data : StatTable.
Variable echo_data : list string.

(** [re.search(pattern, line)] for the pattern that [from_image] builds
    from a catalog name, given the name and the line. *)
Variable name_search : string -> string -> bool.

(** The fields of [__dict__] other than level and name that are not 0. *)
Definition non_zero_keys (self : t) : list StatKey.t :=
  filter (fun key => Qneqb (getattr self key) 0) field_keys.

(** The last loop of [validate]: every non-zero field holds a value of its
    distribution. *)
Fixpoint entries_valid (self : t) (keys : list StatKey.t) : result bool :=
  match keys with
  | [] => Ok true
  | key :: keys' =>
      let value := getattr self key in
      if Qeq_bool value 0 then entries_valid self keys'
      else
        stat <- dict_item StatKey.eqb stat_data key ;;
        let matched :=
          existsb (fun entry => Qeq_bool (DistItem.value entry) value)
                  (StatEntry.distribution stat) in
        if negb matched then Ok false else entries_valid self keys'
  end.

Definition validate (self : t) : result bool :=
  if negb ((0 <=? level self)%Z && (level self <=? 25)%Z) then Ok false
  else if negb (existsb (String.eqb (name self)) echo_data) then Ok false
  else
    let num_non_zero := List.length (non_zero_keys self) in
    if negb (Z.of_nat num_non_zero =? level self / 5)%Z then Ok false
    else entries_valid self field_keys.

(** [validate] on an object: the same statements, a field being read as a
    float that may be [inf]. *)
Definition object_non_zero_keys (self : object) : list StatKey.t :=
  filter (fun key => negb (pyfloat_eqb (field self key) (Finite 0)))
         field_keys.

Fixpoint object_entries_valid (self : object) (keys : list StatKey.t)
  : result bool :=
  match keys with
  | [] => Ok true
  | key :: keys' =>
      let value := field self key in
      if pyfloat_eqb value (Finite 0) then object_entries_valid self keys'
      else
        stat <- dict_item StatKey.eqb stat_data key ;;
        let matched :=
          existsb
            (fun entry => pyfloat_eqb (Finite (DistItem.value entry)) value)
            (StatEntry.distribution stat) in
        if negb matched then Ok false else object_entries_valid self keys'
  end.

Definition validate_object (self : object) : result bool :=
  if negb ((0 <=? level (numbers self))%Z && (level (numbers self) <=? 25)%Z)
  then Ok false
  else if negb (existsb (String.eqb (name (numbers self))) echo_data)
  then Ok false
  else
    let num_non_zero := List.length (object_non_zero_keys self) in
    if negb (Z.of_nat num_non_zero =? level (numbers self) / 5)%Z
    then Ok false
    else object_entries_valid self field_keys.

(** The body of the loop of [_extract_entry] for one item of the stat
    catalog; [longest] is the pair of [longest_entry_name] and
    [longest_entry_key]. *)
Definition entry_step (line : string) (longest : string * option StatKey.t)
  (kv : StatKey.t * StatEntry.t) : string * option StatKey.t :=
  let '(key, entry) := kv in
  if contains (StatEntry.name entry) line then
    if negb (Bool.eqb (contains "%" line)
                      (StatType_eqb (StatEntry.type entry) percentage))
    then longest
    else if (py_len (fst longest) <? py_len (StatEntry.name entry))%nat
         then (StatEntry.name entry, Some key)
         else longest
  else longest.

Definition _extract_entry (line : string) : option StatKey.t :=
  let '(longest_entry_name, longest_entry_key) :=
    fold_left (entry_step line) stat_data (EmptyString, None) in
  if String.eqb longest_entry_name "" then None else longest_entry_key.

(** The loop of [from_image] over the catalog names for one line. *)
Definition match_name (self : t) (line : string) : t :=
  snd
    (fold_left
       (fun st name =>
          let '(matched_longest_name, self) := st in
          if name_search name line then
            if (py_len matched_longest_name <? py_len name)%nat
            then (name, set_name self name)
            else st
          else st)
       echo_data (EmptyString, self)).

(** The last step of the loop body of [from_image]. *)
Definition assign_entry (self : object) (line : string) : object :=
  match _extract_entry line with
  | Some longest_entry_key =>
      match _extract_number line with
      | Some number =>
          if truthy number then set_field self longest_entry_key number
          else self
      | None => self
      end
  | None => self
  end.

Definition skill_marker : string := "声骸技能".

(** The loop of [from_image] over the lines of the text.  [round] of
    [inf] raises. *)
Fixpoint parse_lines (self : object) (lines_to_skip : Z)
  (lines : list string) : result object :=
  match lines with
  | [] => Ok self
  | raw :: rest =>
      let line := strip raw in
      if contains skill_marker line then Ok self
      else if contains "+" line then
        match _extract_number line with
        | Some (Finite level) =>
            parse_lines
              (mk_object (set_level (numbers self) (py_round level))
                 (infinite self)) 2 rest
        | Some Inf => Raise OverflowError
        | None => parse_lines self lines_to_skip rest
        end
      else if String.eqb (name (numbers self)) ""
              && (level (numbers self) =? 0)%Z then
        parse_lines
          (mk_object (match_name (numbers self) line) (infinite self))
          lines_to_skip rest
      else if (0 <? lines_to_skip)%Z then
        parse_lines self (lines_to_skip - 1) rest
      else parse_lines (assign_entry self line) lines_to_skip rest
  end.

(** The body of [from_image] for a recognized text. *)
Definition from_text (self : object) (text : string) : result object :=
  parse_lines self 0 (split_lines text).

(** [from_image]: the text is the constant [""]; the image is not read. *)
Definition from_image (self : object) : result object := from_text self "".

(** [upgrade]; the result [None] is Python's [None].  The name [logger] is
    bound nowhere in the module, so the call on the first branch raises. *)
Definition upgrade (self : object) (level : Z) (new_entry : string)
  : result (option object) :=
  match _extract_entry new_entry with
  | None => Raise NameError
  | Some longest_entry_key =>
      let tmp_profile :=
        mk_object (set_level (numbers self) level) (infinite self) in
      let tmp_profile :=
        match _extract_number new_entry with
        | Some number =>
            if truthy number
            then set_field tmp_profile longest_entry_key number
            else tmp_profile
        | None => tmp_profile
        end in
      valid <- validate_object tmp_profile ;;
      if valid then Ok (Some tmp_profile) else Ok None
  end.

Definition get_score (self : t) (coef : EntryCoef.t) : Q :=
  fold_left
    (fun total_score key =>
       total_score + getattr self key * EntryCoef.getattr coef key)
    field_keys 0.

(** The inner loop of [get_expected_score] over a distribution. *)
Definition expected_value (dist : list DistItem.t) : Q :=
  fold_left
    (fun expected_value entry =>
       expected_value + DistItem.value entry * DistItem.probability entry)
    dist 0.

(** The first loop of [get_expected_score]: the copy and the list
    [possible_entries] after the keys have been visited. *)
Fixpoint fill_expected (self tmp_profile : t) (possible_entries : list StatKey.t)
  (keys : list StatKey.t) : result (t * list StatKey.t) :=
  match keys with
  | [] => Ok (tmp_profile, possible_entries)
  | key :: keys' =>
      if Qeq_bool (getattr self key) 0 then
        stat <- dict_item StatKey.eqb stat_data key ;;
        fill_expected self
          (setattr tmp_profile key (expected_value (StatEntry.distribution stat)))
          (possible_entries ++ [key]) keys'
      else fill_expected self tmp_profile possible_entries keys'
  end.

Definition get_expected_score (self : t) (coef : EntryCoef.t) : result Q :=
  let remain_slots := ((25 - level self) / 5)%Z in
  filled <- fill_expected self self [] field_keys ;;
  let '(tmp_profile, possible_entries) := filled in
  let tmp_profile :=
    fold_left
      (fun tmp_profile key =>
         setattr tmp_profile key
           (getattr tmp_profile key * inject_Z remain_slots
            / inject_Z (Z.of_nat (List.length possible_entries))))
      possible_entries tmp_profile in
  Ok (get_score tmp_profile coef).

End WithCatalogs.

End EchoProfile.

Local Close Scope string_scope.

(** ** src/echo/stats.py: StatsManager *)

Module StatsManager.

Definition get_stat (stats_data : StatTable) (key : StatKey.t)
  : option StatEntry.t :=
  dict_get StatKey.eqb stats_data key.

(** [stat.get("distribution", []) if stat else []] *)
Definition get_distribution (stats_data : StatTable) (key : StatKey.t)
  : list DistItem.t :=
  match get_stat stats_data key with
  | Some stat => StatEntry.distribution stat
  | None => []
  end.

Definition get_all_keys (stats_data : StatTable) : list StatKey.t :=
  dict_keys stats_data.

End StatsManager.

(** ** Python built-ins used by the calculator *)

(** [sum(xs)] *)
Definition Qsum (xs : list Q) : Q := fold_left Qplus xs 0.

(** [max(xs)] of a non-empty sequence [x :: xs]: the first greatest item. *)
Definition Qmax_list (x : Q) (xs : list Q) : Q :=
  fold_left (fun m v => if Qltb m v then v else m) xs x.

(** [xs.sort(reverse=True)]: a stable sort into descending order; an item
    is inserted in front of the items that do not exceed it, those to its
    right in the list having been placed before it. *)
Fixpoint insert_desc (x : Q) (xs : list Q) : list Q :=
  match xs with
  | [] => [x]
  | y :: ys => if Qleb y x then x :: y :: ys else y :: insert_desc x ys
  end.

Definition sort_desc (xs : list Q) : list Q :=
  fold_right insert_desc [] xs.

(** [itertools.combinations(pool, k)], in the order itertools yields. *)
Fixpoint combinations {A : Type} (pool : list A) (k : nat) : list (list A) :=
  match k with
  | O => [[]]
  | S k' =>
      match pool with
      | [] => []
      | x :: rest =>
          map (cons x) (combinations rest k') ++ combinations rest k
      end
  end.

(** [math.comb(n, k)] *)
Fixpoint comb (n k : nat) : nat :=
  match k with
  | O => 1
  | S k' =>
      match n with
      | O => 0
      | S n' => comb n' k' + comb n' k
      end
  end.

(** A [dict] from score to probability, as the list of its items in
    insertion order; two floats are the same key when they are equal. *)
Definition ScoreDist : Type := list (Q * Q).

(** [d[s] += p] on a [defaultdict(float)]. *)
Fixpoint dist_add (d : ScoreDist) (s p : Q) : ScoreDist :=
  match d with
  | [] => [(s, 0 + p)]
  | (s', p') :: d' =>
      if Qeq_bool s' s then (s', p' + p) :: d'
      else (s', p') :: dist_add d' s p
  end.

(** ** src/echo/calculate.py: Calculator *)

Module Calculator.

Section WithStats.

(** [self.stats], the table held by the [StatsManager] singleton. *)
Variable stats : StatTable.

Definition get_score (profile : EchoProfile.t) (coef : EntryCoef.t) : Q :=
  fold_left
    (fun total_score key =>
       let weight := EntryCoef.getattr coef key in
       if Qgtb weight 0
       then total_score + EchoProfile.getattr profile key * weight
       else total_score)
    field_keys 0.

(** The keys of the catalog whose field of the profile is positive. *)
Definition existing_sub_stats (profile : EchoProfile.t) : list StatKey.t :=
  filter (fun key => Qgtb (EchoProfile.getattr profile key) 0)
         (StatsManager.get_all_keys stats).

(** [max_val * weight] for every catalog key that is not among the existing
    ones and has a non-empty distribution. *)
Definition available_stats (existing : list StatKey.t) (coef : EntryCoef.t)
  : list Q :=
  flat_map
    (fun key =>
       if negb (key_in key existing) then
         match StatsManager.get_distribution stats key with
         | [] => []
         | d :: dist =>
             let max_val := Qmax_list (DistItem.value d) (map DistItem.value dist) in
             let weight := EntryCoef.getattr coef key in
             [max_val * weight]
         end
       else [])
    (StatsManager.get_all_keys stats).

Definition get_max_possible_score (profile : EchoProfile.t)
  (coef : EntryCoef.t) : Q :=
  let current_score := get_score profile coef in
  let existing := existing_sub_stats profile in
  let remaining_slots := (5 - Z.of_nat (List.length existing))%Z in
  if (remaining_slots <=? 0)%Z then current_score
  else
    let available := sort_desc (available_stats existing coef) in
    let max_future_score :=
      Qsum (firstn (Z.to_nat remaining_slots) available) in
    current_score + max_future_score.

(** [list(all_keys - existing_sub_stats)] *)
Definition pool_of (existing : list StatKey.t) : list StatKey.t :=
  filter (fun key => negb (key_in key existing))
         (StatsManager.get_all_keys stats).

(** The entry of [attr_score_dists] for one key of the pool. *)
Definition attr_score_dist (coef : EntryCoef.t) (key : StatKey.t)
  : ScoreDist :=
  let weight := EntryCoef.getattr coef key in
  let dist_list := StatsManager.get_distribution stats key in
  if Qeq_bool weight 0 then [(0, 1)]
  else
    fold_left
      (fun score_dist item =>
         dist_add score_dist (DistItem.value item * weight) (DistItem.probability item))
      dist_list [].

(** One step of the convolution: the two nested loops over
    [current_combo_dist] and [attr_dist]. *)
Definition convolve (current_combo_dist attr_dist : ScoreDist) : ScoreDist :=
  fold_left
    (fun new_dist sp1 =>
       fold_left
         (fun new_dist sp2 =>
            dist_add new_dist (fst sp1 + fst sp2) (snd sp1 * snd sp2))
         attr_dist new_dist)
    current_combo_dist [].

Definition combo_dist (coef : EntryCoef.t) (attrs_combo : list StatKey.t)
  : ScoreDist :=
  fold_left
    (fun current_combo_dist attr =>
       convolve current_combo_dist (attr_score_dist coef attr))
    attrs_combo [(0, 1)].

Definition tolerance : Q := 1 # 1000000000.

(** [sum(p for s, p in dist.items() if s >= needed_score - 1e-9)] *)
Definition prob_ge (dist : ScoreDist) (needed_score : Q) : Q :=
  Qsum (map snd
          (filter (fun sp => Qleb (needed_score - tolerance) (fst sp)) dist)).

Definition prob_above_score (profile : EchoProfile.t) (coef : EntryCoef.t)
  (threshold : Q) : Q :=
  let current_score := get_score profile coef in
  let needed_score := threshold - current_score in
  if Qleb needed_score 0 then 1
  else
    let existing := existing_sub_stats profile in
    let k := (5 - Z.of_nat (List.length existing))%Z in
    if (k <=? 0)%Z then (if Qgtb needed_score 0 then 0 else 1)
    else
      let pool := pool_of existing in
      if (Z.of_nat (List.length pool) <? k)%Z then 0
      else
        let total_combinations := comb (List.length pool) (Z.to_nat k) in
        let total_valid_prob :=
          fold_left
            (fun total attrs_combo =>
               total + prob_ge (combo_dist coef attrs_combo) needed_score)
            (combinations pool (Z.to_nat k)) 0 in
        total_valid_prob / inject_Z (Z.of_nat total_combinations).

(** [sum(d['value'] * d['probability'] for d in dist)] *)
Definition avg_val (dist : list DistItem.t) : Q :=
  Qsum (map (fun d => DistItem.value d * DistItem.probability d) dist).

Definition get_expected_score (profile : EchoProfile.t) (coef : EntryCoef.t)
  : result Q :=
  let current_score := get_score profile coef in
  let existing := existing_sub_stats profile in
  let k := (5 - Z.of_nat (List.length existing))%Z in
  if (k <=? 0)%Z then Ok current_score
  else
    let pool := pool_of existing in
    let pool_expected_sum :=
      fold_left
        (fun acc key =>
           let weight := EntryCoef.getattr coef key in
           if Qeq_bool weight 0 then acc
           else
             acc + avg_val (StatsManager.get_distribution stats key) * weight)
        pool 0 in
    match pool with
    | [] => Raise ZeroDivisionError
    | _ :: _ =>
        let avg_expected_per_slot :=
          pool_expected_sum / inject_Z (Z.of_nat (List.length pool)) in
        Ok (current_score + avg_expected_per_slot * inject_Z k)
    end.

End WithStats.

End Calculator.


(** ** The scores in binary64 arithmetic *)

Module Binary64.

Abbreviation float := PrimFloat.float.

Fixpoint of_positive (p : positive) : float :=
  match p with
  | xH => PrimFloat.one
  | xO p' => PrimFloat.mul PrimFloat.two (of_positive p')
  | xI p' =>
      PrimFloat.add (PrimFloat.mul PrimFloat.two (of_positive p'))
        PrimFloat.one
  end.

(** [float(z)], exact for the integers below 2^53. *)
Definition of_Z (z : Z) : float :=
  match z with
  | Z0 => PrimFloat.zero
  | Zpos p => of_positive p
  | Zneg p => PrimFloat.opp (of_positive p)
  end.

(** The float that Python reads from the decimal numeral of [q]: the
    binary64 nearest to it, for a numerator and a denominator below 2^53. *)
Definition of_Q (q : Q) : float :=
  PrimFloat.div (of_Z (Qnum q)) (of_positive (Qden q)).

(** The float fields of an object, by key. *)
Definition fields : Type := StatKey.t -> float.

Definition set_field (obj : fields) (key : StatKey.t) (v : float) : fields :=
  fun k => if StatKey.eqb k key then v else obj k.

Definition profile_fields (p : EchoProfile.t) : fields :=
  fun k => of_Q (EchoProfile.getattr p k).

Definition coef_fields (c : EntryCoef.t) : fields :=
  fun k => of_Q (EntryCoef.getattr c k).

End Binary64.

(** [EchoProfile.get_score] and [EchoProfile.get_expected_score] over
    binary64. *)
Module EchoProfileF.

Import Binary64.

Section WithCatalogs.

Variable stat_data : StatTable.

Definition get_score (self coef : fields) : float :=
  fold_left
    (fun total_score key =>
       PrimFloat.add total_score (PrimFloat.mul (self key) (coef key)))
    field_keys PrimFloat.zero.

Definition expected_value (dist : list DistItem.t) : float :=
  fold_left
    (fun expected_value entry =>
       PrimFloat.add expected_value
         (PrimFloat.mul (of_Q (DistItem.value entry))
            (of_Q (DistItem.probability entry))))
    dist PrimFloat.zero.

Fixpoint fill_expected (self tmp_profile : fields)
  (possible_entries : list StatKey.t) (keys : list StatKey.t)
  : result (fields * list StatKey.t) :=
  match keys with
  | [] => Ok (tmp_profile, possible_entries)
  | key :: keys' =>
      if PrimFloat.eqb (self key) PrimFloat.zero then
        stat <- dict_item StatKey.eqb stat_data key ;;
        fill_expected self
          (set_field tmp_profile key
             (expected_value (StatEntry.distribution stat)))
          (possible_entries ++ [key]) keys'
      else fill_expected self tmp_profile possible_entries keys'
  end.

Definition get_expected_score (self : EchoProfile.t) (coef : EntryCoef.t)
  : result float :=
  let remain_slots := ((25 - EchoProfile.level self) / 5)%Z in
  filled <- fill_expected (profile_fields self) (profile_fields self) []
              field_keys ;;
  let '(tmp_profile, possible_entries) := filled in
  let tmp_profile :=
    fold_left
      (fun tmp_profile key =>
         set_field tmp_profile key
           (PrimFloat.div
              (PrimFloat.mul (tmp_profile key) (of_Z remain_slots))
              (of_Z (Z.of_nat (List.length possible_entries)))))
      possible_entries tmp_profile in
  Ok (get_score tmp_profile (coef_fields coef)).

End WithCatalogs.

End EchoProfileF.

(** [Calculator.get_score], [Calculator.get_expected_score] and
    [Calculator.prob_above_score] over binary64. *)
Module CalculatorF.

Import Binary64.

Section WithStats.

Variable stats : StatTable.

Definition get_score (profile : EchoProfile.t) (coef : EntryCoef.t) : float :=
  fold_left
    (fun total_score key =>
       let weight := coef_fields coef key in
       if PrimFloat.ltb PrimFloat.zero weight
       then PrimFloat.add total_score
              (PrimFloat.mul (profile_fields profile key) weight)
       else total_score)
    field_keys PrimFloat.zero.

Definition existing_sub_stats (profile : EchoProfile.t) : list StatKey.t :=
  filter (fun key => PrimFloat.ltb PrimFloat.zero (profile_fields profile key))
         (StatsManager.get_all_keys stats).

Definition avg_val (dist : list DistItem.t) : float :=
  fold_left
    (fun acc d =>
       PrimFloat.add acc
         (PrimFloat.mul (of_Q (DistItem.value d))
            (of_Q (DistItem.probability d))))
    dist PrimFloat.zero.

Definition get_expected_score (profile : EchoProfile.t) (coef : EntryCoef.t)
  : result float :=
  let current_score := get_score profile coef in
  let existing := existing_sub_stats profile in
  let k := (5 - Z.of_nat (List.length existing))%Z in
  if (k <=? 0)%Z then Ok current_score
  else
    let pool := Calculator.pool_of stats existing in
    let pool_expected_sum :=
      fold_left
        (fun acc key =>
           let weight := coef_fields coef key in
           if PrimFloat.eqb weight PrimFloat.zero then acc
           else
             PrimFloat.add acc
               (PrimFloat.mul
                  (avg_val (StatsManager.get_distribution stats key)) weight))
        pool PrimFloat.zero in
    match pool with
    | [] => Raise ZeroDivisionError
    | _ :: _ =>
        let avg_expected_per_slot :=
          PrimFloat.div pool_expected_sum
            (of_Z (Z.of_nat (List.length pool))) in
        Ok (PrimFloat.add current_score
              (PrimFloat.mul avg_expected_per_slot (of_Z k)))
    end.

(** A [dict] from score to probability, as the list of its items in
    insertion order; two floats are the same key when they are equal. *)
Definition ScoreDist : Type := list (float * float).

(** [d[s] += p] on a [defaultdict(float)]. *)
Fixpoint dist_add (d : ScoreDist) (s p : float) : ScoreDist :=
  match d with
  | [] => [(s, PrimFloat.add PrimFloat.zero p)]
  | (s', p') :: d' =>
      if PrimFloat.eqb s' s then (s', PrimFloat.add p' p) :: d'
      else (s', p') :: dist_add d' s p
  end.

Definition attr_score_dist (coef : EntryCoef.t) (key : StatKey.t)
  : ScoreDist :=
  let weight := coef_fields coef key in
  let dist_list := StatsManager.get_distribution stats key in
  if PrimFloat.eqb weight PrimFloat.zero
  then [(PrimFloat.zero, PrimFloat.one)]
  else
    fold_left
      (fun score_dist item =>
         dist_add score_dist
           (PrimFloat.mul (of_Q (DistItem.value item)) weight)
           (of_Q (DistItem.probability item)))
      dist_list [].

Definition convolve (current_combo_dist attr_dist : ScoreDist) : ScoreDist :=
  fold_left
    (fun new_dist sp1 =>
       fold_left
         (fun new_dist sp2 =>
            dist_add new_dist (PrimFloat.add (fst sp1) (fst sp2))
              (PrimFloat.mul (snd sp1) (snd sp2)))
         attr_dist new_dist)
    current_combo_dist [].

Definition combo_dist (coef : EntryCoef.t) (attrs_combo : list StatKey.t)
  : ScoreDist :=
  fold_left
    (fun current_combo_dist attr =>
       convolve current_combo_dist (attr_score_dist coef attr))
    attrs_combo [(PrimFloat.zero, PrimFloat.one)].

(** The literal [1e-9]. *)
Definition tolerance : float := of_Q (1 # 1000000000).

(** [sum(p for s, p in dist.items() if s >= needed_score - 1e-9)], the sum
    being taken from left to right. *)
Definition prob_ge (dist : ScoreDist) (needed_score : float) : float :=
  fold_left PrimFloat.add
    (map snd
       (filter
          (fun sp =>
             PrimFloat.leb (PrimFloat.sub needed_score tolerance) (fst sp))
          dist))
    PrimFloat.zero.

Definition prob_above_score (profile : EchoProfile.t) (coef : EntryCoef.t)
  (threshold : Q) : float :=
  let current_score := get_score profile coef in
  let needed_score := PrimFloat.sub (of_Q threshold) current_score in
  if PrimFloat.leb needed_score PrimFloat.zero then PrimFloat.one
  else
    let existing := existing_sub_stats profile in
    let k := (5 - Z.of_nat (List.length existing))%Z in
    if (k <=? 0)%Z
    then (if PrimFloat.ltb PrimFloat.zero needed_score
          then PrimFloat.zero else PrimFloat.one)
    else
      let pool := Calculator.pool_of stats existing in
      if (Z.of_nat (List.length pool) <? k)%Z then PrimFloat.zero
      else
        let total_combinations := comb (List.length pool) (Z.to_nat k) in
        let total_valid_prob :=
          fold_left
            (fun total attrs_combo =>
               PrimFloat.add total
                 (prob_ge (combo_dist coef attrs_combo) needed_score))
            (combinations pool (Z.to_nat k)) PrimFloat.zero in
        PrimFloat.div total_valid_prob
          (of_Z (Z.of_nat total_combinations)).

End WithStats.

End CalculatorF.

(** ** src/task/AutoEnhanceEchoTask.py: the evaluation step of
    smart_enhance_run *)

Module AutoEnhanceEchoTask.

Section WithStats.

Variable stats : StatTable.

(** [calculator.get_max_possible_score(EchoProfile(level=0), coef)] *)
Definition fresh_max_potential (coef : EntryCoef.t) : Q :=
  Calculator.get_max_possible_score stats EchoProfile.default coef.

(** [max_potential] after [if max_potential <= 0: max_potential = 1.0]. *)
Definition max_potential (coef : EntryCoef.t) : Q :=
  let max_potential := fresh_max_potential coef in
  if Qleb max_potential 0 then 1 else max_potential.

Definition score_ratio (profile : EchoProfile.t) (coef : EntryCoef.t)
  : result Q :=
  expected_score <- Calculator.get_expected_score stats profile coef ;;
  Ok (expected_score / max_potential coef).

Inductive decision : Set := TRASH | KEEP.

Definition decide (profile : EchoProfile.t) (coef : EntryCoef.t)
  (threshold : Q) : result decision :=
  ratio <- score_ratio profile coef ;;
  Ok (if Qltb ratio threshold then TRASH else KEEP).

End WithStats.

End AutoEnhanceEchoTask.

(** ** src/task/BaseWWTask.py *)

Module BaseWWTask.

Definition get_angle_between (my_angle angle : Q) : Q :=
  let to_turn :=
    if Qgtb my_angle angle then angle - my_angle
    else - (my_angle - angle) in
  if Qgtb to_turn 180 then to_turn - 360
  else if Qltb to_turn (-180) then to_turn + 360
  else to_turn.

End BaseWWTask.

(** ** Example catalogs and inputs

    A stat catalog with the thirteen keys, a coefficient catalog and a name
    catalog in the shape of the three asset files, used to run the
    definitions on concrete inputs. *)

Module Sample.

Local Open Scope string_scope.

Definition dist (items : list (Q * Q)) : list DistItem.t :=
  map (fun vp => DistItem.mk (fst vp) (snd vp)) items.

Definition stat_data : StatTable :=
  [ (StatKey.atk_rate,
     StatEntry.mk "攻击" percentage
       (dist [(6.4, 1 # 2); (7.9, 1 # 4); (9.4, 1 # 4)]));
    (StatKey.atk_num,
     StatEntry.mk "攻击" flat
       (dist [(30, 1 # 4); (40, 1 # 2); (50, 1 # 4)]));
    (StatKey.def_rate,
     StatEntry.mk "防御" percentage
       (dist [(8.1, 1 # 2); (9.4, 1 # 4); (10.9, 1 # 4)]));
    (StatKey.def_num,
     StatEntry.mk "防御" flat
       (dist [(40, 1 # 4); (50, 1 # 2); (60, 1 # 4)]));
    (StatKey.hp_rate,
     StatEntry.mk "生命" percentage
       (dist [(6.4, 1 # 2); (7.9, 1 # 4); (9.4, 1 # 4)]));
    (StatKey.hp_num,
     StatEntry.mk "生命" flat
       (dist [(320, 1 # 4); (430, 1 # 2); (580, 1 # 4)]));
    (StatKey.cri_rate,
     StatEntry.mk "暴击" percentage
       (dist [(6.3, 1 # 4); (6.9, 1 # 4); (7.5, 1 # 4); (8.1, 1 # 4)]));
    (StatKey.cri_dmg,
     StatEntry.mk "暴击伤害" percentage
       (dist [(12.6, 1 # 4); (15.0, 1 # 4); (17.4, 1 # 4); (21.0, 1 # 4)]));
    (StatKey.normal_dmg,
     StatEntry.mk "普攻伤害加成" percentage
       (dist [(6.4, 1 # 2); (7.9, 1 # 4); (9.4, 1 # 4)]));
    (StatKey.charged_atk,
     StatEntry.mk "重击伤害加成" percentage
       (dist [(6.4, 1 # 2); (7.9, 1 # 4); (9.4, 1 # 4)]));
    (StatKey.resonance_skill,
     StatEntry.mk "共鸣技能伤害加成" percentage
       (dist [(6.4, 1 # 2); (7.9, 1 # 4); (9.4, 1 # 4)]));
    (StatKey.resonance_burst,
     StatEntry.mk "共鸣解放伤害加成" percentage
       (dist [(6.4, 1 # 2); (7.9, 1 # 4); (9.4, 1 # 4)]));
    (StatKey.resonance_eff,
     StatEntry.mk "共鸣效率" percentage
       (dist [(6.8, 1 # 2); (8.4, 1 # 4); (12.4, 1 # 4)])) ].

Definition coef_data : CoefTable :=
  [ ("Default",
     CoefEntry.mk "atk" [(StatKey.cri_rate, 2); (StatKey.cri_dmg, 1)]);
    ("Cartethyia",
     CoefEntry.mk "hp" [(StatKey.cri_rate, 2); (StatKey.cri_dmg, 1)]);
    ("Support",
     CoefEntry.mk "atk" [(StatKey.atk_rate, 1 # 2);
                         (StatKey.resonance_eff, 1)]) ].

Definition echo_data : list string := ["鸣钟之龟"; "无冠者"].

(** A stand-in for the regular-expression search of [from_image]: the name
    occurs in the line. *)
Definition name_search (name line : string) : bool := contains name line.

(** The coefficient profile of "Default" in [coef_data]. *)
Definition coef_default : EntryCoef.t :=
  EntryCoef.mk 1 (1 # 10) 0 0 0 0 2 1 0 0 0 0 0.

(** A coefficient profile whose only weight is 2.0 for cri_rate. *)
Definition coef_cri_rate_2 : EntryCoef.t :=
  EntryCoef.setattr EntryCoef.zero StatKey.cri_rate 2.

(** A profile whose only non-zero field is cri_rate = 6.3. *)
Definition profile_cri_rate : EchoProfile.t :=
  EchoProfile.setattr EchoProfile.default StatKey.cri_rate 6.3.

(** A level-15 profile with three stats: def_rate, def_num and hp_rate. *)
Definition profile_level_15 : EchoProfile.t :=
  EchoProfile.mk 15 "鸣钟之龟" 0 0 8.1 40 6.4 0 0 0 0 0 0 0 0.

End Sample.

(** ** Definitions that follow the specification *)

(** The sum of [f] over a list of keys. *)
Definition sum_over {A : Type} (f : A -> Q) (l : list A) : Q :=
  fold_right (fun k acc => f k + acc) 0 l.

(** The score as the specification writes it: the sum over the thirteen
    keys of field times weight. *)
Definition weighted_sum (p : EchoProfile.t) (c : EntryCoef.t) : Q :=
  EchoProfile.atk_rate p * EntryCoef.atk_rate c
  + EchoProfile.atk_num p * EntryCoef.atk_num c
  + EchoProfile.def_rate p * EntryCoef.def_rate c
  + EchoProfile.def_num p * EntryCoef.def_num c
  + EchoProfile.hp_rate p * EntryCoef.hp_rate c
  + EchoProfile.hp_num p * EntryCoef.hp_num c
  + EchoProfile.cri_rate p * EntryCoef.cri_rate c
  + EchoProfile.cri_dmg p * EntryCoef.cri_dmg c
  + EchoProfile.normal_dmg p * EntryCoef.normal_dmg c
  + EchoProfile.charged_atk p * EntryCoef.charged_atk c
  + EchoProfile.resonance_skill p * EntryCoef.resonance_skill c
  + EchoProfile.resonance_burst p * EntryCoef.resonance_burst c
  + EchoProfile.resonance_eff p * EntryCoef.resonance_eff c.

(** The same sum restricted to the keys whose weight is positive. *)
Definition positive_weighted_sum (p : EchoProfile.t) (c : EntryCoef.t) : Q :=
  sum_over
    (fun k =>
       if Qgtb (EntryCoef.getattr c k) 0
       then EchoProfile.getattr p k * EntryCoef.getattr c k
       else 0)
    field_keys.

(** The value that a coefficient mapping assigns to a key, if any: that of
    the last item for the key. *)
Definition coef_last (mapping : list (StatKey.t * Q)) (k : StatKey.t)
  : option Q :=
  fold_left
    (fun found kv => if StatKey.eqb (fst kv) k then Some (snd kv) else found)
    mapping None.

(** The weight of key [k] for a catalog entry: the value of the entry's
    own mapping when it lists the key, else [derived]. *)
Definition listed_or (entry : CoefEntry.t) (k : StatKey.t) (derived : Q) : Q :=
  match coef_last (CoefEntry.coef entry) k with
  | Some v => v
  | None => derived
  end.

(** The total probability of a score distribution. *)
Definition mass (d : ScoreDist) : Q := sum_over snd d.

(** No score of the distribution has a negative probability. *)
Definition nonneg_dist (d : ScoreDist) : Prop :=
  forall sp, In sp d -> 0 <= snd sp.

(** The catalog invariant: the probabilities of every stat's distribution
    are non-negative and sum to 1. *)
Definition is_distribution (dist : list DistItem.t) : Prop :=
  (forall d, In d dist -> 0 <= DistItem.probability d) /\
  sum_over DistItem.probability dist == 1.

Definition stat_table_normalized (stats : StatTable) : Prop :=
  forall key stat, In (key, stat) stats ->
                   is_distribution (StatEntry.distribution stat).

(** The slot-count invariant of the specification: the level is one of
    0, 5, ..., 25 and level / 5 stat fields are non-zero. *)
Definition slot_count_invariant (p : EchoProfile.t) : Prop :=
  In (EchoProfile.level p) [0; 5; 10; 15; 20; 25]%Z /\
  Z.of_nat (List.length (EchoProfile.non_zero_keys p))
  = (EchoProfile.level p / 5)%Z.

(** The stat fields of a profile that are 0. *)
Definition zero_keys (p : EchoProfile.t) : list StatKey.t :=
  filter (fun key => Qeq_bool (EchoProfile.getattr p key) 0) field_keys.

(** The stat fields of a profile that are positive. *)
Definition positive_keys (p : EchoProfile.t) : list StatKey.t :=
  filter (fun key => Qgtb (EchoProfile.getattr p key) 0) field_keys.

(** Every weight of a coefficient profile is non-negative. *)
Definition nonneg_weights (c : EntryCoef.t) : Prop :=
  forall k : StatKey.t, 0 <= EntryCoef.getattr c k.

(** Every stat field of a profile is non-negative. *)
Definition nonneg_fields (p : EchoProfile.t) : Prop :=
  forall k : StatKey.t, 0 <= EchoProfile.getattr p k.

Module Cex.

(** A profile with atk_rate = 6.4 at level 5 and a coefficient profile
    whose atk_rate weight is -1. *)
Definition profile_atk : EchoProfile.t :=
  EchoProfile.set_level
    (EchoProfile.setattr EchoProfile.default StatKey.atk_rate 6.4) 5.

Definition coef_negative : EntryCoef.t :=
  EntryCoef.setattr EntryCoef.zero StatKey.atk_rate (-1).

(** A coefficient profile whose only weight is 0.01 for cri_rate. *)
Definition coef_small : EntryCoef.t :=
  EntryCoef.setattr EntryCoef.zero StatKey.cri_rate (1 # 100).

(** A level-25 profile with five non-zero fields, one of them negative,
    and a coefficient profile whose only weight is 1 for cri_dmg. *)
Definition profile_negative_field : EchoProfile.t :=
  EchoProfile.mk 25 "鸣钟之龟" 6.4 30 8.1 40 (-1) 0 0 0 0 0 0 0 0.

Definition coef_cri_dmg : EntryCoef.t :=
  EntryCoef.setattr EntryCoef.zero StatKey.cri_dmg 1.

(** A level-25 profile with five positive fields. *)
Definition profile_full : EchoProfile.t :=
  EchoProfile.mk 25 "鸣钟之龟" 6.4 30 8.1 40 6.4 0 0 0 0 0 0 0 0.

(** A level-7 profile named after a catalog echo whose only non-zero field
    is cri_rate = 6.3, a value of the cri_rate distribution. *)
Definition profile_level_7 : EchoProfile.t :=
  EchoProfile.set_name
    (EchoProfile.set_level
       (EchoProfile.setattr EchoProfile.default StatKey.cri_rate 6.3) 7)
    "鸣钟之龟".

(** A level-30 profile. *)
Definition profile_level_30 : EchoProfile.t :=
  EchoProfile.set_level EchoProfile.default 30.






(** The sample catalog with every distribution replaced by the same one:
    1 with probability 0.81 and 2 with probability 0.19.  With it, the
    coefficient profile whose thirteen weights are 1 and a level-15 profile
    with three stats at 1. *)
Definition stat_data_skewed : StatTable :=
  map (fun kv =>
         (fst kv,
          StatEntry.mk (StatEntry.name (snd kv)) (StatEntry.type (snd kv))
            (Sample.dist [(1, 0.81); (2, 0.19)])))
      Sample.stat_data.

Definition coef_ones : EntryCoef.t :=
  EntryCoef.mk 1 1 1 1 1 1 1 1 1 1 1 1 1.

Definition profile_ones : EchoProfile.t :=
  EchoProfile.mk 15 "鸣钟之龟" 1 1 1 0 0 0 0 0 0 0 0 0 0.

End Cex.


From Stdlib Require Import Qabs.

(** ** Further definitions that state properties *)

(** No value of any distribution of the catalog is negative. *)
Definition nonneg_values (stats : StatTable) : Prop :=
  forall key stat item,
    In (key, stat) stats -> In item (StatEntry.distribution stat) ->
    0 <= DistItem.value item.

(** The text holds a decimal digit, of any script. *)
Definition has_digit (s : string) : bool :=
  existsb is_digit (code_points s).


(** The test of [_extract_entry] on one catalog entry: the display name
    occurs in the line, and the line holds a percent sign exactly when the
    entry is a percentage. *)
Definition entry_matches (line : string) (entry : StatEntry.t) : bool :=
  contains (StatEntry.name entry) line
  && Bool.eqb (contains "%" line)
              (StatType_eqb (StatEntry.type entry) percentage).

(** The value is one of those the catalog lists for the key. *)
Definition value_allowed (stat_data : StatTable) (key : StatKey.t) (v : Q)
  : Prop :=
  exists stat item,
    dict_get StatKey.eqb stat_data key = Some stat /\
    In item (StatEntry.distribution stat) /\
    DistItem.value item == v.

(** The weight that [set_char] derives from a damage source for a key, and
    [base] for the keys it leaves alone. *)
Definition derived_weight (dmg_source : string) (k : StatKey.t) (base : Q)
  : Q :=
  if String.eqb dmg_source "hp" then
    match k with
    | StatKey.hp_num => 676 # 100000
    | StatKey.hp_rate => 1
    | _ => base
    end
  else if String.eqb dmg_source "atk" then
    match k with
    | StatKey.atk_num => 1 # 10
    | StatKey.atk_rate => 1
    | _ => base
    end
  else if String.eqb dmg_source "def" then
    match k with
    | StatKey.def_num => 1 # 10
    | StatKey.def_rate => 1
    | _ => base
    end
  else base.

(** ** src/echo/vision.py: EchoVision.scan_echo_panel *)

Module EchoVision.

(** The three recognizers as they stand: no region of the screen is read. *)
Definition _scan_level : Z := 0.
Definition _scan_name : string := EmptyString.
Definition _scan_sub_stats : list (StatKey.t * Q) := [].

(** The profile that [scan_echo_panel] builds from what was recognized. *)
Definition build_profile (level : Z) (name : string)
  (sub_stats : list (StatKey.t * Q)) : EchoProfile.t :=
  fold_left
    (fun profile kv => EchoProfile.setattr profile (fst kv) (snd kv))
    sub_stats
    (EchoProfile.set_name (EchoProfile.set_level EchoProfile.default level)
       name).

Definition scan_echo_panel : EchoProfile.t :=
  build_profile _scan_level _scan_name _scan_sub_stats.

End EchoVision.

(** ** src/task/AutoEnhanceEchoTask.py: smart_enhance_run

    The run is the list of the operations it performs on its collaborators,
    in order, with how it ends.  A scan of the panel is an input of the
    run: [scan n] is what [vision.scan_echo_panel()] gives in the iteration
    in which [loop_count] is [n], [None] standing for a result that is not
    true. *)

Module SmartEnhance.

Inductive log : Type :=
| LogStart
| LogScanFailed
| LogTryNext
| LogEcho (level : Z) (current_score expected_score score_ratio : Q)
| LogTrash
| LogStopped
| LogKeep
| LogMaxLevel
| LogFinished.

Inductive event : Type :=
| Scan
| NextEcho
| Enhance (target_level_step : Z)
| Tune
| Sleep (seconds : Q)
| Log (message : log).

Inductive outcome : Set :=
| Returned
| Raised (e : exn).

(** The four settings read through [get_user_conf]. *)
Record settings : Type := mk_settings {
  target_role : string;
  threshold : Q;
  auto_tune : bool;
  auto_next : bool
}.

Definition max_loops : nat := 100.

Section WithCatalogs.

Variable stats : StatTable.
Variable coef_data : CoefTable.
Variable conf : settings.
Variable scan : nat -> option EchoProfile.t.

(** The body of the loop for a scanned profile: the operations, and
    whether the loop goes on ([continue]) or ends ([break]). *)
Definition evaluate (coef : EntryCoef.t) (profile : EchoProfile.t)
  : result (list event * bool) :=
  let current_score := Calculator.get_score profile coef in
  expected_score <- Calculator.get_expected_score stats profile coef ;;
  let max_potential := AutoEnhanceEchoTask.max_potential stats coef in
  let score_ratio := expected_score / max_potential in
  let logged :=
    Log (LogEcho (EchoProfile.level profile) current_score expected_score
           score_ratio) in
  if Qltb score_ratio (threshold conf) then
    if auto_next conf
    then Ok ([logged; Log LogTrash; NextEcho; Sleep 1.5], true)
    else Ok ([logged; Log LogTrash; Log LogStopped], false)
  else if (EchoProfile.level profile <? 25)%Z then
    Ok ([logged; Log LogKeep; Enhance 5]
        ++ (if auto_tune conf then [Tune] else [])
        ++ [Sleep 2], true)
  else if auto_next conf
       then Ok ([logged; Log LogKeep; Log LogMaxLevel; NextEcho; Sleep 1.5],
                true)
       else Ok ([logged; Log LogKeep; Log LogMaxLevel], false).

(** One iteration, after [loop_count += 1]. *)
Definition iteration (coef : EntryCoef.t) (loop_count : nat)
  : result (list event * bool) :=
  match scan loop_count with
  | None =>
      if auto_next conf
      then Ok ([Scan; Log LogScanFailed; Log LogTryNext; NextEcho; Sleep 1.5],
               true)
      else Ok ([Scan; Log LogScanFailed], false)
  | Some profile =>
      body <- evaluate coef profile ;;
      Ok (Scan :: fst body, snd body)
  end.

(** The [while] loop with [remaining] iterations allowed, [loop_count]
    having been reached. *)
Fixpoint loop (coef : EntryCoef.t) (remaining loop_count : nat)
  : list event * outcome :=
  match remaining with
  | O => ([Log LogFinished], Returned)
  | S remaining' =>
      match iteration coef (S loop_count) with
      | Raise e => ([Scan], Raised e)
      | Ok (events, true) =>
          let '(rest, out) := loop coef remaining' (S loop_count) in
          (events ++ rest, out)
      | Ok (events, false) => (events ++ [Log LogFinished], Returned)
      end
  end.

Definition smart_enhance_run : list event * outcome :=
  match EntryCoef.init coef_data (Some (target_role conf)) with
  | Raise e => ([], Raised e)
  | Ok coef =>
      let '(events, out) := loop coef max_loops 0 in
      (Log LogStart :: events, out)
  end.

End WithCatalogs.

(** The number of events of a trace that pass a test. *)
Definition count_events (f : event -> bool) (trace : list event) : nat :=
  List.length (filter f trace).

Definition is_scan (e : event) : bool :=
  match e with Scan => true | _ => false end.

Definition is_enhance (e : event) : bool :=
  match e with Enhance _ => true | _ => false end.

Definition is_tune (e : event) : bool :=
  match e with Tune => true | _ => false end.

Definition is_next_echo (e : event) : bool :=
  match e with NextEcho => true | _ => false end.

End SmartEnhance.

(** The iteration in which [loop_count] is [n] ends in an enhancement: the
    scan gives a profile, its score ratio is not below the threshold and
    its level is below 25. *)
Definition enhance_worthy (stats : StatTable) (conf : SmartEnhance.settings)
  (scan : nat -> option EchoProfile.t) (coef : EntryCoef.t) (n : nat) : bool :=
  match scan n with
  | None => false
  | Some profile =>
      match Calculator.get_expected_score stats profile coef with
      | Raise _ => false
      | Ok expected_score =>
          negb (Qltb (expected_score
                      / AutoEnhanceEchoTask.max_potential stats coef)
                     (SmartEnhance.threshold conf))
          && (EchoProfile.level profile <? 25)%Z
      end
  end.

(** ** src/echo/stats.py: the user configuration of StatsManager

    The configuration is a dict from setting names to values of any kind.
    The file either is missing, cannot be read as YAML, or holds the dump
    of a dict, which [yaml.safe_load] reads back as that dict.  What a
    write leaves in the file is an input: [write c f] is the file after
    [save_user_config] has tried to write [c] over [f]; the write succeeds
    when that is [Holds c]. *)

Module UserConfig.

Section WithValues.

Variable V : Type.

Definition config : Type := list (string * V).

Inductive file : Type :=
| Missing
| Unreadable
| Holds (c : config).

Record state : Type := mk {
  _user_config : config;
  _user_config_file : file
}.

Variable write : config -> file -> file.

(** [d[key] = value] *)
Fixpoint dict_set (d : config) (key : string) (value : V) : config :=
  match d with
  | [] => [(key, value)]
  | (k, v) :: d' =>
      if String.eqb k key then (k, value) :: d'
      else (k, v) :: dict_set d' key value
  end.

Definition load_user_config (s : state) : state :=
  match _user_config_file s with
  | Missing => s
  | Unreadable => mk [] (_user_config_file s)
  | Holds c => mk c (_user_config_file s)
  end.

Definition save_user_config (s : state) : state :=
  mk (_user_config s) (write (_user_config s) (_user_config_file s)).

(** [get_user_conf]: the state afterwards and the value returned. *)
Definition get_user_conf (key : string) (default : V) (s : state)
  : state * V :=
  let s' :=
    match _user_config s with
    | [] => load_user_config s
    | _ :: _ => s
    end in
  (s', match dict_get String.eqb (_user_config s') key with
       | Some value => value
       | None => default
       end).

Definition set_user_conf (key : string) (value : V) (s : state) : state :=
  save_user_config (mk (dict_set (_user_config s) key value)
                       (_user_config_file s)).

End WithValues.

Arguments Missing {V}.
Arguments Unreadable {V}.
Arguments Holds {V} c.
Arguments mk {V} _ _.
Arguments _user_config {V} s.
Arguments _user_config_file {V} s.

End UserConfig.

(** ** src/task/BaseWWTask.py: walking, stamina and team helpers

    Directions are the movement keys 'w', 'a', 's', 'd' or [None].  What
    the task does to the game is recorded as a trace of events; what it
    reads from the screen and the clock is an input. *)

Module Walking.

Inductive key : Set := W | A | S | D.

Definition key_eqb (x y : key) : bool :=
  match x, y with
  | W, W | A, A | S, S | D, D => true
  | _, _ => false
  end.

(** [x != y] on directions that may be [None]. *)
Definition direction_neqb (x y : option key) : bool :=
  match x, y with
  | Some x, Some y => negb (key_eqb x y)
  | None, None => false
  | _, _ => true
  end.

Inductive event : Type :=
| NextFrame
| SendKeyDown (k : key)
| SendKeyUp (k : key)
| Sleep (seconds : Q)
| LogDebug
| LogInfo
| Update
| MiddleClick (down_time : Q)
| MouseUp
| MouseDown
| WaitInCombat (time_out : Q)
| TurnDirection (direction : key)
| SendKeyUpShift
| SendToolKey.

Definition opposite_direction (direction : option key) : key :=
  match direction with
  | Some W => S
  | Some S => W
  | Some A => D
  | Some D => A
  | None => W
  end.

Definition get_direction
  (location_x location_y screen_width screen_height : Q) (centered : bool)
  (current_direction : option key) : key :=
  if Qleb screen_width 0 || Qleb screen_height 0 then
    if Qltb location_x (screen_width / 2) then A else D
  else
    let center_x := screen_width / 2 in
    let center_y := screen_height / 2 in
    let delta_x := center_x - location_x in
    let delta_y := center_y - location_y in
    if Qgtb (Qabs delta_x) (Qabs delta_y)
       || (match current_direction with None => true | Some _ => false end
           && Qgtb (Qabs delta_x) (0.05 * screen_height))
       || Qgtb (Qabs delta_x) (0.15 * screen_height)
    then if Qgtb delta_x 0 then A else D
    else if Qgtb delta_y 0 then W else S.

Definition _stop_last_direction (last_direction : option key) : list event :=
  match last_direction with
  | Some k => [SendKeyUp k; Sleep 0.01]
  | None => []
  end.

(** [_walk_direction]: the events and the direction returned. *)
Definition _walk_direction (last_direction next_direction : option key)
  : list event * option key :=
  (if direction_neqb next_direction last_direction then
     _stop_last_direction last_direction
     ++ match next_direction with
        | Some k => [SendKeyDown k]
        | None => []
        end
   else [],
   next_direction).

(** What [walk_to_yolo_echo] reads of the first echo found: the x of its
    centre, its top and its height. *)
Record echo : Type := mk_echo {
  center_x : Q;
  y : Q;
  height : Q
}.

(** What one round of the loop of [walk_to_yolo_echo] observes: the clock
    at the loop test, whether the echo was picked, whether a fight has
    started, the echoes found, and the clock read when none is found. *)
Record frame : Type := mk_frame {
  time_at_test : Q;
  pick_f : bool;
  in_combat : bool;
  find_echos : list echo;
  time_no_echo : Q
}.

Section WalkToYoloEcho.

Variable width_of_screen height_of_screen : Q -> Q.
Variable start time_out : Q.
Variable update_function : bool.

Definition next_direction_of (last_direction : option key) (echo : echo)
  : key :=
  let center_distance := center_x echo - width_of_screen 0.5 in
  let threshold :=
    match last_direction with None => 0.05 | Some _ => 0.15 end in
  if Qltb (Qabs center_distance) (height_of_screen threshold) then
    if Qgtb (y echo + height echo) (height_of_screen 0.65) then S else W
  else if Qgtb center_distance 0 then D
  else A.

(** The loop of [walk_to_yolo_echo].  The result is [None] when the frames
    run out before the loop has ended; otherwise the events and the value
    returned ([Some true], [Some false] or Python's [None]). *)
Fixpoint walk_loop (frames : list frame) (last_direction : option key)
  (no_echo_start : Q) : option (list event * option bool) :=
  match frames with
  | [] => None
  | f :: frames' =>
      if Qltb (time_at_test f - start) time_out then
        if pick_f f then
          Some (NextFrame :: LogDebug :: _stop_last_direction last_direction,
                Some true)
        else if in_combat f then
          Some (NextFrame :: LogDebug :: _stop_last_direction last_direction,
                Some false)
        else
          let continue (next_direction : key) (no_echo_start : Q) :=
            let '(events, last_direction) :=
              _walk_direction last_direction (Some next_direction) in
            match walk_loop frames' last_direction no_echo_start with
            | Some (rest, r) =>
                Some (NextFrame :: events
                      ++ (if update_function then [Update] else [])
                      ++ rest, r)
            | None => None
            end in
          match find_echos f with
          | [] =>
              if Qeq_bool no_echo_start 0 then continue W (time_no_echo f)
              else if Qgtb (time_no_echo f - no_echo_start) 3 then
                Some (NextFrame :: LogDebug
                      :: _stop_last_direction last_direction, None)
              else continue W no_echo_start
          | echo :: _ =>
              continue (next_direction_of last_direction echo) 0
          end
      else Some (_stop_last_direction last_direction, None)
  end.

Definition walk_to_yolo_echo (frames : list frame)
  : option (list event * option bool) :=
  walk_loop frames None 0.

End WalkToYoloEcho.

(** What one round of the loop of [do_walk_to_box] observes: the clock at
    the loop test, what [end_condition()] answers, the centre of the box
    that [find_function()] gives (of the first one when it gives a list),
    and whether 'on_the_wall' and 'tool_teleport' are found. *)
Record box_frame : Type := mk_box_frame {
  box_time_at_test : Q;
  end_condition_value : bool;
  find_function : option (Q * Q);
  on_the_wall : bool;
  tool_teleport : bool
}.

Section DoWalkToBox.

Variable width_of_screen height_of_screen : Q -> Q.
Variable start time_out : Q.
(** whether an [end_condition] is given *)
Variable end_condition : bool.
Variable y_offset x_threshold : Q.
Variable use_hook : bool.

(** The statements after the loop of [do_walk_to_box]. *)
Definition box_finish (last_direction : option key) (running ended : bool)
  : list event * bool :=
  (match last_direction with
   | Some k => [SendKeyUp k; Sleep 0.001]
   | None => []
   end
   ++ (if running then [SendKeyUpShift] else []),
   if negb end_condition then
     match last_direction with Some _ => true | None => false end
   else ended).

(** The direction that one round chooses, and [centered] afterwards. *)
Definition box_next_direction (last_direction : option key)
  (last_target : option (Q * Q)) (centered : bool)
  : list event * key * bool :=
  match last_target with
  | None => ([LogInfo], opposite_direction last_direction, centered)
  | Some (x, y) =>
      let y :=
        if Qgtb (y - height_of_screen y_offset) 0
        then y - height_of_screen y_offset else 0 in
      let x_abs := Qabs (x - width_of_screen 0.5) in
      let threshold :=
        match last_direction with None => 0.04 | Some _ => x_threshold end in
      let centered := centered || Qleb x_abs (width_of_screen threshold) in
      if negb centered then
        ([], if Qgtb x (width_of_screen 0.5) then D else A, centered)
      else
        let center :=
          match last_direction with
          | Some S => 0.45
          | Some W => 0.6
          | _ => 0.5
          end in
        ([], if Qgtb y (height_of_screen center) then S else W, centered)
  end.

(** The loop of [do_walk_to_box] and the statements after it; [None] when
    the frames run out before the loop has ended. *)
Fixpoint box_loop (frames : list box_frame) (last_direction : option key)
  (running : bool) (last_target : option (Q * Q)) (centered : bool)
  : option (list event * bool) :=
  match frames with
  | [] => None
  | f :: frames' =>
      if Qltb (box_time_at_test f - start) time_out then
        if end_condition && end_condition_value f then
          let '(events, r) := box_finish last_direction running true in
          Some (NextFrame :: events, r)
        else
          let last_target :=
            match find_function f with
            | Some treasure_icon => Some treasure_icon
            | None => last_target
            end in
          let '(log, next_direction, centered) :=
            box_next_direction last_direction last_target centered in
          let keys :=
            if direction_neqb (Some next_direction) last_direction then
              match last_direction with
              | Some k => [SendKeyUp k; Sleep 0.001]
              | None => []
              end ++ [SendKeyDown next_direction]
            else [] in
          let '(run, running') :=
            if running then
              (if negb (on_the_wall f) then [LogInfo; MouseUp] else [],
               running)
            else if key_eqb next_direction W && on_the_wall f then
              ([LogInfo; MouseDown; Sleep 0.1], true)
            else ([], running) in
          let hook :=
            if use_hook && key_eqb next_direction W && tool_teleport f
            then [SendToolKey; Sleep 3] else [] in
          match box_loop frames' (Some next_direction) running' last_target
                  centered with
          | Some (rest, r) =>
              Some (NextFrame :: log ++ keys ++ run ++ hook ++ rest, r)
          | None => None
          end
      else Some (box_finish last_direction running false)
  end.

(** [do_walk_to_box] with a [find_function]: [wait_until_found] is whether
    the wait for the target ends before its time-out; if not, [wait_until]
    raises and nothing else happens. *)
Definition do_walk_to_box (wait_until_found : bool)
  (frames : list box_frame) : option (option (list event * bool)) :=
  if wait_until_found then
    match box_loop frames None false None false with
    | Some r => Some (Some r)
    | None => None
    end
  else Some None.

End DoWalkToBox.

(** [_navigate_based_on_angle]: the events and
    [(new_direction, new_adjust, should_continue)]. *)
Definition _navigate_based_on_angle (angle : Q)
  (current_direction current_adjust : option key)
  : list event * (option key * option key * bool) :=
  let minor_adjust :=
    match current_direction with
    | Some W =>
        if Qleb 10 angle && Qleb angle 80 then Some D
        else if Qleb (-80) angle && Qleb angle (-10) then Some A
        else None
    | _ => None
    end in
  match minor_adjust with
  | Some k =>
      ([SendKeyDown k; Sleep 0.1; MiddleClick 0.1; SendKeyUp k; Sleep 0.01],
       (current_direction, current_adjust, true))
  | None =>
      let cleanup :=
        match current_adjust with
        | Some k => [SendKeyUp k]
        | None => []
        end in
      let new_direction :=
        if Qleb (-45) angle && Qleb angle 45 then W
        else if Qltb 45 angle && Qleb angle 135 then D
        else if Qltb (-135) angle && Qleb angle (-45) then A
        else S in
      if direction_neqb current_direction (Some new_direction) then
        (cleanup
         ++ [LogInfo]
         ++ match current_direction with
            | Some k => [MouseUp; SendKeyUp k; WaitInCombat 0.2]
            | None => []
            end
         ++ [TurnDirection new_direction; SendKeyDown W; WaitInCombat 0.2;
             MouseDown; WaitInCombat 1],
         (Some W, None, false))
      else (cleanup, (current_direction, None, false))
  end.

(** [in_team]: the loop over the three labels, from index [i]. *)
Fixpoint in_team_loop {Box : Type} (arr : list (option Box)) (i : Z)
  (current exist_count : Z) : Z * Z :=
  match arr with
  | [] => (current, exist_count)
  | None :: arr' =>
      in_team_loop arr' (i + 1) (if (current =? -1)%Z then i else current)
        exist_count
  | Some _ :: arr' => in_team_loop arr' (i + 1) current (exist_count + 1)
  end.

(** [in_team] on the three labels found or not; the second component is
    [_logged_in] afterwards. *)
Definition in_team {Box : Type} (c1 c2 c3 : option Box) (_logged_in : bool)
  : (bool * Z * Z) * bool :=
  let arr := [c1; c2; c3] in
  let '(current, exist_count) := in_team_loop arr 0 (-1) 0 in
  if ((exist_count =? 2) || (exist_count =? 1))%Z then
    ((true, current, exist_count + 1), true)%Z
  else ((false, -1, exist_count + 1), _logged_in)%Z.

End Walking.

Module Stamina.

Inductive event : Type :=
| Sleep (seconds : Q)
| Screenshot
| InfoSet (current back_up : Z)
| Click (x y after_sleep : Q)
| Back (after_sleep : Q).

(** [get_stamina] on what the OCR gives: [None] when no box is found,
    otherwise the number before the slash of the first "n/m" box and the
    number of the first plain number box, where there is one. *)
Definition get_stamina (boxes : option (option N * option N))
  : list event * (Z * Z * Z) :=
  match boxes with
  | None => ([Screenshot], (-1, -1, -1)%Z)
  | Some (current_box, back_up_box) =>
      let current :=
        match current_box with Some n => Z.of_N n | None => 0%Z end in
      let back_up :=
        match back_up_box with Some n => Z.of_N n | None => 0%Z end in
      ([InfoSet current back_up], (current, back_up, (current + back_up)%Z))
  end.

(** [use_stamina]: [double] is whether the OCR finds the number [once * 2],
    [gem_add_stamina] whether the refill dialog shows up.  The events and
    [(can_continue, used)]. *)
Definition use_stamina (once must_use : Z) (double : bool)
  (boxes : option (option N * option N)) (gem_add_stamina : bool)
  : list event * (bool * Z) :=
  let '(events, (current, back_up, total)) := get_stamina boxes in
  let y := 0.62 in
  let '(x, used) :=
    if negb double then (0.67, once)
    else if (current >=? once * 2)%Z then (0.67, (once * 2)%Z)
    else if ((must_use >? once) && (total >=? once * 2))%Z then
      (0.67, (once * 2)%Z)
    else (0.32, once) in
  let refill :=
    if gem_add_stamina then
      [Click 0.70 0.71 0.5; Click 0.70 0.71 1; Back 0.5; Click x y 0.5]
    else [] in
  let current := (current - used)%Z in
  let must_use := (must_use - used)%Z in
  let total := (total - used)%Z in
  let can_continue :=
    if (total <? once)%Z then false
    else if ((must_use <=? 0) && (current <? once))%Z then false
    else true in
  (Sleep 1 :: events ++ Click x y 0.5 :: refill, (can_continue, used)).

End Stamina.

(** The direction key held after a trace of events that starts with [held]:
    [None] when the trace presses a key while one is held, or releases a
    key that is not the one held. *)
Fixpoint keys_held (events : list Walking.event) (held : option Walking.key)
  : option (option Walking.key) :=
  match events with
  | [] => Some held
  | Walking.SendKeyDown k :: events' =>
      match held with
      | None => keys_held events' (Some k)
      | Some _ => None
      end
  | Walking.SendKeyUp k :: events' =>
      match held with
      | Some k' => if Walking.key_eqb k k' then keys_held events' None
                   else None
      | None => None
      end
  | _ :: events' => keys_held events' held
  end.

(** Events that touch no movement key. *)
Definition no_key_event (e : Walking.event) : bool :=
  match e with
  | Walking.SendKeyDown _ | Walking.SendKeyUp _ => false
  | _ => true
  end.

(** * Properties *)

(** ** Comparisons of rationals *)

Lemma Qltb_lt (a b : Q) : Qltb a b = true <-> a < b.
Proof.
  unfold Qltb. rewrite negb_true_iff. split; intro H.
  - apply Qnot_le_lt. intro L. apply Qle_bool_iff in L. congruence.
  - destruct (Qle_bool b a) eqn:E; trivial.
    apply Qle_bool_iff in E. exfalso. apply (Qlt_not_le _ _ H E).
Qed.

Lemma Qltb_ge (a b : Q) : Qltb a b = false <-> b <= a.
Proof. unfold Qltb. rewrite negb_false_iff. apply Qle_bool_iff. Qed.

Lemma Qgtb_gt (a b : Q) : Qgtb a b = true <-> b < a.
Proof. apply Qltb_lt. Qed.

Lemma Qgtb_le (a b : Q) : Qgtb a b = false <-> a <= b.
Proof. apply Qltb_ge. Qed.

Lemma Qleb_le (a b : Q) : Qleb a b = true <-> a <= b.
Proof. apply Qle_bool_iff. Qed.

Lemma Qleb_gt (a b : Q) : Qleb a b = false <-> b < a.
Proof.
  unfold Qleb. split; intro H.
  - apply Qnot_le_lt. intro L. apply Qle_bool_iff in L. congruence.
  - destruct (Qle_bool a b) eqn:E; trivial.
    apply Qle_bool_iff in E. exfalso. apply (Qlt_not_le _ _ H E).
Qed.

Lemma Qneqb_true (a b : Q) : Qneqb a b = true <-> ~ a == b.
Proof.
  unfold Qneqb. rewrite negb_true_iff. split; intro H.
  - intro E. apply Qeq_bool_iff in E. congruence.
  - destruct (Qeq_bool a b) eqn:E; trivial.
    apply Qeq_bool_iff in E. contradiction.
Qed.

Lemma Qneqb_false (a b : Q) : Qneqb a b = false <-> a == b.
Proof. unfold Qneqb. rewrite negb_false_iff. apply Qeq_bool_iff. Qed.

Lemma Qeq_bool_false (a b : Q) : Qeq_bool a b = false <-> ~ a == b.
Proof.
  split; intro H.
  - intro E. apply Qeq_bool_iff in E. congruence.
  - destruct (Qeq_bool a b) eqn:E; trivial.
    apply Qeq_bool_iff in E. contradiction.
Qed.

(** ** Stat keys and dicts *)

Lemma StatKey_eqb_eq (a b : StatKey.t) : StatKey.eqb a b = true <-> a = b.
Proof. destruct a, b; simpl; split; intro H; congruence. Qed.

Lemma StatKey_eqb_refl (a : StatKey.t) : StatKey.eqb a a = true.
Proof. destruct a; reflexivity. Qed.

Lemma StatKey_eqb_neq (a b : StatKey.t) : StatKey.eqb a b = false <-> a <> b.
Proof. destruct a, b; simpl; split; intro H; congruence. Qed.

Lemma field_keys_complete (k : StatKey.t) : In k field_keys.
Proof. destruct k; simpl; tauto. Qed.

Lemma field_keys_nodup : NoDup field_keys.
Proof.
  unfold StatKey.field_keys.
  repeat (constructor; [simpl; intuition congruence|]). constructor.
Qed.

Lemma key_in_In (key : StatKey.t) (keys : list StatKey.t) :
  key_in key keys = true <-> In key keys.
Proof.
  unfold key_in. rewrite existsb_exists. split.
  - intros [x [Hin Heq]]. apply StatKey_eqb_eq in Heq. now subst.
  - intro Hin. exists key. split; [exact Hin|apply StatKey_eqb_refl].
Qed.

Lemma key_in_not_In (key : StatKey.t) (keys : list StatKey.t) :
  key_in key keys = false <-> ~ In key keys.
Proof.
  rewrite <- key_in_In. destruct (key_in key keys); split; congruence.
Qed.

(** A key of the stat catalog has an entry. *)
Lemma stat_get_some (tbl : StatTable) (key : StatKey.t) :
  In key (dict_keys tbl) ->
  exists stat, dict_get StatKey.eqb tbl key = Some stat.
Proof.
  induction tbl as [|[k v] tbl IH]; simpl; intro H; [contradiction|].
  destruct (StatKey.eqb k key) eqn:E.
  - now exists v.
  - apply StatKey_eqb_neq in E. destruct H as [H|H]; [contradiction|].
    now apply IH.
Qed.

(** ** Sums *)

Lemma fold_left_Qplus_acc (xs : list Q) (a : Q) :
  fold_left Qplus xs a == a + fold_left Qplus xs 0.
Proof.
  revert a. induction xs as [|x xs IH]; intro a; simpl.
  - ring.
  - rewrite IH. rewrite (IH (0 + x)). ring.
Qed.

Lemma Qsum_cons (x : Q) (xs : list Q) : Qsum (x :: xs) == x + Qsum xs.
Proof.
  unfold Qsum. simpl. rewrite fold_left_Qplus_acc. ring.
Qed.

Lemma Qsum_app (xs ys : list Q) : Qsum (xs ++ ys) == Qsum xs + Qsum ys.
Proof.
  induction xs as [|x xs IH]; simpl.
  - unfold Qsum at 2. simpl. ring.
  - rewrite !Qsum_cons, IH. ring.
Qed.

Lemma sum_over_ext {A : Type} (f g : A -> Q) (l : list A) :
  (forall k, In k l -> f k == g k) -> sum_over f l == sum_over g l.
Proof.
  induction l as [|k l IH]; intro H; simpl.
  - reflexivity.
  - rewrite (H k (or_introl eq_refl)), IH.
    + reflexivity.
    + intros k' Hk'. apply H. now right.
Qed.

(** A loop that adds [f key] to an accumulator for every key. *)
Lemma fold_left_add_sum_over {A : Type} (f : A -> Q) (l : list A) (a : Q) :
  fold_left (fun acc k => acc + f k) l a == a + sum_over f l.
Proof.
  revert a. induction l as [|k l IH]; intro a; simpl.
  - ring.
  - rewrite IH. ring.
Qed.

(** A loop that adds [f key] only for the keys that pass a test. *)
Lemma fold_left_guard_sum_over {A : Type} (b : A -> bool) (f : A -> Q)
  (l : list A) (a : Q) :
  fold_left (fun acc k => if b k then acc + f k else acc) l a
  == a + sum_over (fun k => if b k then f k else 0) l.
Proof.
  revert a. induction l as [|k l IH]; intro a; simpl.
  - ring.
  - rewrite IH. destruct (b k); ring.
Qed.

Lemma Qsum_map_sum_over {A : Type} (f : A -> Q) (l : list A) :
  Qsum (map f l) == sum_over f l.
Proof.
  induction l as [|k l IH]; simpl.
  - reflexivity.
  - rewrite Qsum_cons, IH. reflexivity.
Qed.

(** ** Scores *)

Lemma weighted_sum_sum_over (p : EchoProfile.t) (c : EntryCoef.t) :
  weighted_sum p c
  == sum_over (fun k => EchoProfile.getattr p k * EntryCoef.getattr c k)
              field_keys.
Proof. unfold weighted_sum. simpl. ring. Qed.

Lemma EchoProfile_get_score_sum (p : EchoProfile.t) (c : EntryCoef.t) :
  EchoProfile.get_score p c == weighted_sum p c.
Proof.
  unfold EchoProfile.get_score.
  rewrite fold_left_add_sum_over, weighted_sum_sum_over. ring.
Qed.

Lemma Calculator_get_score_positive (p : EchoProfile.t) (c : EntryCoef.t) :
  Calculator.get_score p c == positive_weighted_sum p c.
Proof.
  unfold Calculator.get_score, positive_weighted_sum.
  rewrite (fold_left_guard_sum_over
             (fun k => Qgtb (EntryCoef.getattr c k) 0)
             (fun k => EchoProfile.getattr p k * EntryCoef.getattr c k)).
  ring.
Qed.

Lemma positive_weighted_sum_nonneg (p : EchoProfile.t) (c : EntryCoef.t) :
  nonneg_weights c -> positive_weighted_sum p c == weighted_sum p c.
Proof.
  intro Hc. rewrite weighted_sum_sum_over. unfold positive_weighted_sum.
  apply sum_over_ext. intros k _.
  destruct (Qgtb (EntryCoef.getattr c k) 0) eqn:E.
  - reflexivity.
  - apply Qgtb_le in E. specialize (Hc k).
    assert (Hz : EntryCoef.getattr c k == 0) by (apply Qle_antisym; assumption).
    rewrite Hz. ring.
Qed.

Lemma Calculator_get_score_sum (p : EchoProfile.t) (c : EntryCoef.t) :
  nonneg_weights c -> Calculator.get_score p c == weighted_sum p c.
Proof.
  intro Hc. rewrite Calculator_get_score_positive.
  now apply positive_weighted_sum_nonneg.
Qed.

(** C1.  For every profile and every coefficient profile,
    EchoProfile.get_score is the sum over the thirteen keys of field times
    weight; Calculator.get_score is that sum restricted to the keys whose
    weight is positive, hence the same sum over the thirteen keys whenever
    no weight is negative, as the weights of the specification are. *)
Theorem score_weighted_sum (p : EchoProfile.t) (c : EntryCoef.t) :
  EchoProfile.get_score p c == weighted_sum p c /\
  Calculator.get_score p c == positive_weighted_sum p c /\
  (nonneg_weights c -> Calculator.get_score p c == weighted_sum p c).
Proof.
  split; [apply EchoProfile_get_score_sum|].
  split; [apply Calculator_get_score_positive|].
  apply Calculator_get_score_sum.
Qed.

(** The instance of the specification: weight 2.0 for cri_rate only and
    cri_rate = 6.3 only give 12.6 with both operations. *)
Lemma score_weighted_sum_witness :
  nonneg_weights Sample.coef_cri_rate_2 /\
  Calculator.get_score Sample.profile_cri_rate Sample.coef_cri_rate_2 == 12.6 /\
  EchoProfile.get_score Sample.profile_cri_rate Sample.coef_cri_rate_2 == 12.6.
Proof.
  assert (Hc : nonneg_weights Sample.coef_cri_rate_2).
  { intro k. destruct k; simpl; lra. }
  destruct (score_weighted_sum Sample.profile_cri_rate Sample.coef_cri_rate_2)
    as [He [_ Hs]].
  split; [exact Hc|]. split.
  - rewrite (Hs Hc). reflexivity.
  - rewrite He. reflexivity.
Defined.

(** The guard of Calculator.get_score shows only with a weight that is
    negative, which no coefficient profile of the specification has: with
    atk_rate = 6.4 and the weight -1 for atk_rate it returns 0 while the
    sum over the keys is -6.4. *)
Lemma calculator_score_negative_weight :
  Calculator.get_score Cex.profile_atk Cex.coef_negative == 0 /\
  weighted_sum Cex.profile_atk Cex.coef_negative == -6.4 /\
  ~ Calculator.get_score Cex.profile_atk Cex.coef_negative
    == weighted_sum Cex.profile_atk Cex.coef_negative.
Proof.
  split; [reflexivity|]. split; [reflexivity|].
  intro H. vm_compute in H. discriminate H.
Qed.

(** ** The turn between two headings *)

Lemma get_angle_between_cases (my_angle angle : Q) :
  let d := angle - my_angle in
  (180 < d /\ BaseWWTask.get_angle_between my_angle angle == d - 360) \/
  (d < -180 /\ BaseWWTask.get_angle_between my_angle angle == d + 360) \/
  (-180 <= d <= 180 /\ BaseWWTask.get_angle_between my_angle angle == d).
Proof.
  intro d. subst d. unfold BaseWWTask.get_angle_between.
  destruct (Qgtb my_angle angle) eqn:E0.
  - destruct (Qgtb (angle - my_angle) 180) eqn:E1.
    + left. apply Qgtb_gt in E1. split; [exact E1|reflexivity].
    + apply Qgtb_le in E1.
      destruct (Qltb (angle - my_angle) (-180)) eqn:E2.
      * right; left. apply Qltb_lt in E2. split; [exact E2|reflexivity].
      * right; right. apply Qltb_ge in E2. repeat split; trivial.
  - destruct (Qgtb (- (my_angle - angle)) 180) eqn:E1.
    + left. apply Qgtb_gt in E1. split; [lra|ring].
    + apply Qgtb_le in E1.
      destruct (Qltb (- (my_angle - angle)) (-180)) eqn:E2.
      * right; left. apply Qltb_lt in E2. split; [lra|ring].
      * right; right. apply Qltb_ge in E2. split; [lra|ring].
Qed.

(** C9 (amended).  For headings in [0, 360) the result lies in the closed
    interval [-180, 180] and differs from target - current by 0 or by a
    full turn; for exactly opposite headings it is 180 when the target is
    the larger angle and -180 when it is the smaller one. *)
Theorem get_angle_between_range (my_angle angle : Q) :
  0 <= my_angle < 360 -> 0 <= angle < 360 ->
  let to_turn := BaseWWTask.get_angle_between my_angle angle in
  -180 <= to_turn <= 180 /\
  (to_turn == angle - my_angle \/
   to_turn == angle - my_angle - 360 \/
   to_turn == angle - my_angle + 360) /\
  (angle - my_angle == 180 -> to_turn == 180) /\
  (angle - my_angle == -180 -> to_turn == -180).
Proof.
  intros Hm Ha to_turn. subst to_turn.
  destruct (get_angle_between_cases my_angle angle)
    as [[H1 H2]|[[H1 H2]|[H1 H2]]]; rewrite H2;
    (split; [lra|split; [|split; intro; lra]]).
  - right; left; reflexivity.
  - right; right; reflexivity.
  - left; reflexivity.
Qed.

Lemma get_angle_between_range_witness :
  -180 <= BaseWWTask.get_angle_between 350 10 <= 180 /\
  BaseWWTask.get_angle_between 350 10 == 20.
Proof.
  assert (Hm : 0 <= 350 < 360) by lra.
  assert (Ha : 0 <= 10 < 360) by lra.
  destruct (get_angle_between_range 350 10 Hm Ha) as [Hr _].
  split; [exact Hr|reflexivity].
Defined.

(** C9 as stated fails: from heading 180 to heading 0 the result is -180,
    which is outside (-180, 180]. *)
Lemma get_angle_between_opposite :
  BaseWWTask.get_angle_between 180 0 == -180 /\
  ~ (-180 < BaseWWTask.get_angle_between 180 0).
Proof.
  split; [reflexivity|].
  intro H. vm_compute in H. discriminate H.
Qed.

(** ** The denominator of the score ratio *)

(** C5 (amended).  The denominator of the ratio is get_max_possible_score of
    the empty level-0 profile when that is positive and 1 otherwise; it is
    positive, so the division is never by zero, and the ratio is the
    expected score divided by it. *)
Theorem max_potential_positive (stats : StatTable) (coef : EntryCoef.t) :
  let fresh :=
    Calculator.get_max_possible_score stats EchoProfile.default coef in
  0 < AutoEnhanceEchoTask.max_potential stats coef /\
  ~ AutoEnhanceEchoTask.max_potential stats coef == 0 /\
  (0 < fresh -> AutoEnhanceEchoTask.max_potential stats coef = fresh) /\
  (fresh <= 0 -> AutoEnhanceEchoTask.max_potential stats coef = 1) /\
  (forall profile expected_score,
     Calculator.get_expected_score stats profile coef = Ok expected_score ->
     AutoEnhanceEchoTask.score_ratio stats profile coef
     = Ok (expected_score / AutoEnhanceEchoTask.max_potential stats coef)).
Proof.
  intro fresh. subst fresh.
  unfold AutoEnhanceEchoTask.max_potential,
    AutoEnhanceEchoTask.fresh_max_potential.
  set (m := Calculator.get_max_possible_score stats EchoProfile.default coef).
  assert (Hpos : 0 < (if Qleb m 0 then 1 else m)).
  { destruct (Qleb m 0) eqn:E; [lra|]. now apply Qleb_gt in E. }
  split; [exact Hpos|]. split; [lra|]. split; [|split].
  - intro H. destruct (Qleb m 0) eqn:E; [|reflexivity].
    apply Qleb_le in E. lra.
  - intro H. apply Qleb_le in H. now rewrite H.
  - intros profile expected_score H.
    unfold AutoEnhanceEchoTask.score_ratio. rewrite H. reflexivity.
Qed.

Lemma max_potential_positive_witness :
  0 < Calculator.get_max_possible_score Sample.stat_data EchoProfile.default
        Sample.coef_cri_rate_2 /\
  AutoEnhanceEchoTask.max_potential Sample.stat_data Sample.coef_cri_rate_2
  = Calculator.get_max_possible_score Sample.stat_data EchoProfile.default
      Sample.coef_cri_rate_2.
Proof.
  assert (H : 0 < Calculator.get_max_possible_score Sample.stat_data
                    EchoProfile.default Sample.coef_cri_rate_2)
    by (vm_compute; reflexivity).
  split; [exact H|].
  destruct (max_potential_positive Sample.stat_data Sample.coef_cri_rate_2)
    as [_ [_ [Hpos _]]].
  exact (Hpos H).
Defined.

(** C5 as stated fails: with the only weight 0.01 for cri_rate the
    denominator is 0.081, which is below 1. *)
Lemma max_potential_below_one :
  AutoEnhanceEchoTask.max_potential Sample.stat_data Cex.coef_small == 0.081 /\
  ~ 1 <= AutoEnhanceEchoTask.max_potential Sample.stat_data Cex.coef_small.
Proof.
  split; [reflexivity|].
  intro H. vm_compute in H. apply H. reflexivity.
Qed.

(** ** Fields of a profile *)

Lemma getattr_setattr_same (p : EchoProfile.t) (k : StatKey.t) (v : Q) :
  EchoProfile.getattr (EchoProfile.setattr p k v) k = v.
Proof. destruct p, k; reflexivity. Qed.

Lemma getattr_setattr_other (p : EchoProfile.t) (k k' : StatKey.t) (v : Q) :
  k <> k' ->
  EchoProfile.getattr (EchoProfile.setattr p k v) k' = EchoProfile.getattr p k'.
Proof. destruct p, k, k'; intro H; try reflexivity; congruence. Qed.

Lemma level_setattr (p : EchoProfile.t) (k : StatKey.t) (v : Q) :
  EchoProfile.level (EchoProfile.setattr p k v) = EchoProfile.level p.
Proof. destruct p, k; reflexivity. Qed.

Lemma name_setattr (p : EchoProfile.t) (k : StatKey.t) (v : Q) :
  EchoProfile.name (EchoProfile.setattr p k v) = EchoProfile.name p.
Proof. destruct p, k; reflexivity. Qed.

Lemma level_set_level (p : EchoProfile.t) (l : Z) :
  EchoProfile.level (EchoProfile.set_level p l) = l.
Proof. destruct p; reflexivity. Qed.

Lemma getattr_set_level (p : EchoProfile.t) (l : Z) (k : StatKey.t) :
  EchoProfile.getattr (EchoProfile.set_level p l) k = EchoProfile.getattr p k.
Proof. destruct p, k; reflexivity. Qed.

Lemma name_set_level (p : EchoProfile.t) (l : Z) :
  EchoProfile.name (EchoProfile.set_level p l) = EchoProfile.name p.
Proof. destruct p; reflexivity. Qed.

(** ** Validation *)

Lemma existsb_eqb_In (name : string) (names : list string) :
  existsb (String.eqb name) names = true <-> In name names.
Proof.
  rewrite existsb_exists. split.
  - intros [x [Hin Heq]]. apply String.eqb_eq in Heq. now subst.
  - intro Hin. exists name. split; [exact Hin|apply String.eqb_refl].
Qed.

(** C3 (amended).  validate returns false for every profile whose level is
    below 0 or above 25, whatever its other fields; and when it returns
    true the level lies in 0..25, the name is in the catalog and the number
    of non-zero stat fields is level // 5.  A level in 0..25 that is not a
    multiple of 5 is not rejected on that account. *)
Theorem validate_level_range (stat_data : StatTable) (echo_data : list string)
  (self : EchoProfile.t) :
  ((EchoProfile.level self < 0 \/ 25 < EchoProfile.level self)%Z ->
   EchoProfile.validate stat_data echo_data self = Ok false) /\
  (EchoProfile.validate stat_data echo_data self = Ok true ->
   (0 <= EchoProfile.level self <= 25)%Z /\
   In (EchoProfile.name self) echo_data /\
   Z.of_nat (List.length (EchoProfile.non_zero_keys self))
   = (EchoProfile.level self / 5)%Z).
Proof.
  unfold EchoProfile.validate. split.
  - intro H.
    assert (E : ((0 <=? EchoProfile.level self)%Z
                 && (EchoProfile.level self <=? 25)%Z) = false).
    { apply andb_false_iff. destruct H as [H|H].
      - left. apply Z.leb_gt. exact H.
      - right. apply Z.leb_gt. exact H. }
    rewrite E. reflexivity.
  - destruct ((0 <=? EchoProfile.level self)%Z
              && (EchoProfile.level self <=? 25)%Z) eqn:E1; simpl;
      [|discriminate].
    destruct (existsb (String.eqb (EchoProfile.name self)) echo_data) eqn:E2;
      simpl; [|discriminate].
    destruct (Z.of_nat (List.length (EchoProfile.non_zero_keys self))
              =? EchoProfile.level self / 5)%Z eqn:E3; simpl; [|discriminate].
    intros _.
    apply andb_true_iff in E1. destruct E1 as [L1 L2].
    apply Z.leb_le in L1. apply Z.leb_le in L2.
    apply existsb_eqb_In in E2. apply Z.eqb_eq in E3. auto.
Qed.

Lemma validate_level_range_witness :
  (25 < EchoProfile.level Cex.profile_level_30)%Z /\
  EchoProfile.validate Sample.stat_data Sample.echo_data Cex.profile_level_30
  = Ok false.
Proof.
  assert (H : (25 < EchoProfile.level Cex.profile_level_30)%Z)
    by (simpl; lia).
  split; [exact H|].
  apply (proj1 (validate_level_range Sample.stat_data Sample.echo_data
                  Cex.profile_level_30)).
  right. exact H.
Defined.

(** C3 as stated fails: a level-7 profile with a catalog name and one
    non-zero field holding a catalog value validates. *)
Lemma validate_level_7 :
  EchoProfile.level Cex.profile_level_7 = 7%Z /\
  EchoProfile.validate Sample.stat_data Sample.echo_data Cex.profile_level_7
  = Ok true.
Proof. split; reflexivity. Qed.

(** The same for any catalogs: a name of the name catalog and a non-zero
    value of some distribution give a level-7 profile that validates. *)
Lemma validate_accepts_level_7 (stat_data : StatTable)
  (echo_data : list string) (name : string) (key : StatKey.t)
  (stat : StatEntry.t) (item : DistItem.t) :
  In name echo_data ->
  dict_get StatKey.eqb stat_data key = Some stat ->
  In item (StatEntry.distribution stat) ->
  ~ DistItem.value item == 0 ->
  EchoProfile.validate stat_data echo_data
    (EchoProfile.set_name
       (EchoProfile.set_level
          (EchoProfile.setattr EchoProfile.default key (DistItem.value item)) 7)
       name)
  = Ok true.
Proof.
  intros Hname Hget Hin Hnz.
  assert (Hv : Qeq_bool (DistItem.value item) 0 = false)
    by (now apply Qeq_bool_false).
  assert (Hn : Qneqb (DistItem.value item) 0 = true)
    by (now apply Qneqb_true).
  assert (Hm : existsb (fun entry => Qeq_bool (DistItem.value entry)
                                       (DistItem.value item))
                 (StatEntry.distribution stat) = true).
  { apply existsb_exists. exists item. split; [exact Hin|].
    apply Qeq_bool_iff. reflexivity. }
  apply existsb_eqb_In in Hname.
  unfold EchoProfile.validate, EchoProfile.non_zero_keys, dict_item.
  destruct key; simpl; rewrite Hname; simpl; rewrite ?Hn; simpl;
    rewrite ?Hv; unfold dict_item; rewrite Hget; simpl; rewrite Hm;
    reflexivity.
Qed.

(** ** Parsing a line *)

Local Open Scope string_scope.

Lemma contains_empty_r (sub : string) :
  contains sub "" = true -> sub = "".
Proof. destruct sub; simpl; intro H; [reflexivity|discriminate]. Qed.

(** No stat is recognized in the empty line, whatever the catalog. *)
Lemma _extract_entry_empty (stat_data : StatTable) :
  EchoProfile._extract_entry stat_data "" = None.
Proof.
  unfold EchoProfile._extract_entry.
  assert (H : forall tbl : StatTable,
             fold_left (EchoProfile.entry_step "") tbl (EmptyString, None)
             = (EmptyString, None)).
  { induction tbl as [|[key entry] tbl IH]; [reflexivity|].
    cbn [fold_left]. replace (EchoProfile.entry_step "" ("", None) (key, entry))
      with (EmptyString, @None StatKey.t); [exact IH|].
    unfold EchoProfile.entry_step.
    destruct (contains (StatEntry.name entry) "") eqn:E; [|reflexivity].
    apply contains_empty_r in E. rewrite E.
    destruct (negb _); reflexivity. }
  rewrite H. reflexivity.
Qed.

(** An entry text in which no stat is recognized makes [upgrade] raise. *)
Lemma upgrade_unmatched_entry_raises (stat_data : StatTable)
  (echo_data : list string) (self : EchoProfile.object) (level : Z)
  (new_entry : string) :
  EchoProfile._extract_entry stat_data new_entry = None ->
  EchoProfile.upgrade stat_data echo_data self level new_entry
  = Raise NameError.
Proof. intro H. unfold EchoProfile.upgrade. rewrite H. reflexivity. Qed.

(** C7.  The code does not do what the claim says: for the empty entry
    text, with every catalog, every profile and every level, [upgrade]
    raises NameError instead of returning no value. *)
Theorem upgrade_empty_entry_raises (stat_data : StatTable)
  (echo_data : list string) (self : EchoProfile.object) (level : Z) :
  EchoProfile.upgrade stat_data echo_data self level "" = Raise NameError.
Proof.
  apply upgrade_unmatched_entry_raises. apply _extract_entry_empty.
Qed.

Lemma entries_valid_returns (stat_data : StatTable) (self : EchoProfile.t)
  (keys : list StatKey.t) :
  stat_table_complete stat_data ->
  returns (EchoProfile.entries_valid stat_data self keys).
Proof.
  intro Hc. induction keys as [|key keys IH]; simpl.
  - now exists true.
  - destruct (Qeq_bool (EchoProfile.getattr self key) 0); [exact IH|].
    unfold dict_item.
    destruct (dict_get StatKey.eqb stat_data key) as [stat|] eqn:E; simpl.
    + destruct (negb _); [now exists false|exact IH].
    + destruct (stat_get_some stat_data key (Hc key)) as [stat Hs].
      congruence.
Qed.

Lemma validate_returns (stat_data : StatTable) (echo_data : list string)
  (self : EchoProfile.t) :
  stat_table_complete stat_data ->
  returns (EchoProfile.validate stat_data echo_data self).
Proof.
  intro Hc. unfold EchoProfile.validate.
  destruct (negb _); [now exists false|].
  destruct (negb _); [now exists false|].
  destruct (negb _); [now exists false|].
  now apply entries_valid_returns.
Qed.

(** ** Objects with an infinite field *)

Lemma key_in_cons_same (key : StatKey.t) (keys : list StatKey.t) :
  key_in key (key :: keys) = true.
Proof. unfold key_in. cbn [existsb]. now rewrite StatKey_eqb_refl. Qed.

Lemma key_in_remove (key k : StatKey.t) (keys : list StatKey.t) :
  key_in k (filter (fun x => negb (StatKey.eqb x key)) keys)
  = negb (StatKey.eqb k key) && key_in k keys.
Proof.
  unfold key_in. induction keys as [|x keys IH]; cbn [filter existsb].
  - now rewrite andb_false_r.
  - destruct (StatKey.eqb x key) eqn:Ex; cbn [negb existsb].
    + rewrite IH. apply StatKey_eqb_eq in Ex. subst x.
      destruct (StatKey.eqb k key); reflexivity.
    + rewrite IH. destruct (StatKey.eqb k x) eqn:Ek.
      * apply StatKey_eqb_eq in Ek. subst x.
        rewrite Ex. reflexivity.
      * reflexivity.
Qed.

Lemma field_set_field_same (self : EchoProfile.object) (key : StatKey.t)
  (value : pyfloat) :
  EchoProfile.field (EchoProfile.set_field self key value) key = value.
Proof.
  unfold EchoProfile.field, EchoProfile.set_field.
  destruct value as [q|]; cbn [EchoProfile.infinite EchoProfile.numbers].
  - rewrite key_in_remove, StatKey_eqb_refl. cbn [negb andb].
    now rewrite getattr_setattr_same.
  - now rewrite key_in_cons_same.
Qed.

Lemma field_set_field_other (self : EchoProfile.object) (key k : StatKey.t)
  (value : pyfloat) :
  k <> key ->
  EchoProfile.field (EchoProfile.set_field self key value) k
  = EchoProfile.field self k.
Proof.
  intro Hk. unfold EchoProfile.field, EchoProfile.set_field.
  assert (E : StatKey.eqb k key = false) by now apply StatKey_eqb_neq.
  destruct value as [q|]; cbn [EchoProfile.infinite EchoProfile.numbers].
  - rewrite key_in_remove, E. cbn [negb andb].
    rewrite getattr_setattr_other by congruence. reflexivity.
  - unfold key_in at 1. cbn [existsb]. rewrite E. reflexivity.
Qed.

Lemma numbers_set_field (self : EchoProfile.object) (key : StatKey.t)
  (value : pyfloat) :
  EchoProfile.level (EchoProfile.numbers (EchoProfile.set_field self key value))
  = EchoProfile.level (EchoProfile.numbers self) /\
  EchoProfile.name (EchoProfile.numbers (EchoProfile.set_field self key value))
  = EchoProfile.name (EchoProfile.numbers self).
Proof.
  destruct value as [q|]; cbn [EchoProfile.set_field EchoProfile.numbers].
  - now rewrite level_setattr, name_setattr.
  - now split.
Qed.

Lemma object_entries_valid_returns (stat_data : StatTable)
  (self : EchoProfile.object) (keys : list StatKey.t) :
  stat_table_complete stat_data ->
  returns (EchoProfile.object_entries_valid stat_data self keys).
Proof.
  intro Hc. induction keys as [|key keys IH]; cbn [EchoProfile.object_entries_valid].
  - now exists true.
  - destruct (pyfloat_eqb (EchoProfile.field self key) (Finite 0));
      [exact IH|].
    unfold dict_item.
    destruct (dict_get StatKey.eqb stat_data key) as [stat|] eqn:E;
      cbn [bind].
    + destruct (negb _); [now exists false|exact IH].
    + destruct (stat_get_some stat_data key (Hc key)) as [stat Hs].
      congruence.
Qed.

Lemma validate_object_returns (stat_data : StatTable)
  (echo_data : list string) (self : EchoProfile.object) :
  stat_table_complete stat_data ->
  returns (EchoProfile.validate_object stat_data echo_data self).
Proof.
  intro Hc. unfold EchoProfile.validate_object.
  destruct (negb _); [now exists false|].
  destruct (negb _); [now exists false|].
  destruct (negb _); [now exists false|].
  now apply object_entries_valid_returns.
Qed.

(** On an object whose fields are all numbers, [validate_object] is
    [validate]. *)
Lemma validate_object_of_numbers (stat_data : StatTable)
  (echo_data : list string) (p : EchoProfile.t) :
  EchoProfile.validate_object stat_data echo_data (EchoProfile.of_numbers p)
  = EchoProfile.validate stat_data echo_data p.
Proof.
  unfold EchoProfile.validate_object, EchoProfile.validate,
    EchoProfile.of_numbers. cbn [EchoProfile.numbers].
  assert (Hn : EchoProfile.object_non_zero_keys (EchoProfile.mk_object p [])
               = EchoProfile.non_zero_keys p) by reflexivity.
  rewrite Hn.
  assert (He : forall keys,
             EchoProfile.object_entries_valid stat_data
               (EchoProfile.mk_object p []) keys
             = EchoProfile.entries_valid stat_data p keys).
  { induction keys as [|key keys IH];
      cbn [EchoProfile.object_entries_valid EchoProfile.entries_valid];
      [reflexivity|].
    rewrite IH. reflexivity. }
  rewrite He. reflexivity.
Qed.

(** On the other branch [upgrade] does what the claim says: when a stat is
    recognized in the entry text and the catalog names every key, it
    returns a copy with the given level that validates, or no value. *)
Lemma upgrade_matched_entry (stat_data : StatTable) (echo_data : list string)
  (self : EchoProfile.object) (level : Z) (new_entry : string)
  (key : StatKey.t) :
  stat_table_complete stat_data ->
  EchoProfile._extract_entry stat_data new_entry = Some key ->
  EchoProfile.upgrade stat_data echo_data self level new_entry = Ok None \/
  exists tmp_profile,
    EchoProfile.upgrade stat_data echo_data self level new_entry
    = Ok (Some tmp_profile) /\
    EchoProfile.validate_object stat_data echo_data tmp_profile = Ok true /\
    EchoProfile.level (EchoProfile.numbers tmp_profile) = level /\
    EchoProfile.name (EchoProfile.numbers tmp_profile)
    = EchoProfile.name (EchoProfile.numbers self) /\
    (forall k, k <> key ->
       EchoProfile.field tmp_profile k = EchoProfile.field self k) /\
    (forall number,
       _extract_number new_entry = Some number -> truthy number = true ->
       EchoProfile.field tmp_profile key = number).
Proof.
  intros Hc He. unfold EchoProfile.upgrade. rewrite He.
  set (base := EchoProfile.mk_object
                 (EchoProfile.set_level (EchoProfile.numbers self) level)
                 (EchoProfile.infinite self)).
  assert (Hbase : EchoProfile.level (EchoProfile.numbers base) = level /\
                  EchoProfile.name (EchoProfile.numbers base)
                  = EchoProfile.name (EchoProfile.numbers self) /\
                  forall k, EchoProfile.field base k
                            = EchoProfile.field self k).
  { subst base. cbn [EchoProfile.numbers].
    rewrite level_set_level, name_set_level. repeat split.
    intro k. unfold EchoProfile.field.
    cbn [EchoProfile.numbers EchoProfile.infinite].
    now rewrite getattr_set_level. }
  destruct Hbase as [Hl [Hn Hf]].
  set (tmp := match _extract_number new_entry with
              | Some number =>
                  if truthy number
                  then EchoProfile.set_field base key number
                  else base
              | None => base
              end).
  destruct (validate_object_returns stat_data echo_data tmp Hc)
    as [[|] Hv]; rewrite Hv; cbn [bind]; [right|now left].
  exists tmp. split; [reflexivity|]. split; [exact Hv|].
  subst tmp. destruct (_extract_number new_entry) as [number|].
  - destruct (truthy number) eqn:En.
    + destruct (numbers_set_field base key number) as [Hl' Hn'].
      rewrite Hl', Hn'. repeat split; try assumption.
      * intros k Hk. rewrite field_set_field_other by exact Hk. apply Hf.
      * intros n Hn0 _. injection Hn0 as <-. apply field_set_field_same.
    + repeat split; try assumption.
      * intros k _. apply Hf.
      * intros n Hn0 Ht. injection Hn0 as <-. congruence.
  - repeat split; try assumption.
    + intros k _. apply Hf.
    + intros n Hn0. discriminate Hn0.
Qed.





(** ** Coefficient profiles *)

Lemma coef_getattr_setattr_same (c : EntryCoef.t) (k : StatKey.t) (v : Q) :
  EntryCoef.getattr (EntryCoef.setattr c k v) k = v.
Proof. destruct c, k; reflexivity. Qed.

Lemma coef_getattr_setattr_other (c : EntryCoef.t) (k k' : StatKey.t) (v : Q) :
  k <> k' ->
  EntryCoef.getattr (EntryCoef.setattr c k v) k' = EntryCoef.getattr c k'.
Proof. destruct c, k, k'; intro H; try reflexivity; congruence. Qed.

(** After the loop over a mapping a field holds the last value the mapping
    lists for it, and its old value when the mapping does not list it. *)
Lemma getattr_apply_coef (mapping : list (StatKey.t * Q)) (self : EntryCoef.t)
  (k : StatKey.t) :
  EntryCoef.getattr (EntryCoef.apply_coef self mapping) k
  = match coef_last mapping k with
    | Some v => v
    | None => EntryCoef.getattr self k
    end.
Proof.
  revert self. unfold EntryCoef.apply_coef, coef_last.
  induction mapping as [|[k' v'] m IH] using rev_ind; intro self.
  - reflexivity.
  - rewrite !fold_left_app. cbn [fold_left fst snd].
    destruct (StatKey.eqb k' k) eqn:E.
    + apply StatKey_eqb_eq in E. subst k'. apply coef_getattr_setattr_same.
    + apply StatKey_eqb_neq in E.
      rewrite coef_getattr_setattr_other by assumption. apply IH.
Qed.

Lemma getattr_apply_coef_listed (entry : CoefEntry.t) (self : EntryCoef.t)
  (k : StatKey.t) (derived : Q) :
  EntryCoef.getattr self k = derived ->
  EntryCoef.getattr (EntryCoef.apply_coef self (CoefEntry.coef entry)) k
  = listed_or entry k derived.
Proof.
  intro H. rewrite getattr_apply_coef. unfold listed_or.
  destruct (coef_last (CoefEntry.coef entry) k); [reflexivity|exact H].
Qed.

Lemma init_default_missing (coef_data : CoefTable) (char_name : option string) :
  dict_get String.eqb coef_data "Default" = None ->
  EntryCoef.init coef_data char_name = Raise KeyError.
Proof.
  intro H. unfold EntryCoef.init, dict_item. rewrite H. reflexivity.
Qed.

(** C6 (amended).  With "Default" in the coefficient catalog, constructing
    a coefficient profile for a name raises the invalid-input error exactly
    when the name is absent from the catalog; for a name that is present
    the construction succeeds, and the rate weight and the flat weight of
    the entry's damage source are 1 and the source constant (atk 0.1,
    def 0.1, hp 0.00676) unless the entry's own mapping lists that key, in
    which case the listed value stands. *)
Theorem entry_coef_init (coef_data : CoefTable) (char_name : string)
  (default : CoefEntry.t) :
  dict_get String.eqb coef_data "Default" = Some default ->
  (EntryCoef.init coef_data (Some char_name) = Raise ValueError <->
   dict_get String.eqb coef_data char_name = None) /\
  (forall entry,
     dict_get String.eqb coef_data char_name = Some entry ->
     exists self,
       EntryCoef.init coef_data (Some char_name) = Ok self /\
       (CoefEntry.dmg_source entry = "hp" ->
        EntryCoef.hp_rate self = listed_or entry StatKey.hp_rate 1 /\
        EntryCoef.hp_num self = listed_or entry StatKey.hp_num (676 # 100000)) /\
       (CoefEntry.dmg_source entry = "atk" ->
        EntryCoef.atk_rate self = listed_or entry StatKey.atk_rate 1 /\
        EntryCoef.atk_num self = listed_or entry StatKey.atk_num (1 # 10)) /\
       (CoefEntry.dmg_source entry = "def" ->
        EntryCoef.def_rate self = listed_or entry StatKey.def_rate 1 /\
        EntryCoef.def_num self = listed_or entry StatKey.def_num (1 # 10))).
Proof.
  intro Hd. unfold EntryCoef.init, dict_item. rewrite Hd. cbn [bind].
  unfold EntryCoef.set_char. split.
  - destruct (dict_get String.eqb coef_data char_name); split; intro H;
      (discriminate || reflexivity).
  - intros entry He. rewrite He. eexists. split; [reflexivity|].
    split; [|split]; intro Hs; rewrite Hs; cbn [String.eqb Ascii.eqb Bool.eqb];
      split;
      first
        [ apply (getattr_apply_coef_listed entry _ StatKey.hp_rate)
        | apply (getattr_apply_coef_listed entry _ StatKey.hp_num)
        | apply (getattr_apply_coef_listed entry _ StatKey.atk_rate)
        | apply (getattr_apply_coef_listed entry _ StatKey.atk_num)
        | apply (getattr_apply_coef_listed entry _ StatKey.def_rate)
        | apply (getattr_apply_coef_listed entry _ StatKey.def_num) ];
      first [ apply coef_getattr_setattr_same
            | rewrite coef_getattr_setattr_other by discriminate;
              apply coef_getattr_setattr_same ].
Qed.

Lemma entry_coef_init_witness :
  dict_get String.eqb Sample.coef_data "Default"
  = Some (CoefEntry.mk "atk" [(StatKey.cri_rate, 2); (StatKey.cri_dmg, 1)]) /\
  exists self,
    EntryCoef.init Sample.coef_data (Some "Cartethyia") = Ok self /\
    EntryCoef.hp_rate self = 1 /\ EntryCoef.hp_num self = (676 # 100000).
Proof.
  assert (Hd : dict_get String.eqb Sample.coef_data "Default"
               = Some (CoefEntry.mk "atk"
                         [(StatKey.cri_rate, 2); (StatKey.cri_dmg, 1)]))
    by reflexivity.
  split; [exact Hd|].
  destruct (entry_coef_init Sample.coef_data "Cartethyia" _ Hd) as [_ H].
  destruct (H (CoefEntry.mk "hp" [(StatKey.cri_rate, 2); (StatKey.cri_dmg, 1)])
              eq_refl) as [self [Hs [Hhp _]]].
  exists self. split; [exact Hs|]. apply Hhp. reflexivity.
Defined.

(** C6 as stated fails: "Support" is in the catalog with damage source atk
    and a mapping that lists atk_rate 0.5; the constructed profile has the
    atk_rate weight 0.5, not 1. *)
Lemma entry_coef_init_listed_rate :
  exists self,
    EntryCoef.init Sample.coef_data (Some "Support") = Ok self /\
    EntryCoef.atk_rate self = (1 # 2) /\
    ~ EntryCoef.atk_rate self == 1.
Proof.
  eexists. split; [reflexivity|]. split; [reflexivity|].
  intro H. discriminate H.
Qed.

Local Close Scope string_scope.

(** ** The boundary cases of prob_above_score *)

Lemma filter_length_incl (f : StatKey.t -> bool) (l1 l2 : list StatKey.t) :
  NoDup l1 -> incl l1 l2 ->
  (List.length (filter f l1) <= List.length (filter f l2))%nat.
Proof.
  intros Hn Hi. apply NoDup_incl_length.
  - now apply NoDup_filter.
  - intros x Hx. apply filter_In in Hx. apply filter_In.
    destruct Hx as [Hx Hf]. split; [now apply Hi|exact Hf].
Qed.

(** Over a complete catalog every positive field is an existing sub-stat. *)
Lemma existing_sub_stats_length (stats : StatTable) (profile : EchoProfile.t) :
  stat_table_complete stats ->
  (List.length (positive_keys profile)
   <= List.length (Calculator.existing_sub_stats stats profile))%nat.
Proof.
  intro Hc. unfold positive_keys, Calculator.existing_sub_stats.
  apply filter_length_incl.
  - apply field_keys_nodup.
  - intros k _. apply Hc.
Qed.

(** Non-negative fields are positive exactly when they are not zero. *)
Lemma positive_keys_non_zero (profile : EchoProfile.t) :
  nonneg_fields profile ->
  positive_keys profile = EchoProfile.non_zero_keys profile.
Proof.
  intro Hn. unfold positive_keys, EchoProfile.non_zero_keys.
  apply filter_ext. intro k. specialize (Hn k).
  destruct (Qgtb (EchoProfile.getattr profile k) 0) eqn:E1;
    destruct (Qneqb (EchoProfile.getattr profile k) 0) eqn:E2; trivial.
  - apply Qgtb_gt in E1. apply Qneqb_false in E2. lra.
  - apply Qgtb_le in E1. apply Qneqb_true in E2.
    exfalso. apply E2. apply Qle_antisym; assumption.
Qed.

(** With the threshold above the score and five existing sub-stats no slot
    is left, and the probability is 0. *)
Lemma prob_above_score_no_slot (stats : StatTable) (profile : EchoProfile.t)
  (coef : EntryCoef.t) (threshold : Q) :
  Calculator.get_score profile coef < threshold ->
  (5 <= List.length (Calculator.existing_sub_stats stats profile))%nat ->
  Calculator.prob_above_score stats profile coef threshold = 0.
Proof.
  intros Hlt H5. unfold Calculator.prob_above_score.
  assert (E : Qleb (threshold - Calculator.get_score profile coef) 0 = false)
    by (apply Qleb_gt; lra).
  assert (G : Qgtb (threshold - Calculator.get_score profile coef) 0 = true)
    by (apply Qgtb_gt; lra).
  assert (K : (5 - Z.of_nat
                     (List.length (Calculator.existing_sub_stats stats profile))
               <=? 0)%Z = true) by (apply Z.leb_le; lia).
  rewrite E, K, G. reflexivity.
Qed.

(** C2.  prob_above_score returns exactly 1 whenever the threshold is at
    most the current score.  Over a stat catalog that names the thirteen
    keys it returns exactly 0 whenever at least five stat fields are
    positive and the threshold exceeds the current score; for a profile
    without negative fields, as the profiles of the specification are,
    five non-zero fields are five positive ones. *)
Theorem prob_above_score_boundary (stats : StatTable)
  (profile : EchoProfile.t) (coef : EntryCoef.t) (threshold : Q) :
  (threshold <= Calculator.get_score profile coef ->
   Calculator.prob_above_score stats profile coef threshold = 1) /\
  (stat_table_complete stats ->
   Calculator.get_score profile coef < threshold ->
   ((5 <= List.length (positive_keys profile))%nat ->
    Calculator.prob_above_score stats profile coef threshold = 0) /\
   (nonneg_fields profile ->
    (5 <= List.length (EchoProfile.non_zero_keys profile))%nat ->
    Calculator.prob_above_score stats profile coef threshold = 0)).
Proof.
  split.
  - intro H. unfold Calculator.prob_above_score.
    assert (E : Qleb (threshold - Calculator.get_score profile coef) 0 = true)
      by (apply Qleb_le; lra).
    rewrite E. reflexivity.
  - intros Hc Hlt.
    pose proof (existing_sub_stats_length stats profile Hc) as Hl.
    split.
    + intro H5. apply prob_above_score_no_slot; [exact Hlt|lia].
    + intros Hn H5. rewrite <- positive_keys_non_zero in H5 by exact Hn.
      apply prob_above_score_no_slot; [exact Hlt|lia].
Qed.

Lemma sample_stat_data_complete : stat_table_complete Sample.stat_data.
Proof. intro k. destruct k; simpl; tauto. Qed.

Lemma prob_above_score_boundary_witness :
  Calculator.prob_above_score Sample.stat_data Cex.profile_full
    Cex.coef_cri_dmg 0 = 1 /\
  Calculator.prob_above_score Sample.stat_data Cex.profile_full
    Cex.coef_cri_dmg 10 = 0.
Proof.
  split.
  - apply (proj1 (prob_above_score_boundary Sample.stat_data Cex.profile_full
                    Cex.coef_cri_dmg 0)).
    vm_compute. discriminate.
  - assert (Hlt : Calculator.get_score Cex.profile_full Cex.coef_cri_dmg < 10)
      by (vm_compute; reflexivity).
    destruct (proj2 (prob_above_score_boundary Sample.stat_data
                       Cex.profile_full Cex.coef_cri_dmg 10)
                sample_stat_data_complete Hlt) as [H _].
    apply H. vm_compute. apply le_n.
Defined.

(** The slots counted as filled are the fields above 0, which shows only
    with a negative field, a value that no distribution holds and no
    reading produces: a profile with five non-zero stat fields, one of them
    negative, has one slot left for the calculator; with the threshold 1
    above the score 0 the result is 1/9. *)
Lemma prob_above_score_negative_field :
  List.length (EchoProfile.non_zero_keys Cex.profile_negative_field) = 5%nat /\
  Calculator.get_score Cex.profile_negative_field Cex.coef_cri_dmg < 1 /\
  Calculator.prob_above_score Sample.stat_data Cex.profile_negative_field
    Cex.coef_cri_dmg 1 == 1 # 9 /\
  ~ Calculator.prob_above_score Sample.stat_data Cex.profile_negative_field
      Cex.coef_cri_dmg 1 == 0.
Proof.
  split; [reflexivity|]. split; [reflexivity|]. split; [reflexivity|].
  intro H. vm_compute in H. discriminate H.
Qed.

(** ** Score distributions *)

Lemma mass_nil : mass [] == 0.
Proof. reflexivity. Qed.

Lemma mass_cons (sp : Q * Q) (d : ScoreDist) :
  mass (sp :: d) == snd sp + mass d.
Proof. reflexivity. Qed.

Lemma mass_dist_add (d : ScoreDist) (s p : Q) :
  mass (dist_add d s p) == mass d + p.
Proof.
  unfold mass. induction d as [|[s' p'] d IH]; simpl.
  - ring.
  - destruct (Qeq_bool s' s); simpl.
    + ring.
    + rewrite IH. ring.
Qed.

Lemma nonneg_dist_add (d : ScoreDist) (s p : Q) :
  nonneg_dist d -> 0 <= p -> nonneg_dist (dist_add d s p).
Proof.
  unfold nonneg_dist. induction d as [|[s' p'] d IH]; simpl; intros Hd Hp sp Hin.
  - destruct Hin as [<-|[]]. simpl. lra.
  - destruct (Qeq_bool s' s).
    + destruct Hin as [<-|Hin].
      * simpl. specialize (Hd (s', p') (or_introl eq_refl)). simpl in Hd. lra.
      * apply Hd. now right.
    + destruct Hin as [<-|Hin].
      * apply (Hd (s', p')). now left.
      * apply IH; trivial. intros sp' H'. apply Hd. now right.
Qed.

(** The loop that builds the weighted distribution of one stat. *)
Lemma mass_weighted (weight : Q) (dist_list : list DistItem.t)
  (init : ScoreDist) :
  mass
    (fold_left
       (fun score_dist item =>
          dist_add score_dist (DistItem.value item * weight)
            (DistItem.probability item))
       dist_list init)
  == mass init + sum_over DistItem.probability dist_list.
Proof.
  revert init. induction dist_list as [|item l IH]; intro init; simpl.
  - ring.
  - rewrite IH, mass_dist_add. ring.
Qed.

Lemma nonneg_weighted (weight : Q) (dist_list : list DistItem.t)
  (init : ScoreDist) :
  nonneg_dist init ->
  (forall d, In d dist_list -> 0 <= DistItem.probability d) ->
  nonneg_dist
    (fold_left
       (fun score_dist item =>
          dist_add score_dist (DistItem.value item * weight)
            (DistItem.probability item))
       dist_list init).
Proof.
  revert init. induction dist_list as [|item l IH]; intros init Hi Hp; simpl.
  - exact Hi.
  - apply IH.
    + apply nonneg_dist_add; [exact Hi|]. apply Hp. now left.
    + intros d Hd. apply Hp. now right.
Qed.

Lemma dict_get_In (tbl : StatTable) (key : StatKey.t) (stat : StatEntry.t) :
  dict_get StatKey.eqb tbl key = Some stat -> In (key, stat) tbl.
Proof.
  induction tbl as [|[k v] tbl IH]; simpl; [discriminate|].
  destruct (StatKey.eqb k key) eqn:E.
  - apply StatKey_eqb_eq in E. subst k. intro H. injection H as <-. now left.
  - intro H. right. now apply IH.
Qed.

Lemma nonneg_point : nonneg_dist [(0, 1)].
Proof. intros sp [<-|[]]. simpl. lra. Qed.

Lemma mass_point : mass [(0, 1)] == 1.
Proof. reflexivity. Qed.

(** The weighted distribution of a catalog key is a distribution. *)
Lemma attr_score_dist_mass (stats : StatTable) (coef : EntryCoef.t)
  (key : StatKey.t) :
  stat_table_normalized stats -> In key (dict_keys stats) ->
  mass (Calculator.attr_score_dist stats coef key) == 1 /\
  nonneg_dist (Calculator.attr_score_dist stats coef key).
Proof.
  intros Hn Hk. unfold Calculator.attr_score_dist.
  destruct (Qeq_bool (EntryCoef.getattr coef key) 0).
  - split; [apply mass_point|apply nonneg_point].
  - unfold StatsManager.get_distribution, StatsManager.get_stat.
    destruct (stat_get_some stats key Hk) as [stat Hs]. rewrite Hs.
    destruct (Hn key stat (dict_get_In stats key stat Hs)) as [Hp Hsum].
    split.
    + rewrite mass_weighted, Hsum, mass_nil. ring.
    + apply nonneg_weighted; [|exact Hp]. intros sp [].
Qed.

(** The inner loop of the convolution, for one point of the current
    distribution. *)
Lemma mass_convolve_inner (s1 p1 : Q) (attr_dist new_dist : ScoreDist) :
  mass
    (fold_left
       (fun new_dist sp2 => dist_add new_dist (s1 + fst sp2) (p1 * snd sp2))
       attr_dist new_dist)
  == mass new_dist + p1 * mass attr_dist.
Proof.
  revert new_dist.
  induction attr_dist as [|sp2 l IH]; intro new_dist; cbn [fold_left].
  - rewrite mass_nil. ring.
  - rewrite IH, mass_dist_add, mass_cons. ring.
Qed.

Lemma nonneg_convolve_inner (s1 p1 : Q) (attr_dist new_dist : ScoreDist) :
  0 <= p1 -> nonneg_dist attr_dist -> nonneg_dist new_dist ->
  nonneg_dist
    (fold_left
       (fun new_dist sp2 => dist_add new_dist (s1 + fst sp2) (p1 * snd sp2))
       attr_dist new_dist).
Proof.
  intro Hp. revert new_dist.
  induction attr_dist as [|sp2 l IH]; intros new_dist Ha Hn; simpl.
  - exact Hn.
  - apply IH.
    + intros sp H. apply Ha. now right.
    + apply nonneg_dist_add; [exact Hn|].
      apply Qmult_le_0_compat; [exact Hp|]. apply Ha. now left.
Qed.

Lemma convolve_acc (current attr_dist init : ScoreDist) :
  nonneg_dist current -> nonneg_dist attr_dist -> nonneg_dist init ->
  let result :=
    fold_left
      (fun new_dist sp1 =>
         fold_left
           (fun new_dist sp2 =>
              dist_add new_dist (fst sp1 + fst sp2) (snd sp1 * snd sp2))
           attr_dist new_dist)
      current init in
  mass result == mass init + mass current * mass attr_dist /\
  nonneg_dist result.
Proof.
  revert init.
  induction current as [|sp1 l IH]; intros init Hc Ha Hi; cbn [fold_left].
  - split; [rewrite mass_nil; ring|exact Hi].
  - assert (Hl : nonneg_dist l) by (intros sp H; apply Hc; now right).
    assert (Hp : 0 <= snd sp1) by (apply Hc; now left).
    destruct (IH _ Hl Ha
                (nonneg_convolve_inner (fst sp1) (snd sp1) attr_dist init
                   Hp Ha Hi)) as [Hm Hn].
    split; [|exact Hn].
    rewrite Hm, mass_convolve_inner, mass_cons. ring.
Qed.

(** Convolution multiplies the masses. *)
Lemma convolve_mass (current attr_dist : ScoreDist) :
  nonneg_dist current -> nonneg_dist attr_dist ->
  mass (Calculator.convolve current attr_dist)
  == mass current * mass attr_dist /\
  nonneg_dist (Calculator.convolve current attr_dist).
Proof.
  intros Hc Ha. unfold Calculator.convolve.
  destruct (convolve_acc current attr_dist [] Hc Ha) as [Hm Hn].
  - intros sp [].
  - split; [|exact Hn]. rewrite Hm, mass_nil. ring.
Qed.

(** The distribution of a combination of catalog keys is a distribution. *)
Lemma combo_dist_mass (stats : StatTable) (coef : EntryCoef.t)
  (attrs_combo : list StatKey.t) :
  stat_table_normalized stats -> incl attrs_combo (dict_keys stats) ->
  mass (Calculator.combo_dist stats coef attrs_combo) == 1 /\
  nonneg_dist (Calculator.combo_dist stats coef attrs_combo).
Proof.
  intros Hn Hi. unfold Calculator.combo_dist.
  assert (G : forall (combo : list StatKey.t) (init : ScoreDist),
             incl combo (dict_keys stats) ->
             mass init == 1 -> nonneg_dist init ->
             let result :=
               fold_left
                 (fun current_combo_dist attr =>
                    Calculator.convolve current_combo_dist
                      (Calculator.attr_score_dist stats coef attr))
                 combo init in
             mass result == 1 /\ nonneg_dist result).
  { induction combo as [|attr combo IH]; intros init Hc Hm Hd;
      cbn [fold_left].
    - now split.
    - destruct (attr_score_dist_mass stats coef attr Hn) as [Ma Na].
      { apply Hc. now left. }
      destruct (convolve_mass init
                  (Calculator.attr_score_dist stats coef attr) Hd Na)
        as [Mc Nc].
      apply IH.
      + intros k Hk. apply Hc. now right.
      + rewrite Mc, Hm, Ma. ring.
      + exact Nc. }
  apply G; [exact Hi|apply mass_point|apply nonneg_point].
Qed.

(** The tail of a distribution weighs between 0 and its mass. *)
Lemma filter_mass_bounds (f : Q * Q -> bool) (d : ScoreDist) :
  nonneg_dist d -> 0 <= mass (filter f d) <= mass d.
Proof.
  induction d as [|sp d IH]; intro Hd.
  - unfold mass. simpl. lra.
  - assert (Hp : 0 <= snd sp) by (apply Hd; now left).
    assert (Hl : nonneg_dist d) by (intros x H; apply Hd; now right).
    specialize (IH Hl). simpl. destruct (f sp); rewrite ?mass_cons; lra.
Qed.

Lemma prob_ge_bounds (d : ScoreDist) (needed_score : Q) :
  nonneg_dist d -> 0 <= Calculator.prob_ge d needed_score <= mass d.
Proof.
  intro Hd. unfold Calculator.prob_ge. rewrite Qsum_map_sum_over.
  apply (filter_mass_bounds _ d Hd).
Qed.

(** ** Combinations *)

Lemma combinations_incl {A : Type} (pool : list A) (k : nat)
  (combo : list A) :
  In combo (combinations pool k) -> incl combo pool.
Proof.
  revert k combo. induction pool as [|x pool IH]; intros k combo H.
  - destruct k; simpl in H.
    + destruct H as [<-|[]]. intros y [].
    + destruct H.
  - destruct k; simpl in H.
    + destruct H as [<-|[]]. intros y [].
    + apply in_app_or in H. destruct H as [H|H].
      * apply in_map_iff in H. destruct H as [c [<- Hc]].
        intros y [<-|Hy]; [now left|]. right. exact (IH k c Hc y Hy).
      * intros y Hy. right. exact (IH (S k) combo H y Hy).
Qed.

(** There are [math.comb(len(pool), k)] combinations. *)
Lemma combinations_length {A : Type} (pool : list A) (k : nat) :
  List.length (combinations pool k) = comb (List.length pool) k.
Proof.
  revert k. induction pool as [|x pool IH]; intro k.
  - destruct k; reflexivity.
  - destruct k; [reflexivity|].
    cbn [combinations comb List.length].
    rewrite length_app, length_map, !IH. reflexivity.
Qed.

(** The divisor of the average is positive. *)
Lemma comb_pos (n k : nat) : (k <= n)%nat -> (0 < comb n k)%nat.
Proof.
  revert k. induction n as [|n IH]; intros k H.
  - assert (k = 0%nat) by lia. subst k. simpl. lia.
  - destruct k; simpl; [lia|].
    assert (Hk : (k <= n)%nat) by lia. specialize (IH k Hk). lia.
Qed.

(** A sum of terms between 0 and 1 lies between 0 and their number. *)
Lemma sum_over_bounds {A : Type} (g : A -> Q) (l : list A) :
  (forall x, In x l -> 0 <= g x <= 1) ->
  0 <= sum_over g l <= inject_Z (Z.of_nat (List.length l)).
Proof.
  induction l as [|x l IH]; intro H.
  - simpl. split; apply Qle_refl.
  - assert (Hx : 0 <= g x <= 1) by (apply H; now left).
    assert (Hl : forall y, In y l -> 0 <= g y <= 1)
      by (intros y Hy; apply H; now right).
    specialize (IH Hl). cbn [sum_over fold_right List.length].
    fold (sum_over g l).
    rewrite Nat2Z.inj_succ. unfold Z.succ. rewrite inject_Z_plus.
    change (inject_Z 1) with 1. lra.
Qed.

Lemma pool_of_incl (stats : StatTable) (existing : list StatKey.t) :
  incl (Calculator.pool_of stats existing) (dict_keys stats).
Proof.
  intros k Hk. unfold Calculator.pool_of in Hk.
  apply filter_In in Hk. exact (proj1 Hk).
Qed.

(** C10 (amended).  In exact arithmetic, under the catalog invariant that
    the probabilities of every stat's distribution are non-negative and sum
    to 1, prob_above_score returns a value in the closed interval
    [0, 1]. *)
Theorem prob_above_score_unit_interval (stats : StatTable)
  (profile : EchoProfile.t) (coef : EntryCoef.t) (threshold : Q) :
  stat_table_normalized stats ->
  0 <= Calculator.prob_above_score stats profile coef threshold <= 1.
Proof.
  intro Hn. unfold Calculator.prob_above_score.
  set (needed_score := threshold - Calculator.get_score profile coef).
  set (existing := Calculator.existing_sub_stats stats profile).
  set (k := (5 - Z.of_nat (List.length existing))%Z).
  set (pool := Calculator.pool_of stats existing).
  destruct (Qleb needed_score 0); [lra|].
  destruct (k <=? 0)%Z eqn:Ek.
  { destruct (Qgtb needed_score 0); lra. }
  destruct (Z.of_nat (List.length pool) <? k)%Z eqn:Ep; [lra|].
  apply Z.leb_gt in Ek. apply Z.ltb_ge in Ep.
  rewrite fold_left_add_sum_over.
  set (g := fun attrs_combo =>
              Calculator.prob_ge (Calculator.combo_dist stats coef attrs_combo)
                needed_score).
  assert (Hg : forall combo, In combo (combinations pool (Z.to_nat k)) ->
                             0 <= g combo <= 1).
  { intros combo Hc. subst g. cbv beta.
    destruct (combo_dist_mass stats coef combo Hn) as [Hm Hd].
    - intros x Hx. apply (pool_of_incl stats existing).
      exact (combinations_incl pool (Z.to_nat k) combo Hc x Hx).
    - pose proof (prob_ge_bounds _ needed_score Hd) as Hb. lra. }
  pose proof (sum_over_bounds g _ Hg) as Hs.
  rewrite combinations_length in Hs.
  assert (Hpos : (0 < comb (List.length pool) (Z.to_nat k))%nat)
    by (apply comb_pos; lia).
  set (n := comb (List.length pool) (Z.to_nat k)) in *.
  assert (Hq : 0 < inject_Z (Z.of_nat n)).
  { change 0 with (inject_Z 0). rewrite <- Zlt_Qlt. lia. }
  split.
  - apply Qle_shift_div_l; [exact Hq|]. lra.
  - apply Qle_shift_div_r; [exact Hq|]. lra.
Qed.

Lemma sample_stat_data_normalized : stat_table_normalized Sample.stat_data.
Proof.
  intros key stat H. unfold Sample.stat_data in H. simpl in H.
  repeat (destruct H as [H|H];
          [injection H as <- <-; split;
           [intros d Hd; simpl in Hd;
            repeat (destruct Hd as [<-|Hd]; [simpl; lra|]); destruct Hd
           |reflexivity]|]).
  destruct H.
Qed.

(** With two slots left and the weights of "Default", the probability of
    reaching 20 is 9/80. *)
Lemma prob_above_score_unit_interval_witness :
  stat_table_normalized Sample.stat_data /\
  0 <= Calculator.prob_above_score Sample.stat_data Sample.profile_level_15
         Sample.coef_default 20 <= 1 /\
  Calculator.prob_above_score Sample.stat_data Sample.profile_level_15
    Sample.coef_default 20 == 9 # 80.
Proof.
  split; [exact sample_stat_data_normalized|]. split.
  - apply prob_above_score_unit_interval. exact sample_stat_data_normalized.
  - vm_compute. reflexivity.
Defined.

(** ** The two expected scores *)

Lemma sum_over_perm {A : Type} (f : A -> Q) (l l' : list A) :
  Permutation l l' -> sum_over f l == sum_over f l'.
Proof.
  induction 1 as [|x l l' _ IH|x y l|l l' l'' _ IH1 _ IH2]; simpl.
  - reflexivity.
  - rewrite IH. reflexivity.
  - ring.
  - rewrite IH1. exact IH2.
Qed.

Lemma filter_perm {A : Type} (f : A -> bool) (l l' : list A) :
  Permutation l l' -> Permutation (filter f l) (filter f l').
Proof.
  induction 1 as [|x l l' _ IH|x y l|l l' l'' _ IH1 _ IH2]; simpl.
  - constructor.
  - destruct (f x); [now constructor|exact IH].
  - destruct (f x), (f y); try reflexivity. constructor.
  - now transitivity (filter f l').
Qed.

(** A complete stat catalog that is a dict lists the thirteen keys, each
    once. *)
Lemma dict_keys_perm (stats : StatTable) :
  is_dict stats -> stat_table_complete stats ->
  Permutation (dict_keys stats) field_keys.
Proof.
  intros Hd Hc. apply NoDup_Permutation.
  - exact Hd.
  - apply field_keys_nodup.
  - intro k. split; intro H; [apply field_keys_complete|apply Hc].
Qed.

Lemma sum_over_scale {A : Type} (c : Q) (f : A -> Q) (l : list A) :
  sum_over (fun k => c * f k) l == c * sum_over f l.
Proof.
  induction l as [|k l IH]; simpl.
  - ring.
  - rewrite IH. ring.
Qed.

(** A sum that takes one of two terms per key splits into the sum of the
    second terms and the sum of the first terms over the selected keys. *)
Lemma sum_over_split {A : Type} (b : A -> bool) (f g : A -> Q) (l : list A) :
  sum_over (fun k => if b k then f k else g k) l
  == sum_over (fun k => if b k then 0 else g k) l + sum_over f (filter b l).
Proof.
  induction l as [|k l IH]; simpl.
  - ring.
  - rewrite IH. destruct (b k); simpl; ring.
Qed.

Lemma key_in_filter (f : StatKey.t -> bool) (k : StatKey.t)
  (l : list StatKey.t) :
  key_in k (filter f l) = f k && key_in k l.
Proof.
  destruct (key_in k (filter f l)) eqn:E1.
  - apply key_in_In in E1. apply filter_In in E1. destruct E1 as [Hi Hf].
    apply key_in_In in Hi. now rewrite Hf, Hi.
  - apply key_in_not_In in E1. symmetry. apply andb_false_iff.
    destruct (f k) eqn:Hf; [right|now left].
    apply key_in_not_In. intro Hi. apply E1. apply filter_In. now split.
Qed.

Lemma key_in_field_keys (k : StatKey.t) : key_in k field_keys = true.
Proof. apply key_in_In. apply field_keys_complete. Qed.

(** The two ways the code averages a distribution agree. *)
Lemma expected_value_avg_val (dist : list DistItem.t) :
  EchoProfile.expected_value dist == Calculator.avg_val dist.
Proof.
  unfold EchoProfile.expected_value, Calculator.avg_val.
  rewrite (fold_left_add_sum_over
             (fun entry => DistItem.value entry * DistItem.probability entry)).
  rewrite Qsum_map_sum_over. ring.
Qed.

(** The first loop of EchoProfile.get_expected_score. *)
Lemma fill_expected_spec (stats : StatTable) (self : EchoProfile.t) :
  stat_table_complete stats ->
  forall (keys : list StatKey.t) (tmp_profile : EchoProfile.t)
         (possible_entries : list StatKey.t),
  exists filled,
    EchoProfile.fill_expected stats self tmp_profile possible_entries keys
    = Ok (filled,
          possible_entries
          ++ filter (fun key => Qeq_bool (EchoProfile.getattr self key) 0) keys)
    /\
    forall k,
      EchoProfile.getattr filled k
      = if key_in k keys && Qeq_bool (EchoProfile.getattr self k) 0
        then EchoProfile.expected_value
               (StatsManager.get_distribution stats k)
        else EchoProfile.getattr tmp_profile k.
Proof.
  intro Hc. induction keys as [|key keys IH]; intros tmp possible.
  - exists tmp. split; [simpl; now rewrite app_nil_r|]. intro k. reflexivity.
  - cbn [EchoProfile.fill_expected filter].
    destruct (Qeq_bool (EchoProfile.getattr self key) 0) eqn:Ez.
    + destruct (stat_get_some stats key (Hc key)) as [stat Hs].
      unfold dict_item. rewrite Hs. cbn [bind].
      destruct (IH (EchoProfile.setattr tmp key
                      (EchoProfile.expected_value
                         (StatEntry.distribution stat)))
                  (possible ++ [key])) as [filled [Hf Hg]].
      exists filled. split.
      * rewrite Hf, <- app_assoc. reflexivity.
      * intro k. rewrite Hg. unfold key_in. cbn [existsb].
        fold (key_in k keys).
        destruct (StatKey.eqb k key) eqn:Ek.
        -- apply StatKey_eqb_eq in Ek. subst k. rewrite Ez.
           cbn [orb andb]. rewrite getattr_setattr_same.
           unfold StatsManager.get_distribution, StatsManager.get_stat.
           rewrite Hs. destruct (key_in key keys); reflexivity.
        -- apply StatKey_eqb_neq in Ek. cbn [orb].
           rewrite getattr_setattr_other by congruence. reflexivity.
    + destruct (IH tmp possible) as [filled [Hf Hg]].
      exists filled. split; [exact Hf|].
      intro k. rewrite Hg. unfold key_in. cbn [existsb].
      fold (key_in k keys).
      destruct (StatKey.eqb k key) eqn:Ek; [|reflexivity].
      apply StatKey_eqb_eq in Ek. subst k. rewrite Ez.
      rewrite !andb_false_r. reflexivity.
Qed.

(** The second loop of EchoProfile.get_expected_score. *)
Lemma scale_loop_getattr (r n : Q) (possible_entries : list StatKey.t) :
  NoDup possible_entries ->
  forall (tmp_profile : EchoProfile.t) (k : StatKey.t),
    EchoProfile.getattr
      (fold_left
         (fun tmp_profile key =>
            EchoProfile.setattr tmp_profile key
              (EchoProfile.getattr tmp_profile key * r / n))
         possible_entries tmp_profile) k
    = if key_in k possible_entries
      then EchoProfile.getattr tmp_profile k * r / n
      else EchoProfile.getattr tmp_profile k.
Proof.
  induction 1 as [|key rest Hnotin _ IH]; intros tmp k.
  - reflexivity.
  - cbn [fold_left]. rewrite IH. unfold key_in. cbn [existsb].
    fold (key_in k rest).
    destruct (StatKey.eqb k key) eqn:Ek.
    + apply StatKey_eqb_eq in Ek. subst k.
      apply key_in_not_In in Hnotin. rewrite Hnotin.
      rewrite getattr_setattr_same. reflexivity.
    + apply StatKey_eqb_neq in Ek. cbn [orb].
      rewrite getattr_setattr_other by congruence. reflexivity.
Qed.

(** EchoProfile.get_expected_score in closed form: the score of the
    non-zero fields plus the averages of the zero fields, weighted and
    scaled by remaining slots over the number of zero fields. *)
Lemma EchoProfile_expected_closed (stats : StatTable) (self : EchoProfile.t)
  (coef : EntryCoef.t) :
  stat_table_complete stats ->
  exists e,
    EchoProfile.get_expected_score stats self coef = Ok e /\
    e == sum_over
           (fun k =>
              if Qeq_bool (EchoProfile.getattr self k) 0 then 0
              else EchoProfile.getattr self k * EntryCoef.getattr coef k)
           field_keys
         + inject_Z ((25 - EchoProfile.level self) / 5)
           / inject_Z (Z.of_nat (List.length (zero_keys self)))
           * sum_over
               (fun k =>
                  EchoProfile.expected_value
                    (StatsManager.get_distribution stats k)
                  * EntryCoef.getattr coef k)
               (zero_keys self).
Proof.
  intro Hc. unfold EchoProfile.get_expected_score.
  destruct (fill_expected_spec stats self Hc field_keys self [])
    as [filled [Hf Hg]].
  rewrite Hf. cbn [bind app]. fold (zero_keys self).
  eexists. split; [reflexivity|].
  set (r := inject_Z ((25 - EchoProfile.level self) / 5)).
  set (n := inject_Z (Z.of_nat (List.length (zero_keys self)))).
  rewrite EchoProfile_get_score_sum, weighted_sum_sum_over.
  rewrite <- sum_over_scale.
  rewrite <- (sum_over_split
                (fun k => Qeq_bool (EchoProfile.getattr self k) 0)
                (fun k =>
                   r / n
                   * (EchoProfile.expected_value
                        (StatsManager.get_distribution stats k)
                      * EntryCoef.getattr coef k))
                (fun k =>
                   EchoProfile.getattr self k * EntryCoef.getattr coef k)).
  apply sum_over_ext. intros k _.
  rewrite scale_loop_getattr.
  - unfold zero_keys. rewrite key_in_filter, Hg, key_in_field_keys.
    rewrite andb_true_r. cbn [andb].
    destruct (Qeq_bool (EchoProfile.getattr self k) 0).
    + unfold Qdiv. ring.
    + reflexivity.
  - unfold zero_keys. apply NoDup_filter. apply field_keys_nodup.
Qed.

Lemma existing_sub_stats_perm (stats : StatTable) (profile : EchoProfile.t) :
  is_dict stats -> stat_table_complete stats -> nonneg_fields profile ->
  Permutation (Calculator.existing_sub_stats stats profile)
              (EchoProfile.non_zero_keys profile).
Proof.
  intros Hd Hc Hn. rewrite <- positive_keys_non_zero by exact Hn.
  unfold Calculator.existing_sub_stats, positive_keys,
    StatsManager.get_all_keys.
  apply filter_perm. now apply dict_keys_perm.
Qed.

Lemma key_in_existing (stats : StatTable) (profile : EchoProfile.t)
  (k : StatKey.t) :
  is_dict stats -> stat_table_complete stats -> nonneg_fields profile ->
  key_in k (Calculator.existing_sub_stats stats profile)
  = Qneqb (EchoProfile.getattr profile k) 0.
Proof.
  intros Hd Hc Hn.
  pose proof (existing_sub_stats_perm stats profile Hd Hc Hn) as Hp.
  destruct (Qneqb (EchoProfile.getattr profile k) 0) eqn:E.
  - apply key_in_In. apply (Permutation_in k (Permutation_sym Hp)).
    apply filter_In. split; [apply field_keys_complete|exact E].
  - apply key_in_not_In. intro Hi.
    apply (Permutation_in k Hp) in Hi. apply filter_In in Hi.
    destruct Hi as [_ Hi]. congruence.
Qed.

Lemma pool_perm (stats : StatTable) (profile : EchoProfile.t) :
  is_dict stats -> stat_table_complete stats -> nonneg_fields profile ->
  Permutation
    (Calculator.pool_of stats (Calculator.existing_sub_stats stats profile))
    (zero_keys profile).
Proof.
  intros Hd Hc Hn. unfold Calculator.pool_of, zero_keys,
    StatsManager.get_all_keys.
  rewrite (filter_ext
             (fun key =>
                negb (key_in key
                        (Calculator.existing_sub_stats stats profile)))
             (fun key => Qeq_bool (EchoProfile.getattr profile key) 0)).
  - apply filter_perm. now apply dict_keys_perm.
  - intro k. rewrite key_in_existing by assumption.
    unfold Qneqb. apply negb_involutive.
Qed.

Lemma filter_negb_length {A : Type} (f : A -> bool) (l : list A) :
  (List.length (filter f l) + List.length (filter (fun x => negb (f x)) l)
   = List.length l)%nat.
Proof.
  induction l as [|x l IH]; simpl; [reflexivity|].
  destruct (f x); simpl; lia.
Qed.

Lemma zero_non_zero_length (profile : EchoProfile.t) :
  (List.length (zero_keys profile)
   + List.length (EchoProfile.non_zero_keys profile) = 13)%nat.
Proof.
  unfold zero_keys, EchoProfile.non_zero_keys, Qneqb.
  apply (filter_negb_length
           (fun key => Qeq_bool (EchoProfile.getattr profile key) 0)
           field_keys).
Qed.

(** The loop of Calculator.get_expected_score over the pool. *)
Lemma pool_expected_sum_spec (stats : StatTable) (coef : EntryCoef.t)
  (pool : list StatKey.t) :
  fold_left
    (fun acc key =>
       let weight := EntryCoef.getattr coef key in
       if Qeq_bool weight 0 then acc
       else
         acc + Calculator.avg_val (StatsManager.get_distribution stats key)
               * weight)
    pool 0
  == sum_over
       (fun k =>
          EchoProfile.expected_value (StatsManager.get_distribution stats k)
          * EntryCoef.getattr coef k)
       pool.
Proof.
  cbv zeta.
  assert (G : forall acc,
             fold_left
               (fun acc key =>
                  if Qeq_bool (EntryCoef.getattr coef key) 0 then acc
                  else
                    acc + Calculator.avg_val
                            (StatsManager.get_distribution stats key)
                          * EntryCoef.getattr coef key)
               pool acc
             == acc
                + sum_over
                    (fun k =>
                       EchoProfile.expected_value
                         (StatsManager.get_distribution stats k)
                       * EntryCoef.getattr coef k)
                    pool).
  { induction pool as [|key pool IH]; intro acc; simpl.
    - ring.
    - rewrite IH, expected_value_avg_val.
      destruct (Qeq_bool (EntryCoef.getattr coef key) 0) eqn:E.
      + apply Qeq_bool_iff in E. rewrite E. ring.
      + ring. }
  rewrite G. ring.
Qed.

(** With no negative weight, the calculator's current score is the score
    of the non-zero fields. *)
Lemma Calculator_get_score_non_zero (profile : EchoProfile.t)
  (coef : EntryCoef.t) :
  nonneg_weights coef ->
  Calculator.get_score profile coef
  == sum_over
       (fun k =>
          if Qeq_bool (EchoProfile.getattr profile k) 0 then 0
          else EchoProfile.getattr profile k * EntryCoef.getattr coef k)
       field_keys.
Proof.
  intro Hw. rewrite Calculator_get_score_sum by exact Hw.
  rewrite weighted_sum_sum_over. apply sum_over_ext. intros k _.
  destruct (Qeq_bool (EchoProfile.getattr profile k) 0) eqn:E.
  - apply Qeq_bool_iff in E. rewrite E. ring.
  - reflexivity.
Qed.

(** Calculator.get_expected_score by cases. *)
Lemma Calculator_expected_cases (stats : StatTable) (profile : EchoProfile.t)
  (coef : EntryCoef.t) :
  let existing := Calculator.existing_sub_stats stats profile in
  let k := (5 - Z.of_nat (List.length existing))%Z in
  let pool := Calculator.pool_of stats existing in
  ((k <= 0)%Z ->
   Calculator.get_expected_score stats profile coef
   = Ok (Calculator.get_score profile coef)) /\
  ((0 < k)%Z -> pool = [] ->
   Calculator.get_expected_score stats profile coef
   = Raise ZeroDivisionError) /\
  ((0 < k)%Z -> pool <> [] ->
   exists e,
     Calculator.get_expected_score stats profile coef = Ok e /\
     e == Calculator.get_score profile coef
          + sum_over
              (fun key =>
                 EchoProfile.expected_value
                   (StatsManager.get_distribution stats key)
                 * EntryCoef.getattr coef key)
              pool
            / inject_Z (Z.of_nat (List.length pool)) * inject_Z k).
Proof.
  intros existing k pool. unfold Calculator.get_expected_score.
  fold existing. fold k. fold pool.
  split; [|split].
  - intro H. apply Z.leb_le in H. rewrite H. reflexivity.
  - intros H Hp. apply Z.leb_gt in H. rewrite H, Hp. reflexivity.
  - intros H Hp. apply Z.leb_gt in H. rewrite H.
    destruct pool as [|key pool'] eqn:Ep; [congruence|].
    eexists. split; [reflexivity|].
    rewrite (pool_expected_sum_spec stats coef (key :: pool')).
    reflexivity.
Qed.

(** C4 (amended).  Over a stat catalog that is a dict naming the thirteen
    keys, for every profile that satisfies the slot-count invariant and has
    no negative field and every coefficient profile without negative
    weight, both expected-score operations return, and they return the same
    rational number. *)
Theorem expected_scores_agree (stats : StatTable) (profile : EchoProfile.t)
  (coef : EntryCoef.t) :
  is_dict stats -> stat_table_complete stats ->
  slot_count_invariant profile ->
  nonneg_fields profile -> nonneg_weights coef ->
  exists e1 e2,
    EchoProfile.get_expected_score stats profile coef = Ok e1 /\
    Calculator.get_expected_score stats profile coef = Ok e2 /\
    e1 == e2.
Proof.
  intros Hd Hc [Hlevel Hcount] Hn Hw.
  destruct (EchoProfile_expected_closed stats profile coef Hc)
    as [e1 [H1 He1]].
  exists e1.
  pose proof (Permutation_length
                (existing_sub_stats_perm stats profile Hd Hc Hn)) as Hlen.
  pose proof (pool_perm stats profile Hd Hc Hn) as Hpool.
  pose proof (Permutation_length Hpool) as Hplen.
  pose proof (zero_non_zero_length profile) as Hsplit.
  assert (Hr : ((25 - EchoProfile.level profile) / 5
                = 5 - EchoProfile.level profile / 5)%Z).
  { simpl in Hlevel.
    destruct Hlevel as [H|[H|[H|[H|[H|[H|[]]]]]]]; rewrite <- H;
      reflexivity. }
  assert (Hrange : (0 <= EchoProfile.level profile / 5 <= 5)%Z).
  { simpl in Hlevel.
    destruct Hlevel as [H|[H|[H|[H|[H|[H|[]]]]]]]; rewrite <- H;
      vm_compute; split; discriminate. }
  destruct (Calculator_expected_cases stats profile coef)
    as [Hle [_ Hgt]].
  rewrite Hlen, Hcount in Hle, Hgt.
  rewrite Hr in He1.
  pose proof (Calculator_get_score_non_zero profile coef Hw) as Hcur.
  destruct (Z_le_gt_dec (5 - EchoProfile.level profile / 5) 0) as [Hk|Hk].
  - exists (Calculator.get_score profile coef).
    split; [exact H1|]. split; [now apply Hle|].
    assert (Hz : (5 - EchoProfile.level profile / 5 = 0)%Z) by lia.
    rewrite He1, Hz, Hcur. unfold Qdiv. change (inject_Z 0) with 0. ring.
  - destruct Hgt as [e2 [H2 He2]]; [lia| |].
    + intro Hnil. rewrite Hnil in Hplen. simpl in Hplen. lia.
    + exists e2. split; [exact H1|]. split; [exact H2|].
      rewrite He1, He2, Hcur, Hplen.
      rewrite (sum_over_perm _ _ _ Hpool).
      unfold Qdiv. ring.
Qed.

Lemma sample_stat_data_is_dict : is_dict Sample.stat_data.
Proof.
  unfold is_dict, dict_keys, Sample.stat_data. simpl.
  repeat (constructor; [simpl; intuition congruence|]). constructor.
Qed.

Lemma profile_atk_invariant : slot_count_invariant Cex.profile_atk.
Proof. split; [simpl; tauto|reflexivity]. Qed.

Lemma profile_atk_nonneg : nonneg_fields Cex.profile_atk.
Proof. intro k. destruct k; simpl; lra. Qed.

Lemma coef_cri_rate_2_nonneg : nonneg_weights Sample.coef_cri_rate_2.
Proof. intro k. destruct k; simpl; lra. Qed.

Lemma expected_scores_agree_witness :
  slot_count_invariant Cex.profile_atk /\
  exists e1 e2,
    EchoProfile.get_expected_score Sample.stat_data Cex.profile_atk
      Sample.coef_cri_rate_2 = Ok e1 /\
    Calculator.get_expected_score Sample.stat_data Cex.profile_atk
      Sample.coef_cri_rate_2 = Ok e2 /\
    e1 == e2.
Proof.
  split; [exact profile_atk_invariant|].
  exact (expected_scores_agree Sample.stat_data Cex.profile_atk
           Sample.coef_cri_rate_2 sample_stat_data_is_dict
           sample_stat_data_complete profile_atk_invariant
           profile_atk_nonneg coef_cri_rate_2_nonneg).
Defined.

Lemma coef_default_init :
  EntryCoef.init Sample.coef_data (Some "Default"%string)
  = Ok Sample.coef_default.
Proof. reflexivity. Qed.

Lemma coef_default_nonneg : nonneg_weights Sample.coef_default.
Proof. intro k. destruct k; simpl; lra. Qed.

Section Binary64Facts.

Import PrimFloat.

(** C4 as stated fails.  The level-5 profile with atk_rate = 6.4 satisfies
    the slot-count invariant.  With the weight -1 for atk_rate the
    profile's projection is -6.4 while the calculator's is 0.  With the
    coefficient profile of "Default", whose weights are not negative, the
    two results in binary64 arithmetic are 18.033333333333335 and
    18.033333333333331. *)
Lemma expected_scores_differ :
  slot_count_invariant Cex.profile_atk /\
  (exists e1 e2,
     EchoProfile.get_expected_score Sample.stat_data Cex.profile_atk
       Cex.coef_negative = Ok e1 /\
     Calculator.get_expected_score Sample.stat_data Cex.profile_atk
       Cex.coef_negative = Ok e2 /\
     e1 == -6.4 /\ e2 == 0 /\ ~ e1 == e2) /\
  (EchoProfileF.get_expected_score Sample.stat_data Cex.profile_atk
     Sample.coef_default = Ok 0x1.2088888888889p+4%float /\
   CalculatorF.get_expected_score Sample.stat_data Cex.profile_atk
     Sample.coef_default = Ok 0x1.2088888888888p+4%float /\
   PrimFloat.eqb 0x1.2088888888889p+4 0x1.2088888888888p+4 = false).
Proof.
  split; [exact profile_atk_invariant|]. split.
  - eexists. eexists. split; [reflexivity|]. split; [reflexivity|].
    split; [reflexivity|]. split; [reflexivity|].
    intro H. vm_compute in H. discriminate H.
  - split; [vm_compute; reflexivity|].
    split; [vm_compute; reflexivity|]. reflexivity.
Qed.

Lemma stat_data_skewed_normalized : stat_table_normalized Cex.stat_data_skewed.
Proof.
  intros key stat H. unfold Cex.stat_data_skewed, Sample.stat_data in H.
  cbn [map fst snd] in H.
  repeat (destruct H as [H|H];
          [injection H as <- <-; split;
           [intros d Hd; cbn in Hd;
            repeat (destruct Hd as [<-|Hd]; [cbn; lra|]); destruct Hd
           |reflexivity]|]).
  destruct H.
Qed.

(** C10 as stated fails.  In the catalog every stat rolls 1 with
    probability 0.81 and 2 with probability 0.19, so the catalog invariant
    holds; the profile has three stats at 1 and every weight is 1.  For
    the threshold 3.5 the result in exact arithmetic is 1, and the result
    of the same loops in binary64 arithmetic is 1.0000000000000002: the
    products 0.81 * 0.81, 0.81 * 0.19 and 0.19 * 0.19 are rounded, and the
    mass of the distribution of two stats is already above 1.  Every stat
    having the same distribution and weight, the order of the pool does
    not matter. *)
Lemma prob_above_score_binary64_above_one :
  stat_table_normalized Cex.stat_data_skewed /\
  Calculator.prob_above_score Cex.stat_data_skewed Cex.profile_ones
    Cex.coef_ones 3.5 == 1 /\
  CalculatorF.prob_above_score Cex.stat_data_skewed Cex.profile_ones
    Cex.coef_ones 3.5 = 0x1.0000000000001p+0%float /\
  PrimFloat.ltb 1 0x1.0000000000001p+0 = true.
Proof.
  split; [exact stat_data_skewed_normalized|].
  split; [vm_compute; reflexivity|].
  split; [vm_compute; reflexivity|]. reflexivity.
Qed.

(** The instance of the specification in binary64 arithmetic: both scoring
    operations return the float 12.6. *)
Lemma score_example_binary64 :
  CalculatorF.get_score Sample.profile_cri_rate Sample.coef_cri_rate_2
  = Binary64.of_Q 12.6 /\
  EchoProfileF.get_score (Binary64.profile_fields Sample.profile_cri_rate)
    (Binary64.coef_fields Sample.coef_cri_rate_2)
  = Binary64.of_Q 12.6.
Proof. split; vm_compute; reflexivity. Qed.

End Binary64Facts.

(** ** from_image as it stands *)

Lemma match_name_fields (echo_data : list string)
  (name_search : string -> string -> bool) (self : EchoProfile.t)
  (line : string) :
  EchoProfile.level (EchoProfile.match_name echo_data name_search self line)
  = EchoProfile.level self /\
  forall k,
    EchoProfile.getattr
      (EchoProfile.match_name echo_data name_search self line) k
    = EchoProfile.getattr self k.
Proof.
  unfold EchoProfile.match_name.
  set (step := fun (st : string * EchoProfile.t) (name : string) =>
                 let '(matched_longest_name, self) := st in
                 if name_search name line then
                   if (py_len matched_longest_name <? py_len name)%nat
                   then (name, EchoProfile.set_name self name)
                   else st
                 else st).
  assert (G : forall names st,
             EchoProfile.level (snd (fold_left step names st))
             = EchoProfile.level (snd st) /\
             forall k,
               EchoProfile.getattr (snd (fold_left step names st)) k
               = EchoProfile.getattr (snd st) k).
  { induction names as [|name names IH]; intros [m p]; cbn [fold_left].
    - split; reflexivity.
    - destruct (IH (step (m, p) name)) as [Hl Hg].
      assert (Hs : EchoProfile.level (snd (step (m, p) name))
                   = EchoProfile.level p /\
                   forall k,
                     EchoProfile.getattr (snd (step (m, p) name)) k
                     = EchoProfile.getattr p k).
      { unfold step. destruct (name_search name line); [|now split].
        destruct (py_len m <? py_len name)%nat; [|now split].
        destruct p; split; [reflexivity|]. intro k. destruct k; reflexivity. }
      destruct Hs as [Hsl Hsg]. split.
      + now rewrite Hl.
      + intro k. now rewrite Hg. }
  exact (G echo_data (EmptyString, self)).
Qed.

(** The text read by from_image is the constant empty text: its only line
    reaches no stat, so from_image returns, and the level and every stat
    field stay as they are. *)
Lemma from_image_fields (stat_data : StatTable) (echo_data : list string)
  (name_search : string -> string -> bool) (self : EchoProfile.object) :
  exists result,
    EchoProfile.from_image stat_data echo_data name_search self = Ok result /\
    EchoProfile.level (EchoProfile.numbers result)
    = EchoProfile.level (EchoProfile.numbers self) /\
    forall k, EchoProfile.field result k = EchoProfile.field self k.
Proof.
  unfold EchoProfile.from_image, EchoProfile.from_text.
  cbn [split_lines EchoProfile.parse_lines].
  change (strip "") with EmptyString.
  change (contains EchoProfile.skill_marker "") with false.
  change (contains "+" "") with false. cbv iota.
  destruct (String.eqb (EchoProfile.name (EchoProfile.numbers self)) ""
            && (EchoProfile.level (EchoProfile.numbers self) =? 0)%Z).
  - eexists. split; [reflexivity|]. cbn [EchoProfile.numbers].
    destruct (match_name_fields echo_data name_search
                (EchoProfile.numbers self) "") as [Hl Hg].
    split; [exact Hl|]. intro k. unfold EchoProfile.field.
    cbn [EchoProfile.numbers EchoProfile.infinite]. now rewrite Hg.
  - change (0 <? 0)%Z with false. cbv iota.
    unfold EchoProfile.assign_entry. rewrite _extract_entry_empty.
    eexists. split; [reflexivity|]. now split.
Qed.

(** * Further properties of the code *)

(** ** The calculator on a profile with no slot left *)

(** X1.  Over a stat catalog that names the thirteen keys, a profile with at
    least five positive stat fields has no slot left: the greatest
    possible score and the expected score are both the current score. *)
Theorem calculator_no_slot_left (stats : StatTable) (profile : EchoProfile.t)
  (coef : EntryCoef.t) :
  stat_table_complete stats ->
  (5 <= List.length (positive_keys profile))%nat ->
  Calculator.get_max_possible_score stats profile coef
  = Calculator.get_score profile coef /\
  Calculator.get_expected_score stats profile coef
  = Ok (Calculator.get_score profile coef).
Proof.
  intros Hc H5.
  pose proof (existing_sub_stats_length stats profile Hc) as Hl.
  assert (K : (5 - Z.of_nat
                     (List.length (Calculator.existing_sub_stats stats profile))
               <=? 0)%Z = true) by (apply Z.leb_le; lia).
  unfold Calculator.get_max_possible_score, Calculator.get_expected_score.
  rewrite K. split; reflexivity.
Qed.

Lemma calculator_no_slot_left_witness :
  Calculator.get_max_possible_score Sample.stat_data Cex.profile_full
    Sample.coef_default
  = Calculator.get_score Cex.profile_full Sample.coef_default /\
  Calculator.get_expected_score Sample.stat_data Cex.profile_full
    Sample.coef_default
  = Ok (Calculator.get_score Cex.profile_full Sample.coef_default).
Proof.
  apply calculator_no_slot_left.
  - exact sample_stat_data_complete.
  - vm_compute. apply le_n.
Defined.

(** ** When the expected score divides by zero *)

Lemma filter_nil_iff {A : Type} (f : A -> bool) (l : list A) :
  filter f l = [] <-> forall x, In x l -> f x = false.
Proof.
  induction l as [|x l IH]; simpl.
  - split; [intros _ y []|reflexivity].
  - destruct (f x) eqn:E; split.
    + discriminate.
    + intro H. specialize (H x (or_introl eq_refl)). congruence.
    + intros H y [<-|Hy]; [exact E|]. now apply (proj1 IH).
    + intro H. apply IH. intros y Hy. apply H. now right.
Qed.

Lemma filter_all {A : Type} (f : A -> bool) (l : list A) :
  (forall x, In x l -> f x = true) -> filter f l = l.
Proof.
  induction l as [|x l IH]; simpl; intro H; [reflexivity|].
  rewrite (H x (or_introl eq_refl)). f_equal. apply IH.
  intros y Hy. apply H. now right.
Qed.

(** A catalog key is an existing sub-stat exactly when its field is
    positive. *)
Lemma key_in_existing_sub_stats (stats : StatTable) (profile : EchoProfile.t)
  (key : StatKey.t) :
  In key (dict_keys stats) ->
  key_in key (Calculator.existing_sub_stats stats profile)
  = Qgtb (EchoProfile.getattr profile key) 0.
Proof.
  intro Hk. unfold Calculator.existing_sub_stats, StatsManager.get_all_keys.
  destruct (Qgtb (EchoProfile.getattr profile key) 0) eqn:E.
  - apply key_in_In. apply filter_In. now split.
  - apply key_in_not_In. intro H. apply filter_In in H.
    destruct H as [_ H]. congruence.
Qed.

(** Calculator.get_expected_score raises nothing but ZeroDivisionError. *)
Lemma Calculator_expected_raise_only (stats : StatTable)
  (profile : EchoProfile.t) (coef : EntryCoef.t) (e : exn) :
  Calculator.get_expected_score stats profile coef = Raise e ->
  e = ZeroDivisionError.
Proof.
  intro He.
  destruct (Calculator_expected_cases stats profile coef)
    as [Hle [Hnil Hcons]].
  destruct (Z_le_gt_dec
              (5 - Z.of_nat
                     (List.length
                        (Calculator.existing_sub_stats stats profile))) 0)
    as [Hk|Hk].
  - rewrite (Hle Hk) in He. discriminate.
  - destruct (Calculator.pool_of stats
                (Calculator.existing_sub_stats stats profile)) eqn:Ep.
    + rewrite Hnil in He by (trivial; lia). now injection He as <-.
    + destruct Hcons as [e' [He' _]]; [lia|discriminate|].
      rewrite He' in He. discriminate.
Qed.

Lemma Calculator_expected_raise_iff (stats : StatTable)
  (profile : EchoProfile.t) (coef : EntryCoef.t) :
  Calculator.get_expected_score stats profile coef = Raise ZeroDivisionError
  <->
  (List.length stats < 5)%nat /\
  forall key, In key (dict_keys stats) ->
              0 < EchoProfile.getattr profile key.
Proof.
  destruct (Calculator_expected_cases stats profile coef)
    as [Hle [Hnil Hcons]].
  set (existing := Calculator.existing_sub_stats stats profile) in *.
  set (pool := Calculator.pool_of stats existing) in *.
  assert (Hpool : pool = [] <->
                  forall key, In key (dict_keys stats) ->
                              0 < EchoProfile.getattr profile key).
  { unfold pool, Calculator.pool_of, StatsManager.get_all_keys.
    rewrite filter_nil_iff. split; intros H key Hk.
    - specialize (H key Hk). apply negb_false_iff in H.
      unfold existing in H.
      rewrite key_in_existing_sub_stats in H by exact Hk.
      now apply Qgtb_gt.
    - apply negb_false_iff. unfold existing.
      rewrite key_in_existing_sub_stats by exact Hk.
      apply Qgtb_gt. now apply H. }
  assert (Hall : (forall key, In key (dict_keys stats) ->
                              0 < EchoProfile.getattr profile key) ->
                 List.length existing = List.length stats).
  { intro H. unfold existing, Calculator.existing_sub_stats,
      StatsManager.get_all_keys.
    rewrite filter_all.
    - unfold dict_keys. apply length_map.
    - intros key Hk. apply Qgtb_gt. now apply H. }
  split.
  - intro Hr.
    destruct (Z_le_gt_dec (5 - Z.of_nat (List.length existing)) 0) as [Hk|Hk].
    + rewrite (Hle Hk) in Hr. discriminate.
    + destruct pool as [|key pool'] eqn:Ep.
      * assert (Ha := proj1 Hpool eq_refl).
        split; [|exact Ha]. rewrite <- (Hall Ha). lia.
      * destruct Hcons as [e [He _]]; [lia|discriminate|].
        rewrite He in Hr. discriminate.
  - intros [Hlen Ha]. apply Hnil.
    + rewrite (Hall Ha). lia.
    + now apply Hpool.
Qed.

(** Over a catalog that names the thirteen keys the calculator's expected
    score is always returned. *)
Lemma Calculator_expected_returns (stats : StatTable)
  (profile : EchoProfile.t) (coef : EntryCoef.t) :
  stat_table_complete stats ->
  returns (Calculator.get_expected_score stats profile coef).
Proof.
  intro Hc.
  assert (D : returns (Calculator.get_expected_score stats profile coef) \/
              exists e,
                Calculator.get_expected_score stats profile coef = Raise e).
  { destruct (Calculator.get_expected_score stats profile coef) as [a|e].
    - left. now exists a.
    - right. now exists e. }
  destruct D as [D|[e He]]; [exact D|]. exfalso.
  pose proof (Calculator_expected_raise_only stats profile coef e He) as ->.
  apply Calculator_expected_raise_iff in He. destruct He as [Hlen _].
  assert (Hl : (List.length field_keys <= List.length (dict_keys stats))%nat).
  { apply NoDup_incl_length; [apply field_keys_nodup|].
    intros k _. apply Hc. }
  unfold dict_keys in Hl. rewrite length_map in Hl. simpl in Hl. lia.
Qed.

(** X2.  Calculator.get_expected_score raises ZeroDivisionError exactly
    when the stat catalog has fewer than five items and the field of every
    catalog key is positive; it raises nothing else.  So it raises for
    every profile over the empty catalog, and never over a catalog that
    names the thirteen keys. *)
Theorem calculator_expected_score_raises (stats : StatTable)
  (profile : EchoProfile.t) (coef : EntryCoef.t) :
  (Calculator.get_expected_score stats profile coef = Raise ZeroDivisionError
   <->
   (List.length stats < 5)%nat /\
   forall key, In key (dict_keys stats) ->
               0 < EchoProfile.getattr profile key) /\
  (forall e, Calculator.get_expected_score stats profile coef = Raise e ->
             e = ZeroDivisionError) /\
  Calculator.get_expected_score [] profile coef = Raise ZeroDivisionError /\
  (stat_table_complete stats ->
   returns (Calculator.get_expected_score stats profile coef)).
Proof.
  split; [apply Calculator_expected_raise_iff|].
  split; [intro e; apply Calculator_expected_raise_only|].
  split; [reflexivity|apply Calculator_expected_returns].
Qed.

Lemma calculator_expected_score_raises_witness :
  returns (Calculator.get_expected_score Sample.stat_data Cex.profile_atk
             Sample.coef_default).
Proof.
  exact (proj2 (proj2 (proj2 (calculator_expected_score_raises
                                Sample.stat_data Cex.profile_atk
                                Sample.coef_default)))
           sample_stat_data_complete).
Defined.

(** ** The greatest possible score *)

Lemma Qmax_list_ge_acc (xs : list Q) (x : Q) : x <= Qmax_list x xs.
Proof.
  unfold Qmax_list. revert x. induction xs as [|v xs IH]; intro x; simpl.
  - apply Qle_refl.
  - destruct (Qltb x v) eqn:E.
    + apply Qltb_lt in E. apply Qle_trans with v; [lra|apply IH].
    + apply IH.
Qed.

Lemma Qmax_list_ge_in (xs : list Q) (x v : Q) :
  In v xs -> v <= Qmax_list x xs.
Proof.
  unfold Qmax_list. revert x. induction xs as [|w xs IH]; intros x Hin.
  - destruct Hin.
  - simpl. destruct Hin as [<-|Hin].
    + destruct (Qltb x w) eqn:E.
      * apply (Qmax_list_ge_acc xs w).
      * apply Qltb_ge in E.
        apply Qle_trans with x; [exact E|apply (Qmax_list_ge_acc xs x)].
    + now apply IH.
Qed.

Lemma insert_desc_perm (x : Q) (xs : list Q) :
  Permutation (insert_desc x xs) (x :: xs).
Proof.
  induction xs as [|y ys IH]; simpl.
  - reflexivity.
  - destruct (Qleb y x).
    + reflexivity.
    + rewrite IH. apply perm_swap.
Qed.

(** Sorting keeps the items. *)
Lemma sort_desc_perm (xs : list Q) : Permutation (sort_desc xs) xs.
Proof.
  unfold sort_desc. induction xs as [|x xs IH]; simpl.
  - reflexivity.
  - rewrite insert_desc_perm. now constructor.
Qed.

Lemma Qsum_nonneg (xs : list Q) :
  (forall x, In x xs -> 0 <= x) -> 0 <= Qsum xs.
Proof.
  induction xs as [|x xs IH]; intro H.
  - unfold Qsum. simpl. lra.
  - rewrite Qsum_cons.
    assert (0 <= x) by (apply H; now left).
    assert (0 <= Qsum xs) by (apply IH; intros y Hy; apply H; now right).
    lra.
Qed.

Lemma firstn_In {A : Type} (n : nat) (l : list A) (x : A) :
  In x (firstn n l) -> In x l.
Proof.
  revert l. induction n as [|n IH]; intros l H; simpl in H.
  - destruct H.
  - destruct l as [|y l]; [destruct H|].
    destruct H as [<-|H]; [now left|right; now apply IH].
Qed.

(** The effective entry of a catalog key is an item of the catalog. *)
Lemma get_distribution_In (stats : StatTable) (key : StatKey.t)
  (item : DistItem.t) :
  In item (StatsManager.get_distribution stats key) ->
  exists stat, In (key, stat) stats /\ In item (StatEntry.distribution stat).
Proof.
  unfold StatsManager.get_distribution, StatsManager.get_stat.
  destruct (dict_get StatKey.eqb stats key) as [stat|] eqn:E; intro H.
  - exists stat. split; [now apply dict_get_In|exact H].
  - destruct H.
Qed.

(** Every term that can be added for a free slot is non-negative. *)
Lemma available_stats_nonneg (stats : StatTable) (existing : list StatKey.t)
  (coef : EntryCoef.t) (x : Q) :
  nonneg_values stats -> nonneg_weights coef ->
  In x (Calculator.available_stats stats existing coef) -> 0 <= x.
Proof.
  intros Hv Hw Hx. unfold Calculator.available_stats in Hx.
  apply in_flat_map in Hx. destruct Hx as [key [_ Hx]].
  destruct (negb (key_in key existing)); [|destruct Hx].
  destruct (StatsManager.get_distribution stats key) as [|d dist] eqn:Ed;
    [destruct Hx|].
  destruct Hx as [<-|[]].
  apply Qmult_le_0_compat; [|apply Hw].
  apply Qle_trans with (DistItem.value d); [|apply Qmax_list_ge_acc].
  destruct (get_distribution_In stats key d) as [stat [Hs Hd]].
  - rewrite Ed. now left.
  - exact (Hv key stat d Hs Hd).
Qed.

(** X3.  When no weight and no catalog value is negative, the greatest
    possible score is at least the current score. *)
Theorem max_possible_score_ge_score (stats : StatTable)
  (profile : EchoProfile.t) (coef : EntryCoef.t) :
  nonneg_values stats -> nonneg_weights coef ->
  Calculator.get_score profile coef
  <= Calculator.get_max_possible_score stats profile coef.
Proof.
  intros Hv Hw. unfold Calculator.get_max_possible_score.
  destruct (5 - Z.of_nat
                  (List.length (Calculator.existing_sub_stats stats profile))
            <=? 0)%Z; [apply Qle_refl|].
  match goal with
  | |- _ <= _ + Qsum ?l => assert (H : 0 <= Qsum l)
  end.
  { apply Qsum_nonneg. intros x Hx. apply firstn_In in Hx.
    apply (Permutation_in x (sort_desc_perm _)) in Hx.
    exact (available_stats_nonneg stats _ coef x Hv Hw Hx). }
  lra.
Qed.

Lemma sample_stat_data_nonneg_values : nonneg_values Sample.stat_data.
Proof.
  intros key stat item H Hi. unfold Sample.stat_data in H. simpl in H.
  repeat (destruct H as [H|H];
          [injection H as <- <-; simpl in Hi;
           repeat (destruct Hi as [<-|Hi]; [simpl; lra|]); destruct Hi|]).
  destruct H.
Qed.

Lemma max_possible_score_ge_score_witness :
  Calculator.get_score Cex.profile_atk Sample.coef_default
  <= Calculator.get_max_possible_score Sample.stat_data Cex.profile_atk
       Sample.coef_default.
Proof.
  apply max_possible_score_ge_score.
  - exact sample_stat_data_nonneg_values.
  - exact coef_default_nonneg.
Defined.

(** ** Reading a number from a line *)

Lemma from_first_digit_spec (s : list N) :
  if existsb is_digit s
  then exists c rest, from_first_digit s = c :: rest /\ is_digit c = true
  else from_first_digit s = [].
Proof.
  induction s as [|c s IH]; cbn [existsb from_first_digit]; [reflexivity|].
  destruct (is_digit c) eqn:E; cbn [orb].
  - now exists c, s.
  - exact IH.
Qed.

Lemma digit_val_nonneg (c : N) : (0 <= digit_val c)%Z.
Proof.
  unfold digit_val, decimal.
  destruct (find _ decimal_zeros); [apply N2Z.is_nonneg|apply Z.le_refl].
Qed.

Lemma read_digits_nonneg (s : list N) (acc : Z) (n : nat) :
  (0 <= acc)%Z -> (0 <= fst (fst (read_digits acc n s)))%Z.
Proof.
  revert acc n. induction s as [|c s IH]; intros acc n H;
    cbn [read_digits]; [exact H|].
  destruct (is_digit c); [|exact H].
  apply IH. pose proof (digit_val_nonneg c). lia.
Qed.

Lemma inject_Z_nonneg (z : Z) : (0 <= z)%Z -> 0 <= inject_Z z.
Proof. intro H. change 0 with (inject_Z 0). now rewrite <- Zle_Qle. Qed.

Lemma float_of_finite (q number : Q) :
  float_of q = Finite number -> number = q.
Proof.
  unfold float_of. destruct (Qltb q overflow_bound); [|discriminate].
  intro H. now injection H as <-.
Qed.

Lemma extract_number_nonneg (line : string) (number : Q) :
  _extract_number line = Some (Finite number) -> 0 <= number.
Proof.
  unfold _extract_number.
  pose proof (from_first_digit_spec (code_points line)) as Hs.
  destruct (existsb is_digit (code_points line));
    [|rewrite Hs; discriminate].
  destruct Hs as [c [rest [Hf Hc]]]. rewrite Hf.
  pose proof (read_digits_nonneg (c :: rest) 0 0 (Z.le_refl 0)) as Hn.
  destruct (read_digits 0 0 (c :: rest)) as [[int_part n] tail].
  cbn [fst] in Hn. pose proof (inject_Z_nonneg int_part Hn) as Hq.
  assert (Hi : Some (float_of (inject_Z int_part)) = Some (Finite number) ->
               0 <= number).
  { intro H. injection H as H. apply float_of_finite in H. now subst. }
  destruct tail as [|d tail]; [exact Hi|].
  destruct (N.eq_dec d 0x2E) as [->|Hd].
  - destruct tail as [|c' tail']; [exact Hi|].
    destruct (is_digit c'); [|exact Hi].
    intro H. injection H as H. apply float_of_finite in H. subst number.
    pose proof (inject_Z_nonneg _ (digit_val_nonneg c')) as Hd.
    assert (0 <= inject_Z (digit_val c') / 10).
    { apply Qle_shift_div_l; lra. }
    lra.
  - intro H. apply Hi.
    destruct d as [|p]; [exact H|].
    do 6 (destruct p as [p|p|]; try exact H).
    exfalso. apply Hd. reflexivity.
Qed.

(** X6.  _extract_number returns nothing exactly when the line holds no
    decimal digit, of any script; and a number it returns is never
    negative. *)
Theorem extract_number_digits (line : string) :
  (_extract_number line = None <-> has_digit line = false) /\
  (forall number, _extract_number line = Some (Finite number) -> 0 <= number).
Proof.
  split; [|exact (extract_number_nonneg line)].
  unfold _extract_number, has_digit.
  pose proof (from_first_digit_spec (code_points line)) as Hs.
  destruct (existsb is_digit (code_points line)).
  - destruct Hs as [c [rest [Hf Hc]]]. rewrite Hf.
    destruct (read_digits 0 0 (c :: rest)) as [[int_part n] tail].
    split; intro H; [|discriminate].
    destruct tail as [|d tail]; [discriminate|].
    destruct d as [|p]; [discriminate|].
    do 6 (destruct p as [p|p|]; try discriminate).
    destruct tail as [|c' tail']; [discriminate|].
    destruct (is_digit c'); discriminate.
  - rewrite Hs. split; reflexivity.
Qed.

Lemma extract_number_digits_witness :
  has_digit "攻击 ６.３%" = true /\
  _extract_number "攻击 ６.３%" = Some (Finite 6.3) /\
  0 <= 6.3.
Proof.
  split; [reflexivity|]. split; [reflexivity|].
  apply (proj2 (extract_number_digits "攻击 ６.３%")). reflexivity.
Defined.

(** ** What the line loop of from_image keeps *)








(** X8.  The line loop of from_image stops at the first line that holds
    the skill-section marker: that line and every line after it change
    nothing. *)
Theorem parse_lines_stops_at_marker (stat_data : StatTable)
  (echo_data : list string) (name_search : string -> string -> bool)
  (before after : list string) (marker_line : string)
  (self : EchoProfile.object) (lines_to_skip : Z) :
  contains EchoProfile.skill_marker (strip marker_line) = true ->
  EchoProfile.parse_lines stat_data echo_data name_search self lines_to_skip
    (before ++ marker_line :: after)
  = EchoProfile.parse_lines stat_data echo_data name_search self lines_to_skip
      before.
Proof.
  intro Hm. revert self lines_to_skip.
  induction before as [|raw rest IH]; intros self skip.
  - cbn [app EchoProfile.parse_lines]. now rewrite Hm.
  - cbn [app EchoProfile.parse_lines].
    destruct (contains EchoProfile.skill_marker (strip raw)); [reflexivity|].
    destruct (contains "+" (strip raw)).
    { destruct (_extract_number (strip raw)) as [[level|]|];
        [apply IH|reflexivity|apply IH]. }
    destruct (String.eqb (EchoProfile.name (EchoProfile.numbers self)) ""
              && (EchoProfile.level (EchoProfile.numbers self) =? 0)%Z);
      [apply IH|].
    destruct (0 <? skip)%Z; apply IH.
Qed.

Lemma parse_lines_stops_at_marker_witness :
  EchoProfile.parse_lines Sample.stat_data Sample.echo_data Sample.name_search
    (EchoProfile.of_numbers EchoProfile.default) 0
    ["+5"; "a"; "b"; " 声骸技能 "; "暴击 6.3%"]%string
  = EchoProfile.parse_lines Sample.stat_data Sample.echo_data
      Sample.name_search (EchoProfile.of_numbers EchoProfile.default) 0
      ["+5"; "a"; "b"]%string.
Proof.
  apply (parse_lines_stops_at_marker Sample.stat_data Sample.echo_data
           Sample.name_search ["+5"; "a"; "b"]%string ["暴击 6.3%"]%string
           " 声骸技能 ").
  reflexivity.
Defined.

(** ** Recognizing the stat of a line *)

Lemma entry_step_eq (line : string) (longest : string * option StatKey.t)
  (key : StatKey.t) (entry : StatEntry.t) :
  EchoProfile.entry_step line longest (key, entry)
  = if entry_matches line entry
       && (py_len (fst longest) <? py_len (StatEntry.name entry))%nat
    then (StatEntry.name entry, Some key)
    else longest.
Proof.
  unfold EchoProfile.entry_step, entry_matches.
  destruct (contains (StatEntry.name entry) line); [|reflexivity].
  destruct (Bool.eqb _ _); reflexivity.
Qed.

Lemma entry_fold_invariant (line : string) (l seen : StatTable)
  (acc : string * option StatKey.t) :
  (forall k e, In (k, e) seen -> entry_matches line e = true ->
               (py_len (StatEntry.name e) <= py_len (fst acc))%nat) ->
  (acc = (EmptyString, None) \/
   exists key entry,
     acc = (StatEntry.name entry, Some key) /\ In (key, entry) seen /\
     entry_matches line entry = true /\
     (0 < py_len (StatEntry.name entry))%nat) ->
  let res := fold_left (EchoProfile.entry_step line) l acc in
  (forall k e, In (k, e) (seen ++ l) -> entry_matches line e = true ->
               (py_len (StatEntry.name e) <= py_len (fst res))%nat) /\
  (res = (EmptyString, None) \/
   exists key entry,
     res = (StatEntry.name entry, Some key) /\ In (key, entry) (seen ++ l) /\
     entry_matches line entry = true /\
     (0 < py_len (StatEntry.name entry))%nat).
Proof.
  revert seen acc. induction l as [|[key entry] l IH]; intros seen acc H1 H2.
  - cbn [fold_left]. rewrite app_nil_r. now split.
  - cbn [fold_left].
    replace (seen ++ (key, entry) :: l) with ((seen ++ [(key, entry)]) ++ l)
      by (rewrite <- app_assoc; reflexivity).
    apply IH; rewrite entry_step_eq.
    + intros k e Hin Hm. apply in_app_or in Hin.
      destruct (entry_matches line entry
                && (py_len (fst acc) <? py_len (StatEntry.name entry))%nat)
        eqn:E.
      * apply andb_true_iff in E. destruct E as [_ E].
        apply Nat.ltb_lt in E. cbn [fst].
        destruct Hin as [Hin|[Hin|[]]].
        -- specialize (H1 k e Hin Hm). lia.
        -- injection Hin as <- <-. lia.
      * destruct Hin as [Hin|[Hin|[]]].
        -- exact (H1 k e Hin Hm).
        -- injection Hin as <- <-. rewrite Hm in E. cbn [andb] in E.
           apply Nat.ltb_ge in E. exact E.
    + destruct (entry_matches line entry
                && (py_len (fst acc) <? py_len (StatEntry.name entry))%nat)
        eqn:E.
      * apply andb_true_iff in E. destruct E as [Em E].
        apply Nat.ltb_lt in E. right. exists key, entry.
        split; [reflexivity|]. split; [|split; [exact Em|lia]].
        apply in_or_app. right. now left.
      * destruct H2 as [H2|[k' [e' [Ha [Hin [Hm Hp]]]]]]; [now left|].
        right. exists k', e'. split; [exact Ha|].
        split; [|now split]. apply in_or_app. now left.
Qed.

Lemma py_len_pos_nonempty (s : string) : (0 < py_len s)%nat -> s <> EmptyString.
Proof. intros H E. subst s. simpl in H. lia. Qed.

(** X9.  When _extract_entry recognizes a key, the catalog has an entry for
    it whose display name occurs in the line, whose type agrees with the
    presence of a percent sign, and whose name is at least as long as that
    of every other such entry.  It recognizes nothing exactly when every
    such entry has a name of length 0. *)
Theorem extract_entry_longest (stat_data : StatTable) (line : string) :
  (forall key,
     EchoProfile._extract_entry stat_data line = Some key ->
     exists entry,
       In (key, entry) stat_data /\ entry_matches line entry = true /\
       (0 < py_len (StatEntry.name entry))%nat /\
       forall k e, In (k, e) stat_data -> entry_matches line e = true ->
                   (py_len (StatEntry.name e)
                    <= py_len (StatEntry.name entry))%nat) /\
  (EchoProfile._extract_entry stat_data line = None <->
   forall k e, In (k, e) stat_data -> entry_matches line e = true ->
               py_len (StatEntry.name e) = 0%nat).
Proof.
  unfold EchoProfile._extract_entry.
  destruct (entry_fold_invariant line stat_data [] (EmptyString, None))
    as [H1 H2].
  - intros k e [].
  - now left.
  - cbn [app] in H1, H2.
    destruct (fold_left (EchoProfile.entry_step line) stat_data
                (EmptyString, None)) as [n ok] eqn:E.
    cbn [fst] in H1.
    destruct H2 as [H2|[key [entry [Ha [Hin [Hm Hp]]]]]].
    + injection H2 as -> ->. cbn [String.eqb]. split.
      * intros key H. discriminate.
      * split; [|reflexivity]. intros _ k e Hin Hm.
        specialize (H1 k e Hin Hm). simpl in H1. lia.
    + injection Ha as -> ->.
      assert (Hne : String.eqb (StatEntry.name entry) "" = false).
      { apply String.eqb_neq. now apply py_len_pos_nonempty. }
      rewrite Hne. split.
      * intros key' H. injection H as <-. exists entry.
        repeat split; assumption.
      * split; [discriminate|]. intro H.
        specialize (H key entry Hin Hm). lia.
Qed.

Lemma extract_entry_longest_witness :
  EchoProfile._extract_entry Sample.stat_data "暴击伤害 12.6%"
  = Some StatKey.cri_dmg /\
  exists entry,
    In (StatKey.cri_dmg, entry) Sample.stat_data /\
    entry_matches "暴击伤害 12.6%" entry = true.
Proof.
  assert (H : EchoProfile._extract_entry Sample.stat_data "暴击伤害 12.6%"
              = Some StatKey.cri_dmg) by reflexivity.
  split; [exact H|].
  destruct (proj1 (extract_entry_longest Sample.stat_data "暴击伤害 12.6%")
              StatKey.cri_dmg H) as [entry [Hin [Hm _]]].
  exists entry. now split.
Defined.

(** ** Validation in full *)

Lemma entries_valid_true_iff (stat_data : StatTable) (self : EchoProfile.t)
  (keys : list StatKey.t) :
  EchoProfile.entries_valid stat_data self keys = Ok true <->
  forall key, In key keys -> ~ EchoProfile.getattr self key == 0 ->
              value_allowed stat_data key (EchoProfile.getattr self key).
Proof.
  induction keys as [|key keys IH]; cbn [EchoProfile.entries_valid].
  - split; [intros _ k []|reflexivity].
  - destruct (Qeq_bool (EchoProfile.getattr self key) 0) eqn:Ez.
    + apply Qeq_bool_iff in Ez. rewrite IH. split; intros H k Hk Hnz.
      * destruct Hk as [<-|Hk]; [contradiction|now apply H].
      * apply H; [now right|exact Hnz].
    + apply Qeq_bool_false in Ez. unfold dict_item.
      destruct (dict_get StatKey.eqb stat_data key) as [stat|] eqn:Eg;
        cbn [bind].
      * destruct (existsb
                    (fun entry =>
                       Qeq_bool (DistItem.value entry)
                         (EchoProfile.getattr self key))
                    (StatEntry.distribution stat)) eqn:Em; cbn [negb].
        -- rewrite IH. apply existsb_exists in Em.
           destruct Em as [item [Hin Heq]]. apply Qeq_bool_iff in Heq.
           split; intros H k Hk Hnz.
           ++ destruct Hk as [<-|Hk]; [|now apply H].
              exists stat, item. repeat split; assumption.
           ++ apply H; [now right|exact Hnz].
        -- split; [discriminate|]. intro H.
           destruct (H key (or_introl eq_refl) Ez)
             as [stat' [item [Hs [Hin Heq]]]].
           rewrite Eg in Hs. injection Hs as <-.
           assert (Ht : existsb
                          (fun entry =>
                             Qeq_bool (DistItem.value entry)
                               (EchoProfile.getattr self key))
                          (StatEntry.distribution stat) = true).
           { apply existsb_exists. exists item. split; [exact Hin|].
             now apply Qeq_bool_iff. }
           congruence.
      * split; [discriminate|]. intro H.
        destruct (H key (or_introl eq_refl) Ez) as [stat' [item [Hs _]]].
        congruence.
Qed.

(** X10.  validate returns true exactly when the level is in 0..25, the
    name is a key of the name catalog, the number of non-zero stat fields
    is level // 5, and every non-zero stat field holds one of the values
    that the stat catalog lists for its key. *)
Theorem validate_true_iff (stat_data : StatTable) (echo_data : list string)
  (self : EchoProfile.t) :
  EchoProfile.validate stat_data echo_data self = Ok true <->
  (0 <= EchoProfile.level self <= 25)%Z /\
  In (EchoProfile.name self) echo_data /\
  Z.of_nat (List.length (EchoProfile.non_zero_keys self))
  = (EchoProfile.level self / 5)%Z /\
  forall key, ~ EchoProfile.getattr self key == 0 ->
              value_allowed stat_data key (EchoProfile.getattr self key).
Proof.
  unfold EchoProfile.validate.
  destruct ((0 <=? EchoProfile.level self)%Z
            && (EchoProfile.level self <=? 25)%Z) eqn:E1; cbn [negb].
  - apply andb_true_iff in E1. destruct E1 as [L1 L2].
    apply Z.leb_le in L1. apply Z.leb_le in L2.
    destruct (existsb (String.eqb (EchoProfile.name self)) echo_data) eqn:E2;
      cbn [negb].
    + apply existsb_eqb_In in E2.
      destruct (Z.of_nat (List.length (EchoProfile.non_zero_keys self))
                =? EchoProfile.level self / 5)%Z eqn:E3; cbn [negb].
      * apply Z.eqb_eq in E3. rewrite entries_valid_true_iff. split.
        -- intro H. repeat split; try assumption.
           intros key Hnz. apply H; [apply field_keys_complete|exact Hnz].
        -- intros [_ [_ [_ H]]] key _ Hnz. now apply H.
      * apply Z.eqb_neq in E3. split; [discriminate|].
        intros [_ [_ [H _]]]. contradiction.
    + split; [discriminate|]. intros [_ [H _]].
      apply existsb_eqb_In in H. congruence.
  - split; [discriminate|]. intros [[L1 L2] _].
    apply andb_false_iff in E1. destruct E1 as [E|E]; apply Z.leb_gt in E; lia.
Qed.

Lemma validate_true_iff_witness :
  EchoProfile.validate Sample.stat_data Sample.echo_data Cex.profile_level_7
  = Ok true /\
  value_allowed Sample.stat_data StatKey.cri_rate 6.3.
Proof.
  assert (H : EchoProfile.validate Sample.stat_data Sample.echo_data
                Cex.profile_level_7 = Ok true) by reflexivity.
  split; [exact H|].
  destruct (proj1 (validate_true_iff Sample.stat_data Sample.echo_data
                     Cex.profile_level_7) H) as [_ [_ [_ Hv]]].
  apply (Hv StatKey.cri_rate). intro E. discriminate E.
Defined.

(** ** The weights of a coefficient profile *)

Lemma coef_setattr2_getattr (c : EntryCoef.t) (k1 k2 k : StatKey.t)
  (v1 v2 : Q) :
  k1 <> k2 ->
  EntryCoef.getattr (EntryCoef.setattr (EntryCoef.setattr c k1 v1) k2 v2) k
  = if StatKey.eqb k k2 then v2
    else if StatKey.eqb k k1 then v1 else EntryCoef.getattr c k.
Proof.
  intro Hne. destruct (StatKey.eqb k k2) eqn:E2.
  - apply StatKey_eqb_eq in E2. subst k. apply coef_getattr_setattr_same.
  - apply StatKey_eqb_neq in E2.
    rewrite coef_getattr_setattr_other by congruence.
    destruct (StatKey.eqb k k1) eqn:E1.
    + apply StatKey_eqb_eq in E1. subst k. apply coef_getattr_setattr_same.
    + apply StatKey_eqb_neq in E1.
      now rewrite coef_getattr_setattr_other by congruence.
Qed.

(** X11.  With "Default" in the coefficient catalog, the weights of a
    constructed coefficient profile are layered: a key listed by the
    character's own mapping has the listed weight; otherwise a key derived
    from the character's damage source has the derived weight; otherwise
    the weight is the one "Default" lists, or 0.  Constructed without a
    name, the profile has the weights "Default" lists and 0 elsewhere, the
    damage source of "Default" not being applied. *)
Theorem entry_coef_layers (coef_data : CoefTable) (default : CoefEntry.t) :
  dict_get String.eqb coef_data "Default"%string = Some default ->
  (exists self,
     EntryCoef.init coef_data None = Ok self /\
     forall k, EntryCoef.getattr self k = listed_or default k 0) /\
  (forall char_name entry,
     dict_get String.eqb coef_data char_name = Some entry ->
     exists self,
       EntryCoef.init coef_data (Some char_name) = Ok self /\
       forall k,
         EntryCoef.getattr self k
         = listed_or entry k
             (derived_weight (CoefEntry.dmg_source entry) k
                (listed_or default k 0))).
Proof.
  intro Hd. unfold EntryCoef.init, dict_item. rewrite Hd. cbn [bind].
  assert (Hbase : forall k,
             EntryCoef.getattr
               (EntryCoef.apply_coef EntryCoef.zero (CoefEntry.coef default)) k
             = listed_or default k 0).
  { intro k. apply getattr_apply_coef_listed. destruct k; reflexivity. }
  split.
  - eexists. split; [reflexivity|exact Hbase].
  - intros char_name entry He. unfold EntryCoef.set_char. rewrite He.
    eexists. split; [reflexivity|]. intro k.
    apply getattr_apply_coef_listed. unfold derived_weight.
    destruct (String.eqb (CoefEntry.dmg_source entry) "hp"%string);
      [|destruct (String.eqb (CoefEntry.dmg_source entry) "atk"%string);
        [|destruct (String.eqb (CoefEntry.dmg_source entry) "def"%string)]];
      try apply Hbase;
      rewrite coef_setattr2_getattr by discriminate;
      destruct k; cbn [StatKey.eqb]; try reflexivity; apply Hbase.
Qed.

Lemma entry_coef_layers_witness :
  exists self,
    EntryCoef.init Sample.coef_data (Some "Support"%string) = Ok self /\
    EntryCoef.atk_rate self = (1 # 2) /\
    EntryCoef.atk_num self = (1 # 10) /\
    EntryCoef.cri_rate self = 2 /\
    EntryCoef.hp_rate self = 0.
Proof.
  destruct (entry_coef_layers Sample.coef_data
              (CoefEntry.mk "atk"%string [(StatKey.cri_rate, 2); (StatKey.cri_dmg, 1)])
              eq_refl) as [_ H].
  destruct (H "Support"%string
              (CoefEntry.mk "atk"%string [(StatKey.atk_rate, 1 # 2);
                                   (StatKey.resonance_eff, 1)])
              eq_refl) as [self [Hs Hg]].
  exists self. split; [exact Hs|].
  split; [exact (Hg StatKey.atk_rate)|].
  split; [exact (Hg StatKey.atk_num)|].
  split; [exact (Hg StatKey.cri_rate)|exact (Hg StatKey.hp_rate)].
Defined.

(** ** The profile's own expected score *)

Lemma fill_expected_outcome (stats : StatTable) (self : EchoProfile.t)
  (keys : list StatKey.t) :
  forall (tmp_profile : EchoProfile.t) (possible_entries : list StatKey.t),
    (returns (EchoProfile.fill_expected stats self tmp_profile
                possible_entries keys) /\
     forall key, In key keys -> EchoProfile.getattr self key == 0 ->
                 dict_get StatKey.eqb stats key <> None) \/
    (EchoProfile.fill_expected stats self tmp_profile possible_entries keys
     = Raise KeyError /\
     exists key, In key keys /\ EchoProfile.getattr self key == 0 /\
                 dict_get StatKey.eqb stats key = None).
Proof.
  induction keys as [|key keys IH]; intros tmp possible;
    cbn [EchoProfile.fill_expected].
  - left. split; [now eexists|]. intros key [].
  - destruct (Qeq_bool (EchoProfile.getattr self key) 0) eqn:Ez.
    + apply Qeq_bool_iff in Ez. unfold dict_item.
      destruct (dict_get StatKey.eqb stats key) as [stat|] eqn:Eg;
        cbn [bind].
      * destruct (IH (EchoProfile.setattr tmp key
                        (EchoProfile.expected_value
                           (StatEntry.distribution stat)))
                    (possible ++ [key])) as [[Hr Hall]|[Hr [k [Hk Hz]]]].
        -- left. split; [exact Hr|].
           intros k [<-|Hk] Hz; [congruence|now apply Hall].
        -- right. split; [exact Hr|]. exists k. split; [now right|exact Hz].
      * right. split; [reflexivity|]. exists key. now repeat split; try left.
    + apply Qeq_bool_false in Ez.
      destruct (IH tmp possible) as [[Hr Hall]|[Hr [k [Hk Hz]]]].
      * left. split; [exact Hr|].
        intros k [<-|Hk] Hz; [contradiction|now apply Hall].
      * right. split; [exact Hr|]. exists k. split; [now right|exact Hz].
Qed.

(** X12.  EchoProfile.get_expected_score raises KeyError exactly when some
    stat field that is 0 has no entry in the stat catalog; it raises
    nothing else, and returns otherwise. *)
Theorem profile_expected_score_key_error (stats : StatTable)
  (self : EchoProfile.t) (coef : EntryCoef.t) :
  (EchoProfile.get_expected_score stats self coef = Raise KeyError <->
   exists key, EchoProfile.getattr self key == 0 /\
               dict_get StatKey.eqb stats key = None) /\
  (returns (EchoProfile.get_expected_score stats self coef) <->
   forall key, EchoProfile.getattr self key == 0 ->
               dict_get StatKey.eqb stats key <> None) /\
  (forall e, EchoProfile.get_expected_score stats self coef = Raise e ->
             e = KeyError).
Proof.
  unfold EchoProfile.get_expected_score.
  destruct (fill_expected_outcome stats self field_keys self [])
    as [[[r Hr] Hall]|[Hr [k [Hk [Hz Hg]]]]]; rewrite Hr; cbn [bind].
  - destruct r as [tmp possible]. split; [|split].
    + split; [discriminate|]. intros [key [Hz Hg]].
      exfalso. exact (Hall key (field_keys_complete key) Hz Hg).
    + split; [|intros _; now eexists].
      intros _ key Hz. exact (Hall key (field_keys_complete key) Hz).
    + intros e H. discriminate.
  - split; [|split].
    + split; [|reflexivity]. intros _. now exists k.
    + split.
      * intros [a Ha]. discriminate.
      * intro H. exfalso. exact (H k Hz Hg).
    + intros e H. now injection H as <-.
Qed.

Lemma profile_expected_score_key_error_witness :
  EchoProfile.get_expected_score [] EchoProfile.default Sample.coef_default
  = Raise KeyError.
Proof.
  apply (proj1 (profile_expected_score_key_error [] EchoProfile.default
                  Sample.coef_default)).
  exists StatKey.atk_rate. split; reflexivity.
Defined.

(** X13.  Over a stat catalog that names the thirteen keys, the profile's
    expected score at a level from 21 to 25, where no slot remains, is its
    current score. *)
Theorem profile_expected_score_last_levels (stats : StatTable)
  (self : EchoProfile.t) (coef : EntryCoef.t) :
  stat_table_complete stats ->
  (20 < EchoProfile.level self <= 25)%Z ->
  exists e,
    EchoProfile.get_expected_score stats self coef = Ok e /\
    e == EchoProfile.get_score self coef.
Proof.
  intros Hc Hl.
  destruct (EchoProfile_expected_closed stats self coef Hc) as [e [He Heq]].
  exists e. split; [exact He|].
  assert (Hr : ((25 - EchoProfile.level self) / 5 = 0)%Z)
    by (apply Z.div_small; lia).
  rewrite Heq, Hr, EchoProfile_get_score_sum, weighted_sum_sum_over.
  assert (Hs : sum_over
                 (fun k =>
                    if Qeq_bool (EchoProfile.getattr self k) 0 then 0
                    else EchoProfile.getattr self k * EntryCoef.getattr coef k)
                 field_keys
               == sum_over
                    (fun k =>
                       EchoProfile.getattr self k * EntryCoef.getattr coef k)
                    field_keys).
  { apply sum_over_ext. intros k _.
    destruct (Qeq_bool (EchoProfile.getattr self k) 0) eqn:E; [|reflexivity].
    apply Qeq_bool_iff in E. rewrite E. ring. }
  rewrite Hs. unfold Qdiv. change (inject_Z 0) with 0. ring.
Qed.

Lemma profile_expected_score_last_levels_witness :
  exists e,
    EchoProfile.get_expected_score Sample.stat_data Cex.profile_full
      Sample.coef_default = Ok e /\
    e == EchoProfile.get_score Cex.profile_full Sample.coef_default.
Proof.
  apply profile_expected_score_last_levels.
  - exact sample_stat_data_complete.
  - simpl. lia.
Defined.

(** ** The smart-enhance loop *)

Section SmartRun.

Import SmartEnhance.

Variable stats : StatTable.
Variable coef_data : CoefTable.
Variable conf : settings.
Variable scan : nat -> option EchoProfile.t.

Lemma count_events_app (f : event -> bool) (a b : list event) :
  count_events f (a ++ b) = (count_events f a + count_events f b)%nat.
Proof. unfold count_events. now rewrite filter_app, length_app. Qed.

(** What one iteration does, by whether it ends in an enhancement. *)
Lemma iteration_counts (coef : EntryCoef.t) (n : nat) :
  match iteration stats conf scan coef n with
  | Raise e =>
      e = ZeroDivisionError /\ enhance_worthy stats conf scan coef n = false
  | Ok (events, continue) =>
      let worthy := enhance_worthy stats conf scan coef n in
      count_events is_scan events = 1%nat /\
      count_events is_enhance events = (if worthy then 1 else 0)%nat /\
      count_events is_tune events
      = (if worthy && auto_tune conf then 1 else 0)%nat /\
      count_events is_next_echo events
      = (if negb worthy && auto_next conf then 1 else 0)%nat /\
      continue = worthy || auto_next conf
  end.
Proof.
  unfold iteration, enhance_worthy, evaluate.
  destruct (scan n) as [profile|].
  - destruct (Calculator.get_expected_score stats profile coef)
      as [expected|e] eqn:Ee; cbn [bind].
    + destruct (Qltb (expected / AutoEnhanceEchoTask.max_potential stats coef)
                  (threshold conf)); cbn [negb andb].
      * destruct (auto_next conf); cbn; repeat split; reflexivity.
      * destruct (EchoProfile.level profile <? 25)%Z; cbn [andb].
        -- destruct (auto_tune conf), (auto_next conf); cbn;
             repeat split; reflexivity.
        -- destruct (auto_next conf); cbn; repeat split; reflexivity.
    + split; [|reflexivity].
      exact (Calculator_expected_raise_only stats profile coef e Ee).
  - destruct (auto_next conf); cbn; repeat split; reflexivity.
Qed.

(** The loop from [loop_count] on, with [remaining] iterations allowed:
    it scans [m] times, and enhances as often as an iteration among these
    ends in an enhancement. *)
Lemma loop_counts (coef : EntryCoef.t) (remaining loop_count : nat) :
  let '(trace, out) := loop stats conf scan coef remaining loop_count in
  let worthy := enhance_worthy stats conf scan coef in
  exists m,
    (m <= remaining)%nat /\
    count_events is_scan trace = m /\
    count_events is_enhance trace
    = List.length (filter worthy (seq (S loop_count) m)) /\
    count_events is_tune trace
    = (if auto_tune conf then count_events is_enhance trace else 0)%nat /\
    (auto_next conf = false -> count_events is_next_echo trace = 0%nat) /\
    (auto_next conf = true -> out = Returned -> m = remaining) /\
    (auto_next conf = false ->
     forall n, (loop_count < n < loop_count + m)%nat -> worthy n = true) /\
    (forall e, out = Raised e -> e = ZeroDivisionError) /\
    (out = Returned -> exists before, trace = before ++ [Log LogFinished]).
Proof.
  revert loop_count. induction remaining as [|remaining IH]; intro c.
  - cbn [loop]. exists 0%nat. cbn. repeat split; try lia; try discriminate.
    + now destruct (auto_tune conf).
    + intros _. now exists [].
  - cbn [loop]. pose proof (iteration_counts coef (S c)) as Hi.
    destruct (iteration stats conf scan coef (S c)) as [[events continue]|e].
    + cbv zeta in Hi. destruct Hi as [Hs [He [Ht [Hn Hc]]]].
      destruct continue.
      * specialize (IH (S c)).
        destruct (loop stats conf scan coef remaining (S c)) as [rest out].
        cbv zeta in IH.
        destruct IH as [m [Hm [Is [Ie [It [In_ [Ia [Iw [Ir If_]]]]]]]]].
        exists (S m). rewrite !count_events_app.
        split; [lia|]. split; [lia|].
        assert (Hen : (count_events is_enhance events
                       + count_events is_enhance rest
                       = List.length
                           (filter (enhance_worthy stats conf scan coef)
                              (seq (S c) (S m))))%nat).
        { cbn [seq filter]. rewrite He, Ie.
          destruct (enhance_worthy stats conf scan coef (S c));
            reflexivity. }
        split; [exact Hen|]. split.
        { rewrite Ht, It, He.
          destruct (enhance_worthy stats conf scan coef (S c)),
            (auto_tune conf); cbn [andb]; lia. }
        split.
        { intro Hf. rewrite Hn, (In_ Hf), Hf, andb_false_r. reflexivity. }
        split.
        { intros Ha Ho. rewrite (Ia Ha Ho). reflexivity. }
        split.
        { intros Hf n Hr. rewrite Hf, orb_false_r in Hc.
          destruct (Nat.eq_dec n (S c)) as [->|Hne]; [now symmetry|].
          apply (Iw Hf). lia. }
        split; [exact Ir|].
        intro Ho. destruct (If_ Ho) as [before Hb].
        exists (events ++ before). rewrite Hb. now rewrite app_assoc.
      * exists 1%nat. rewrite !count_events_app. cbn [count_events filter
          is_scan is_enhance is_tune is_next_echo List.length].
        fold (count_events is_scan events).
        fold (count_events is_enhance events).
        fold (count_events is_tune events).
        fold (count_events is_next_echo events).
        symmetry in Hc. apply orb_false_iff in Hc. destruct Hc as [Hw Ha].
        rewrite Hw in He, Ht, Hn. rewrite Ha in Hn. cbn [andb negb] in *.
        split; [lia|]. split; [lia|]. split.
        { cbn [seq filter]. rewrite Hw. cbn. lia. }
        split; [rewrite Ht, He; now destruct (auto_tune conf)|].
        split; [intros _; lia|].
        split; [intro H; congruence|].
        split; [intros _ n Hr; lia|].
        split; [intros e H; discriminate|].
        intros _. now exists events.
    + destruct Hi as [-> Hw]. exists 1%nat.
      cbn. rewrite Hw. repeat split; try lia; try discriminate.
      * now destruct (auto_tune conf).
      * intros e H. now injection H as <-.
Qed.

End SmartRun.

Section SmartRunTheorems.

Import SmartEnhance.

Variable stats : StatTable.
Variable coef_data : CoefTable.
Variable conf : settings.
Variable scan : nat -> option EchoProfile.t.

(** X14.  A run of smart_enhance_run that gets its coefficient profile
    scans the panel once per iteration and at most 100 times.  It enhances
    exactly as often as one of these iterations scans a profile whose score
    ratio is not below the threshold and whose level is below 25; it tunes
    after every enhancement when auto_tune is set and never otherwise; and
    it never switches to the next echo when auto_next is not set. *)
Theorem smart_run_counts (coef : EntryCoef.t) :
  EntryCoef.init coef_data (Some (target_role conf)) = Ok coef ->
  let trace := fst (smart_enhance_run stats coef_data conf scan) in
  exists m,
    (m <= 100)%nat /\
    count_events is_scan trace = m /\
    count_events is_enhance trace
    = List.length (filter (enhance_worthy stats conf scan coef) (seq 1 m)) /\
    count_events is_tune trace
    = (if auto_tune conf then count_events is_enhance trace else 0)%nat /\
    (auto_next conf = false -> count_events is_next_echo trace = 0%nat).
Proof.
  intro Hi. unfold smart_enhance_run. rewrite Hi.
  pose proof (loop_counts stats conf scan coef max_loops 0) as H.
  destruct (loop stats conf scan coef max_loops 0) as [trace out].
  cbv zeta in H. destruct H as [m [Hm [Hs [He [Ht [Hn _]]]]]].
  exists m. cbn [fst].
  change (Log LogStart :: trace) with ([Log LogStart] ++ trace).
  rewrite !count_events_app. cbn [count_events filter is_scan is_enhance
    is_tune is_next_echo List.length Nat.add].
  fold (count_events is_scan trace). fold (count_events is_enhance trace).
  fold (count_events is_tune trace). fold (count_events is_next_echo trace).
  repeat split; assumption.
Qed.

(** X15.  With auto_next set, a run that does not fail goes through all
    100 iterations.  With auto_next not set, every iteration but the last
    ended in an enhancement: the run stops at the first scan that fails, is
    judged below the threshold or is at level 25 or more. *)
Theorem smart_run_stops (coef : EntryCoef.t) :
  EntryCoef.init coef_data (Some (target_role conf)) = Ok coef ->
  let run := smart_enhance_run stats coef_data conf scan in
  (auto_next conf = true -> snd run = Returned ->
   count_events is_scan (fst run) = 100%nat) /\
  (auto_next conf = false ->
   forall n, (1 <= n < count_events is_scan (fst run))%nat ->
             enhance_worthy stats conf scan coef n = true).
Proof.
  intro Hi. unfold smart_enhance_run. rewrite Hi.
  pose proof (loop_counts stats conf scan coef max_loops 0) as H.
  destruct (loop stats conf scan coef max_loops 0) as [trace out].
  cbv zeta in H. destruct H as [m [Hm [Hs [_ [_ [_ [Ha [Hw _]]]]]]]].
  cbn [fst snd].
  change (Log LogStart :: trace) with ([Log LogStart] ++ trace).
  rewrite count_events_app. cbn [count_events filter is_scan List.length
    Nat.add].
  fold (count_events is_scan trace). rewrite Hs. split.
  - intros Hn Ho. exact (Ha Hn Ho).
  - intros Hn n Hr. apply (Hw Hn). lia.
Qed.

Lemma loop_returns (coef : EntryCoef.t) (remaining loop_count : nat) :
  stat_table_complete stats ->
  snd (loop stats conf scan coef remaining loop_count) = Returned.
Proof.
  intro Hc. revert loop_count.
  induction remaining as [|remaining IH]; intro c; cbn [loop].
  - reflexivity.
  - unfold iteration.
    destruct (scan (S c)) as [profile|].
    + unfold evaluate.
      destruct (Calculator_expected_returns stats profile coef Hc)
        as [expected He].
      rewrite He. cbn [bind].
      specialize (IH (S c)).
      destruct (loop stats conf scan coef remaining (S c)) as [rest out].
      cbn [snd] in IH. subst out.
      destruct (Qltb _ _); [destruct (auto_next conf); reflexivity|].
      destruct (EchoProfile.level profile <? 25)%Z; [reflexivity|].
      destruct (auto_next conf); reflexivity.
    + specialize (IH (S c)).
      destruct (loop stats conf scan coef remaining (S c)) as [rest out].
      cbn [snd] in IH. subst out.
      destruct (auto_next conf); reflexivity.
Qed.

(** X16.  How a run of smart_enhance_run ends.  If the coefficient profile
    cannot be built the run raises that error before doing anything.
    Otherwise it can only raise ZeroDivisionError, and when it returns its
    first operation is the start log line and its last one the
    "Task finished." log line.  Over a stat catalog that names the thirteen
    keys it always returns. *)
Theorem smart_run_outcome :
  let run := smart_enhance_run stats coef_data conf scan in
  (forall e,
     EntryCoef.init coef_data (Some (target_role conf)) = Raise e ->
     run = ([], Raised e)) /\
  (forall coef,
     EntryCoef.init coef_data (Some (target_role conf)) = Ok coef ->
     (forall e, snd run = Raised e -> e = ZeroDivisionError) /\
     (snd run = Returned ->
      exists middle,
        fst run = Log LogStart :: middle ++ [Log LogFinished]) /\
     (stat_table_complete stats -> snd run = Returned)).
Proof.
  cbv zeta. unfold smart_enhance_run. split.
  - intros e He. rewrite He. reflexivity.
  - intros coef Hi. rewrite Hi.
    pose proof (loop_counts stats conf scan coef max_loops 0) as H.
    pose proof (loop_returns coef max_loops 0) as Hr.
    destruct (loop stats conf scan coef max_loops 0) as [trace out].
    cbv zeta in H. destruct H as [m [_ [_ [_ [_ [_ [_ [_ [He Hf]]]]]]]]].
    cbn [fst snd] in *. split; [exact He|]. split.
    + intro Ho. destruct (Hf Ho) as [before Hb]. exists before.
      now rewrite Hb.
    + exact Hr.
Qed.

End SmartRunTheorems.

Lemma smart_run_counts_witness :
  exists m,
    (m <= 100)%nat /\
    SmartEnhance.count_events SmartEnhance.is_scan
      (fst (SmartEnhance.smart_enhance_run Sample.stat_data Sample.coef_data
              (SmartEnhance.mk_settings "Default" 0.8 true false)
              (fun _ => Some EchoVision.scan_echo_panel)))
    = m.
Proof.
  destruct (smart_run_counts Sample.stat_data Sample.coef_data
              (SmartEnhance.mk_settings "Default" 0.8 true false)
              (fun _ => Some EchoVision.scan_echo_panel)
              Sample.coef_default eq_refl) as [m [Hm [Hs _]]].
  exists m. now split.
Defined.

Lemma smart_run_stops_witness :
  SmartEnhance.count_events SmartEnhance.is_scan
    (fst (SmartEnhance.smart_enhance_run Sample.stat_data Sample.coef_data
            (SmartEnhance.mk_settings "Default" 0.8 true true)
            (fun _ => Some EchoVision.scan_echo_panel)))
  = 100%nat.
Proof.
  apply (proj1 (smart_run_stops Sample.stat_data Sample.coef_data
                  (SmartEnhance.mk_settings "Default" 0.8 true true)
                  (fun _ => Some EchoVision.scan_echo_panel)
                  Sample.coef_default eq_refl)).
  - reflexivity.
  - vm_compute. reflexivity.
Defined.

Lemma smart_run_outcome_witness :
  snd (SmartEnhance.smart_enhance_run Sample.stat_data Sample.coef_data
         (SmartEnhance.mk_settings "Default" 0.8 true false)
         (fun _ => Some EchoVision.scan_echo_panel))
  = SmartEnhance.Returned.
Proof.
  destruct (proj2 (smart_run_outcome Sample.stat_data Sample.coef_data
                     (SmartEnhance.mk_settings "Default" 0.8 true false)
                     (fun _ => Some EchoVision.scan_echo_panel))
              Sample.coef_default eq_refl) as [_ [_ H]].
  exact (H sample_stat_data_complete).
Defined.

(** ** The user configuration *)

Section UserConfigFacts.

Import UserConfig.

Variable V : Type.
Variable write : config V -> file V -> file V.

Lemma dict_get_set_same (d : config V) (key : string) (value : V) :
  dict_get String.eqb (dict_set V d key value) key = Some value.
Proof.
  induction d as [|[k v] d IH]; cbn [dict_set dict_get].
  - now rewrite String.eqb_refl.
  - destruct (String.eqb k key) eqn:E; cbn [dict_get]; rewrite E.
    + reflexivity.
    + exact IH.
Qed.

Lemma dict_get_set_other (d : config V) (key key' : string) (value : V) :
  key <> key' ->
  dict_get String.eqb (dict_set V d key value) key'
  = dict_get String.eqb d key'.
Proof.
  intro Hne. induction d as [|[k v] d IH]; cbn [dict_set dict_get].
  - apply String.eqb_neq in Hne. now rewrite Hne.
  - destruct (String.eqb k key) eqn:E; cbn [dict_get].
    + apply String.eqb_eq in E. subst k.
      apply String.eqb_neq in Hne. now rewrite Hne.
    + destruct (String.eqb k key'); [reflexivity|exact IH].
Qed.

Lemma dict_set_nonempty (d : config V) (key : string) (value : V) :
  dict_set V d key value <> [].
Proof.
  destruct d as [|[k v] d]; cbn [dict_set]; [discriminate|].
  destruct (String.eqb k key); discriminate.
Qed.

(** X17.  A setting that was set is read back: whatever the file holds and
    whether or not the write succeeds, get_user_conf after set_user_conf
    of the same key returns the value set, without reading the file.  For
    another key it returns what the configuration in memory held before,
    or the default; the file is not consulted even if it was never
    loaded. *)
Theorem user_conf_set_get (s : state V) (key key' : string)
  (value default : V) :
  let s1 := set_user_conf V write key value s in
  get_user_conf V key default s1 = (s1, value) /\
  (key <> key' ->
   get_user_conf V key' default s1
   = (s1, match dict_get String.eqb (_user_config s) key' with
          | Some v => v
          | None => default
          end)).
Proof.
  cbv zeta. unfold get_user_conf, set_user_conf, save_user_config.
  cbn [_user_config _user_config_file].
  pose proof (dict_set_nonempty (_user_config s) key value) as Hne.
  destruct (dict_set V (_user_config s) key value) as [|kv d] eqn:E;
    [contradiction|].
  rewrite <- E. cbn [_user_config]. split.
  - now rewrite dict_get_set_same.
  - intro Hk. now rewrite dict_get_set_other.
Qed.

End UserConfigFacts.

Lemma user_conf_set_get_witness :
  UserConfig.get_user_conf Q "threshold" 0.8
    (UserConfig.set_user_conf Q (fun c _ => UserConfig.Holds c)
       "auto_tune" 1
       (UserConfig.mk [("threshold"%string, 0.5)] UserConfig.Missing))
  = (UserConfig.set_user_conf Q (fun c _ => UserConfig.Holds c)
       "auto_tune" 1
       (UserConfig.mk [("threshold"%string, 0.5)] UserConfig.Missing),
     0.5).
Proof.
  apply (proj2 (user_conf_set_get Q (fun c _ => UserConfig.Holds c)
                  (UserConfig.mk [("threshold"%string, 0.5)]
                     UserConfig.Missing)
                  "auto_tune" "threshold" 1 0.8)).
  discriminate.
Defined.

(** ** Turning, walking, stamina and the team *)

(** X19.  Turning back is the opposite turn: for all angles, the signed
    turn from one heading to another is the negation of the turn from the
    second to the first. *)
Theorem get_angle_between_antisym (my_angle angle : Q) :
  BaseWWTask.get_angle_between angle my_angle
  == - BaseWWTask.get_angle_between my_angle angle.
Proof.
  destruct (get_angle_between_cases my_angle angle) as [[H E]|[[H E]|[H E]]];
    destruct (get_angle_between_cases angle my_angle)
      as [[H' E']|[[H' E']|[H' E']]];
    rewrite E, E'; lra.
Qed.

Lemma key_eqb_refl (k : Walking.key) : Walking.key_eqb k k = true.
Proof. now destruct k. Qed.

Lemma keys_held_app (events events' : list Walking.event)
  (held : option Walking.key) :
  keys_held (events ++ events') held
  = match keys_held events held with
    | Some held' => keys_held events' held'
    | None => None
    end.
Proof.
  revert held. induction events as [|e events IH]; intro held;
    [reflexivity|].
  destruct e; cbn [app keys_held]; try apply IH.
  - destruct held; [reflexivity|apply IH].
  - destruct held as [k'|]; [|reflexivity].
    destruct (Walking.key_eqb k k'); [apply IH|reflexivity].
Qed.

Lemma keys_held_seq (events events' : list Walking.event)
  (held held' : option Walking.key) :
  keys_held events held = Some held' ->
  keys_held (events ++ events') held = keys_held events' held'.
Proof. intro H. now rewrite keys_held_app, H. Qed.

Lemma keys_held_stop (last_direction : option Walking.key) :
  keys_held (Walking._stop_last_direction last_direction) last_direction
  = Some None.
Proof.
  destruct last_direction as [k|]; cbn; [|reflexivity].
  now rewrite key_eqb_refl.
Qed.

Lemma keys_held_walk_direction (last_direction next_direction
  : option Walking.key) :
  keys_held (fst (Walking._walk_direction last_direction next_direction))
    last_direction
  = Some next_direction /\
  snd (Walking._walk_direction last_direction next_direction)
  = next_direction.
Proof.
  split; [|reflexivity].
  unfold Walking._walk_direction. cbn [fst].
  destruct (Walking.direction_neqb next_direction last_direction) eqn:E.
  - rewrite keys_held_app, keys_held_stop.
    now destruct next_direction.
  - destruct next_direction as [[]|], last_direction as [[]|];
      cbn in E; try discriminate; reflexivity.
Qed.

Section WalkFacts.

Variable width_of_screen height_of_screen : Q -> Q.
Variable start time_out : Q.
Variable update_function : bool.

Let walk_loop :=
  Walking.walk_loop width_of_screen height_of_screen start time_out
    update_function.

Lemma walk_loop_balanced (frames : list Walking.frame) :
  forall last_direction no_echo_start events r,
    walk_loop frames last_direction no_echo_start = Some (events, r) ->
    keys_held events last_direction = Some None.
Proof.
  subst walk_loop.
  induction frames as [|f frames IH]; intros last no_echo events r H;
    [discriminate|].
  cbn [Walking.walk_loop] in H.
  assert (Hcont : forall next no_echo',
    match
      (let '(events0, last_direction) :=
         Walking._walk_direction last (Some next) in
       match
         Walking.walk_loop width_of_screen height_of_screen start time_out
           update_function frames last_direction no_echo'
       with
       | Some (rest, r0) =>
           Some
             (Walking.NextFrame
              :: events0
                 ++ (if update_function then [Walking.Update] else [])
                 ++ rest, r0)
       | None => None
       end)
    with
    | Some (events0, _) => keys_held events0 last = Some None
    | None => True
    end).
  { intros next no_echo'.
    destruct (keys_held_walk_direction last (Some next)) as [Hk Hs].
    destruct (Walking._walk_direction last (Some next)) as [ev l'].
    cbn [fst snd] in Hk, Hs. subst l'.
    destruct (Walking.walk_loop _ _ _ _ _ frames (Some next) no_echo')
      as [[rest r0]|] eqn:E; [|exact I].
    cbn [keys_held]. rewrite keys_held_app, Hk, keys_held_app.
    replace (keys_held (if update_function then [Walking.Update] else [])
               (Some next)) with (Some (Some next))
      by now destruct update_function.
    exact (IH _ _ _ _ E). }
  destruct (Qltb (Walking.time_at_test f - start) time_out).
  2:{ injection H as <- <-. apply keys_held_stop. }
  destruct (Walking.pick_f f).
  { injection H as <- <-. cbn [keys_held]. apply keys_held_stop. }
  destruct (Walking.in_combat f).
  { injection H as <- <-. cbn [keys_held]. apply keys_held_stop. }
  destruct (Walking.find_echos f) as [|echo echos].
  - destruct (Qeq_bool no_echo 0).
    + specialize (Hcont Walking.W (Walking.time_no_echo f)).
      rewrite H in Hcont. exact Hcont.
    + destruct (Qgtb (Walking.time_no_echo f - no_echo) 3).
      * injection H as <- <-. cbn [keys_held]. apply keys_held_stop.
      * specialize (Hcont Walking.W no_echo).
        rewrite H in Hcont. exact Hcont.
  - specialize (Hcont (Walking.next_direction_of width_of_screen
                         height_of_screen last echo) 0).
    rewrite H in Hcont. exact Hcont.
Qed.

Lemma walk_loop_returns (frames : list Walking.frame) :
  Exists (fun f => time_out <= Walking.time_at_test f - start) frames ->
  forall last_direction no_echo_start,
    exists events r,
      walk_loop frames last_direction no_echo_start = Some (events, r).
Proof.
  subst walk_loop.
  induction frames as [|f frames IH]; intros Hex last no_echo.
  { inversion Hex. }
  cbn [Walking.walk_loop].
  destruct (Qltb (Walking.time_at_test f - start) time_out) eqn:Et.
  2:{ eauto. }
  assert (Hrest : Exists
            (fun f => time_out <= Walking.time_at_test f - start) frames).
  { inversion Hex as [? ? Hf|]; [|assumption].
    apply Qltb_lt in Et. lra. }
  destruct (Walking.pick_f f); [eauto|].
  destruct (Walking.in_combat f); [eauto|].
  assert (Hcont : forall next no_echo',
    exists events r,
      (let '(events0, last_direction) :=
         Walking._walk_direction last (Some next) in
       match
         Walking.walk_loop width_of_screen height_of_screen start time_out
           update_function frames last_direction no_echo'
       with
       | Some (rest, r0) =>
           Some
             (Walking.NextFrame
              :: events0
                 ++ (if update_function then [Walking.Update] else [])
                 ++ rest, r0)
       | None => None
       end) = Some (events, r)).
  { intros next no_echo'.
    destruct (Walking._walk_direction last (Some next)) as [ev l'].
    destruct (IH Hrest l' no_echo') as (rest & r0 & E).
    rewrite E. eauto. }
  destruct (Walking.find_echos f) as [|echo echos].
  - destruct (Qeq_bool no_echo 0); [apply Hcont|].
    destruct (Qgtb (Walking.time_no_echo f - no_echo) 3);
      [eauto|apply Hcont].
  - apply Hcont.
Qed.

(** X20.  walk_to_yolo_echo leaves no movement key held.  Once the clock
    read at the loop test passes the time-out the function returns, and in
    its events each key is pressed only while none is held, each release
    is of the key that is held, and no key is held at the end; whether it
    returns True, False or nothing. *)
Theorem walk_to_yolo_echo_releases_keys (frames : list Walking.frame) :
  Exists (fun f => time_out <= Walking.time_at_test f - start) frames ->
  exists events r,
    Walking.walk_to_yolo_echo width_of_screen height_of_screen start time_out
      update_function frames = Some (events, r) /\
    keys_held events None = Some None.
Proof.
  intro Hex. unfold Walking.walk_to_yolo_echo.
  destruct (walk_loop_returns frames Hex None 0) as (events & r & E).
  exists events, r. split; [exact E|].
  exact (walk_loop_balanced frames _ _ _ _ E).
Qed.

End WalkFacts.

Section WalkResult.

Variable width_of_screen height_of_screen : Q -> Q.
Variable start time_out : Q.
Variable update_function : bool.

Lemma walk_loop_result (frames : list Walking.frame) :
  forall last_direction no_echo_start events (b : bool),
    Walking.walk_loop width_of_screen height_of_screen start time_out
      update_function frames last_direction no_echo_start
    = Some (events, Some b) ->
    exists f,
      In f frames /\ Walking.time_at_test f - start < time_out /\
      if b then Walking.pick_f f = true
      else Walking.pick_f f = false /\ Walking.in_combat f = true.
Proof.
  induction frames as [|f frames IH]; intros last no_echo events b H;
    [discriminate|].
  cbn [Walking.walk_loop] in H.
  assert (Hcont : forall next no_echo',
    (let '(events0, last_direction) :=
       Walking._walk_direction last (Some next) in
     match
       Walking.walk_loop width_of_screen height_of_screen start time_out
         update_function frames last_direction no_echo'
     with
     | Some (rest, r0) =>
         Some
           (Walking.NextFrame
            :: events0
               ++ (if update_function then [Walking.Update] else [])
               ++ rest, r0)
     | None => None
     end) = Some (events, Some b) ->
    exists f0,
      In f0 (f :: frames) /\ Walking.time_at_test f0 - start < time_out /\
      if b then Walking.pick_f f0 = true
      else Walking.pick_f f0 = false /\ Walking.in_combat f0 = true).
  { intros next no_echo' H'.
    destruct (Walking._walk_direction last (Some next)) as [ev l'].
    destruct (Walking.walk_loop _ _ _ _ _ frames l' no_echo')
      as [[rest r0]|] eqn:E; [|discriminate].
    injection H' as _ ->.
    destruct (IH _ _ _ _ E) as (f0 & Hin & Ht & Hb).
    exists f0. split; [now right|]. now split. }
  destruct (Qltb (Walking.time_at_test f - start) time_out) eqn:Et;
    [|discriminate].
  apply Qltb_lt in Et.
  destruct (Walking.pick_f f) eqn:Ep.
  { injection H as _ <-. exists f. split; [now left|]. now split. }
  destruct (Walking.in_combat f) eqn:Ec.
  { injection H as _ <-. exists f. split; [now left|]. now split. }
  destruct (Walking.find_echos f) as [|echo echos].
  - destruct (Qeq_bool no_echo 0); [exact (Hcont _ _ H)|].
    destruct (Qgtb (Walking.time_no_echo f - no_echo) 3);
      [discriminate|exact (Hcont _ _ H)].
  - exact (Hcont _ _ H).
Qed.

(** X21.  walk_to_yolo_echo returns True only if, in a round begun before
    the time-out, the echo was picked, and False only if in such a round
    the echo was not picked and a fight had started. *)
Theorem walk_to_yolo_echo_result (frames : list Walking.frame)
  (events : list Walking.event) (b : bool) :
  Walking.walk_to_yolo_echo width_of_screen height_of_screen start time_out
    update_function frames = Some (events, Some b) ->
  exists f,
    In f frames /\ Walking.time_at_test f - start < time_out /\
    if b then Walking.pick_f f = true
    else Walking.pick_f f = false /\ Walking.in_combat f = true.
Proof. apply walk_loop_result. Qed.

End WalkResult.

Lemma walk_to_yolo_echo_releases_keys_witness :
  exists events r,
    Walking.walk_to_yolo_echo (fun r => 1920 * r) (fun r => 1080 * r) 100 8
      true
      [Walking.mk_frame 100 false false [Walking.mk_echo 1500 400 80] 0;
       Walking.mk_frame 101 false false [Walking.mk_echo 1000 700 80] 0;
       Walking.mk_frame 102 false false [] 102;
       Walking.mk_frame 109 false false [] 109]
    = Some (events, r) /\
    keys_held events None = Some None.
Proof.
  apply (walk_to_yolo_echo_releases_keys (fun r => 1920 * r)
           (fun r => 1080 * r) 100 8 true).
  apply Exists_cons_tl, Exists_cons_tl, Exists_cons_tl, Exists_cons_hd.
  cbn. lra.
Defined.

Lemma walk_to_yolo_echo_result_witness :
  exists f,
    In f [Walking.mk_frame 100 false false [Walking.mk_echo 1500 400 80] 0;
          Walking.mk_frame 101 true false [] 0] /\
    Walking.time_at_test f - 100 < 8 /\
    Walking.pick_f f = true.
Proof.
  apply (walk_to_yolo_echo_result (fun r => 1920 * r) (fun r => 1080 * r)
           100 8 false
           [Walking.mk_frame 100 false false [Walking.mk_echo 1500 400 80] 0;
            Walking.mk_frame 101 true false [] 0]
           [Walking.NextFrame; Walking.SendKeyDown Walking.D;
            Walking.NextFrame; Walking.LogDebug;
            Walking.SendKeyUp Walking.D; Walking.Sleep 0.01]
           true).
  vm_compute. reflexivity.
Defined.

(** X22.  For a positive cost, use_stamina spends one run or a double run,
    whatever stamina is read.  A double run is spent only when the double
    number is on screen and the current plus the back-up stamina cover
    it; and when it says that the caller can continue, the total stamina
    left covers one more run. *)
Theorem use_stamina_spends (once must_use : Z) (double : bool)
  (boxes : option (option N * option N)) (gem_add_stamina : bool) :
  (0 < once)%Z ->
  let '(_, (current, back_up, total)) := Stamina.get_stamina boxes in
  let '(_, (can_continue, used)) :=
    Stamina.use_stamina once must_use double boxes gem_add_stamina in
  (used = once \/ used = (once * 2)%Z) /\
  (used = (once * 2)%Z ->
   double = true /\ (once * 2 <= current + back_up)%Z) /\
  (can_continue = true -> (once <= total - used)%Z).
Proof.
  intro Hpos. unfold Stamina.use_stamina.
  assert (Hst : let '(_, (current, back_up, total)) :=
                  Stamina.get_stamina boxes in
                (total = current + back_up /\ 0 <= current /\ 0 <= back_up)%Z
                \/ (current = -1 /\ back_up = -1 /\ total = -1)%Z).
  { destruct boxes as [[[c|] [b|]]|]; unfold Stamina.get_stamina;
      cbv beta iota; lia. }
  destruct (Stamina.get_stamina boxes) as [ev [[current back_up] total]].
  destruct double; cbn [negb].
  - destruct (current >=? once * 2)%Z eqn:E1.
    + apply Z.geb_le in E1. split; [now right|]. split.
      * intros _. split; [reflexivity|lia].
      * destruct (total - once * 2 <? once)%Z eqn:E3; [discriminate|].
        apply Z.ltb_ge in E3. intros _. exact E3.
    + destruct ((must_use >? once) && (total >=? once * 2))%Z eqn:E2.
      * apply andb_true_iff in E2. destruct E2 as [_ E2].
        apply Z.geb_le in E2. split; [now right|]. split.
        -- intros _. split; [reflexivity|lia].
        -- destruct (total - once * 2 <? once)%Z eqn:E3; [discriminate|].
           apply Z.ltb_ge in E3. intros _. exact E3.
      * split; [now left|]. split; [lia|].
        destruct (total - once <? once)%Z eqn:E3; [discriminate|].
        apply Z.ltb_ge in E3. intros _. exact E3.
  - split; [now left|]. split; [lia|].
    destruct (total - once <? once)%Z eqn:E3; [discriminate|].
    apply Z.ltb_ge in E3. intros _. exact E3.
Qed.

Lemma use_stamina_spends_witness :
  (0 < 60)%Z /\
  snd (Stamina.use_stamina 60 180 true (Some (Some 100%N, Some 30%N)) false)
  = (false, 120%Z) /\
  (60 * 2 <= 100 + 30)%Z.
Proof.
  split; [reflexivity|]. split; [reflexivity|].
  pose proof (use_stamina_spends 60 180 true (Some (Some 100%N, Some 30%N))
                false eq_refl) as H.
  cbn in H. destruct H as [_ [H _]]. apply H. reflexivity.
Defined.

(** X23.  in_team reports a team exactly when one or two of the three
    labels are found.  Then the index it reports is that of the first
    label that is missing, all labels before it are found, the size it
    reports is the number of labels found plus one, and the task is marked
    as logged in.  Otherwise the index is -1 and the mark is left as it
    was. *)
Theorem in_team_first_missing {Box : Type} (c1 c2 c3 : option Box)
  (_logged_in : bool) :
  let arr := [c1; c2; c3] in
  let found :=
    Z.of_nat
      (List.length
         (filter (fun c : option Box =>
                    match c with Some _ => true | None => false end) arr))
  in
  let '((ok, current, size), logged_in') :=
    Walking.in_team c1 c2 c3 _logged_in in
  size = (found + 1)%Z /\
  (ok = true <-> (found = 1 \/ found = 2)%Z) /\
  (ok = true ->
   logged_in' = true /\
   (0 <= current <= 2)%Z /\
   nth (Z.to_nat current) arr None = None /\
   forall i, (i < Z.to_nat current)%nat -> nth i arr None <> None) /\
  (ok = false -> current = (-1)%Z /\ logged_in' = _logged_in).
Proof.
  destruct c1, c2, c3; cbn; repeat split; try lia; try discriminate;
    try reflexivity; try (intros [H|H]; discriminate);
    try (intros _; now (left + right)).
  all: try (intros [|[|i]] Hi; cbn; try discriminate; lia).
Qed.

Ltac split_tests :=
  repeat match goal with
    | |- context [Qleb ?a ?b] =>
        let E := fresh "E" in
        destruct (Qleb a b) eqn:E;
        [apply Qleb_le in E|apply Qleb_gt in E]
    | |- context [Qltb ?a ?b] =>
        let E := fresh "E" in
        destruct (Qltb a b) eqn:E;
        [apply Qltb_lt in E|apply Qltb_ge in E]
    | |- context [Qgtb ?a ?b] =>
        let E := fresh "E" in
        destruct (Qgtb a b) eqn:E;
        [apply Qgtb_gt in E|apply Qgtb_le in E]
    end.

(** X24.  _navigate_based_on_angle keeps the character walking forward:
    called with no direction or with 'w', it returns the direction 'w'.
    It asks the caller to continue exactly when the direction is 'w' and
    the angle is between 10 and 80 degrees to either side; then direction
    and adjustment are returned unchanged.  Otherwise the adjustment
    returned is None. *)
Theorem navigate_keeps_forward (angle : Q)
  (current_direction current_adjust : option Walking.key) :
  let '(_, (new_direction, new_adjust, should_continue)) :=
    Walking._navigate_based_on_angle angle current_direction current_adjust
  in
  (should_continue = true <->
   current_direction = Some Walking.W /\
   (10 <= angle <= 80 \/ -80 <= angle <= -10)) /\
  (should_continue = true ->
   new_direction = current_direction /\ new_adjust = current_adjust) /\
  (should_continue = false -> new_adjust = None) /\
  (current_direction = None \/ current_direction = Some Walking.W ->
   new_direction = Some Walking.W).
Proof.
  unfold Walking._navigate_based_on_angle.
  destruct current_direction as [[]|]; split_tests;
    cbn [andb Walking.direction_neqb Walking.key_eqb negb];
    repeat split; try reflexivity; try discriminate; try tauto;
    try (intros [H _]; discriminate);
    try (intros [H|H]; discriminate);
    try (intros [_ [[H1 H2]|[H1 H2]]]; lra).
Qed.

(** X25.  get_direction points towards the centre of the screen: it
    answers 'a' only for a location left of the centre and 'd' only for
    one at or right of it, 'w' only for a location above the centre and
    's' only for one at or below it.  A vertical answer is given only for
    positive screen dimensions, when the horizontal offset is at most the
    vertical one and at most 0.15 of the screen height. *)
Theorem get_direction_towards_centre
  (location_x location_y screen_width screen_height : Q) (centered : bool)
  (current_direction : option Walking.key) :
  let delta_x := screen_width / 2 - location_x in
  let delta_y := screen_height / 2 - location_y in
  let vertical :=
    0 < screen_width /\ 0 < screen_height /\
    Qabs delta_x <= Qabs delta_y /\
    Qabs delta_x <= 0.15 * screen_height in
  match Walking.get_direction location_x location_y screen_width
          screen_height centered current_direction with
  | Walking.A => location_x < screen_width / 2
  | Walking.D => screen_width / 2 <= location_x
  | Walking.W => location_y < screen_height / 2 /\ vertical
  | Walking.S => screen_height / 2 <= location_y /\ vertical
  end.
Proof.
  cbv zeta. unfold Walking.get_direction.
  destruct (Qleb screen_width 0) eqn:Ew;
    [apply Qleb_le in Ew|apply Qleb_gt in Ew];
    (destruct (Qleb screen_height 0) eqn:Eh;
     [apply Qleb_le in Eh|apply Qleb_gt in Eh]);
    cbn [orb].
  1-3: destruct (Qltb location_x (screen_width / 2)) eqn:E;
    [apply Qltb_lt in E|apply Qltb_ge in E]; assumption.
  destruct (Qgtb (Qabs (screen_width / 2 - location_x))
              (Qabs (screen_height / 2 - location_y))) eqn:E1;
    [apply Qgtb_gt in E1|apply Qgtb_le in E1];
    (destruct (Qgtb (Qabs (screen_width / 2 - location_x))
                 (0.15 * screen_height)) eqn:E2;
     [apply Qgtb_gt in E2|apply Qgtb_le in E2]);
    rewrite ?orb_true_r; cbn [orb].
  1-3: destruct (Qgtb (screen_width / 2 - location_x) 0) eqn:E;
    [apply Qgtb_gt in E|apply Qgtb_le in E]; lra.
  destruct (match current_direction with
            | Some _ => false
            | None => true
            end
            && Qgtb (Qabs (screen_width / 2 - location_x))
                 (0.05 * screen_height)); cbn [orb].
  - destruct (Qgtb (screen_width / 2 - location_x) 0) eqn:E;
      [apply Qgtb_gt in E|apply Qgtb_le in E]; lra.
  - destruct (Qgtb (screen_height / 2 - location_y) 0) eqn:E;
      [apply Qgtb_gt in E|apply Qgtb_le in E];
      (split; [lra|repeat split; assumption]).
Qed.

Section BoxFacts.

Variable width_of_screen height_of_screen : Q -> Q.
Variable start time_out : Q.
Variable end_condition : bool.
Variable y_offset x_threshold : Q.
Variable use_hook : bool.

Let box_loop :=
  Walking.box_loop width_of_screen height_of_screen start time_out
    end_condition y_offset x_threshold use_hook.

Let box_finish := Walking.box_finish end_condition.

Lemma keys_held_no_key (events : list Walking.event)
  (held : option Walking.key) :
  forallb no_key_event events = true -> keys_held events held = Some held.
Proof.
  induction events as [|e events IH]; [reflexivity|].
  cbn [forallb]. intro H. apply andb_true_iff in H. destruct H as [He H].
  destruct e; try discriminate; cbn [keys_held]; exact (IH H).
Qed.

Lemma box_next_direction_log (last_direction : option Walking.key)
  (last_target : option (Q * Q)) (centered : bool) :
  forallb no_key_event
    (fst (fst (Walking.box_next_direction width_of_screen height_of_screen
                 y_offset x_threshold last_direction last_target centered)))
  = true.
Proof.
  unfold Walking.box_next_direction.
  destruct last_target as [[x y]|]; [|reflexivity].
  destruct (negb _); reflexivity.
Qed.

Lemma keys_held_box_finish (last_direction : option Walking.key)
  (running ended : bool) :
  keys_held (fst (box_finish last_direction running ended)) last_direction
  = Some None.
Proof.
  subst box_finish. unfold Walking.box_finish. cbn [fst].
  rewrite keys_held_app.
  destruct last_direction as [k|]; cbn [keys_held];
    rewrite ?key_eqb_refl; now destruct running.
Qed.

Lemma keys_held_box_keys (last_direction : option Walking.key)
  (next_direction : Walking.key) :
  keys_held
    (if Walking.direction_neqb (Some next_direction) last_direction then
       match last_direction with
       | Some k => [Walking.SendKeyUp k; Walking.Sleep 0.001]
       | None => []
       end ++ [Walking.SendKeyDown next_direction]
     else []) last_direction
  = Some (Some next_direction).
Proof.
  destruct last_direction as [k|]; [|reflexivity].
  destruct (Walking.direction_neqb (Some next_direction) (Some k)) eqn:E.
  - cbn. now rewrite key_eqb_refl.
  - destruct next_direction, k; cbn in E; try discriminate; reflexivity.
Qed.

Lemma box_loop_balanced (frames : list Walking.box_frame) :
  forall last_direction running last_target centered events r,
    box_loop frames last_direction running last_target centered
    = Some (events, r) ->
    keys_held events last_direction = Some None.
Proof.
  subst box_loop.
  induction frames as [|f frames IH];
    intros last running target centered events r H; [discriminate|].
  cbn [Walking.box_loop] in H.
  destruct (Qltb (Walking.box_time_at_test f - start) time_out).
  2:{ pose proof (keys_held_box_finish last running false) as Hf.
      subst box_finish.
      destruct (Walking.box_finish end_condition last running false).
      injection H as <- <-. exact Hf. }
  destruct (end_condition && Walking.end_condition_value f).
  { pose proof (keys_held_box_finish last running true) as Hf.
    subst box_finish.
    destruct (Walking.box_finish end_condition last running true).
    injection H as <- <-. exact Hf. }
  pose proof (box_next_direction_log last
                match Walking.find_function f with
                | Some treasure_icon => Some treasure_icon
                | None => target
                end centered) as Hlog.
  destruct (Walking.box_next_direction _ _ _ _ last _ centered)
    as [[log next] centered'].
  cbn [fst] in Hlog.
  match type of H with
  | (let '(run, running') := ?c in _) = _ =>
      assert (Hrun : forallb no_key_event (fst c) = true)
        by (destruct running;
            [now destruct (negb (Walking.on_the_wall f))
            |now destruct (Walking.key_eqb next Walking.W
                           && Walking.on_the_wall f)]);
      destruct c as [run running']
  end.
  cbn [fst] in Hrun.
  destruct (Walking.box_loop _ _ _ _ _ _ _ _ frames (Some next) running' _
              centered') as [[rest r0]|] eqn:E; [|discriminate].
  injection H as <- <-.
  cbn [keys_held].
  rewrite (keys_held_seq _ _ _ _ (keys_held_no_key log _ Hlog)).
  rewrite (keys_held_seq _ _ _ _ (keys_held_box_keys last next)).
  rewrite (keys_held_seq _ _ _ _ (keys_held_no_key run _ Hrun)).
  rewrite (keys_held_seq _ _ (Some next) (Some next)).
  - exact (IH _ _ _ _ _ _ E).
  - apply keys_held_no_key.
    now destruct (use_hook && Walking.key_eqb next Walking.W
                  && Walking.tool_teleport f).
Qed.

Lemma box_loop_returns (frames : list Walking.box_frame) :
  Exists (fun f => time_out <= Walking.box_time_at_test f - start) frames ->
  forall last_direction running last_target centered,
    exists events r,
      box_loop frames last_direction running last_target centered
      = Some (events, r).
Proof.
  subst box_loop.
  induction frames as [|f frames IH]; intros Hex last running target centered.
  { inversion Hex. }
  cbn [Walking.box_loop].
  destruct (Qltb (Walking.box_time_at_test f - start) time_out) eqn:Et.
  2:{ destruct (Walking.box_finish end_condition last running false).
      eauto. }
  assert (Hrest : Exists
            (fun f => time_out <= Walking.box_time_at_test f - start) frames).
  { inversion Hex as [? ? Hf|]; [|assumption].
    apply Qltb_lt in Et. lra. }
  destruct (end_condition && Walking.end_condition_value f).
  { destruct (Walking.box_finish end_condition last running true). eauto. }
  destruct (Walking.box_next_direction _ _ _ _ last _ centered)
    as [[log next] centered'].
  match goal with
  | |- exists _ _, (let '(run, running') := ?c in _) = _ =>
      destruct c as [run running']
  end.
  destruct (IH Hrest (Some next) running'
              match Walking.find_function f with
              | Some treasure_icon => Some treasure_icon
              | None => target
              end centered') as (rest & r & E).
  rewrite E. eauto.
Qed.

(** X26.  do_walk_to_box leaves no movement key held.  When the wait for
    the target succeeds and the clock read at the loop test passes the
    time-out, the function returns, and in its events each movement key is
    pressed only while none is held, each release is of the key that is
    held, and none is held at the end. *)
Theorem do_walk_to_box_releases_keys (frames : list Walking.box_frame) :
  Exists (fun f => time_out <= Walking.box_time_at_test f - start) frames ->
  exists events r,
    Walking.do_walk_to_box width_of_screen height_of_screen start time_out
      end_condition y_offset x_threshold use_hook true frames
    = Some (Some (events, r)) /\
    keys_held events None = Some None.
Proof.
  intro Hex. unfold Walking.do_walk_to_box.
  destruct (box_loop_returns frames Hex None false None false)
    as (events & r & E).
  exists events, r. split.
  - unfold box_loop in E. now rewrite E.
  - exact (box_loop_balanced frames _ _ _ _ _ _ E).
Qed.

End BoxFacts.

Section BoxResult.

Variable width_of_screen height_of_screen : Q -> Q.
Variable start time_out : Q.
Variable end_condition : bool.
Variable y_offset x_threshold : Q.
Variable use_hook : bool.

Lemma box_loop_result (frames : list Walking.box_frame) :
  forall last_direction running last_target centered events r,
    Walking.box_loop width_of_screen height_of_screen start time_out
      end_condition y_offset x_threshold use_hook frames last_direction
      running last_target centered = Some (events, r) ->
    if end_condition then
      r = true ->
      exists f,
        In f frames /\ Walking.box_time_at_test f - start < time_out /\
        Walking.end_condition_value f = true
    else
      r = match last_direction, frames with
          | Some _, _ => true
          | None, f :: _ =>
              Qltb (Walking.box_time_at_test f - start) time_out
          | None, [] => false
          end.
Proof.
  induction frames as [|f frames IH];
    intros last running target centered events r H; [discriminate|].
  cbn [Walking.box_loop] in H.
  destruct (Qltb (Walking.box_time_at_test f - start) time_out) eqn:Et.
  2:{ unfold Walking.box_finish in H. injection H as _ <-.
      destruct end_condition; cbn [negb]; [discriminate|].
      now destruct last. }
  destruct (end_condition && Walking.end_condition_value f) eqn:Ee.
  { apply andb_true_iff in Ee. destruct Ee as [-> Ev].
    intros _. exists f. split; [now left|].
    apply Qltb_lt in Et. now split. }
  destruct (Walking.box_next_direction _ _ _ _ last _ centered)
    as [[log next] centered'].
  match type of H with
  | (let '(run, running') := ?c in _) = _ => destruct c as [run running']
  end.
  destruct (Walking.box_loop _ _ _ _ _ _ _ _ frames (Some next) running' _
              centered') as [[rest r0]|] eqn:E; [|discriminate].
  injection H as _ <-.
  specialize (IH _ _ _ _ _ _ E).
  destruct end_condition.
  - intro Hr. destruct (IH Hr) as (f0 & Hin & Ht & Hv).
    exists f0. split; [now right|]. now split.
  - rewrite IH. now destruct last.
Qed.

(** X27.  What do_walk_to_box returns.  Without an end condition it
    returns True as soon as one round of the loop has run, that is exactly
    when the first clock reading is within the time-out, whether or not a
    target was ever found.  With an end condition it returns True only if
    the condition held in a round begun before the time-out. *)
Theorem do_walk_to_box_result (frames : list Walking.box_frame)
  (events : list Walking.event) (r : bool) :
  Walking.do_walk_to_box width_of_screen height_of_screen start time_out
    end_condition y_offset x_threshold use_hook true frames
  = Some (Some (events, r)) ->
  if end_condition then
    r = true ->
    exists f,
      In f frames /\ Walking.box_time_at_test f - start < time_out /\
      Walking.end_condition_value f = true
  else
    r = match frames with
        | f :: _ => Qltb (Walking.box_time_at_test f - start) time_out
        | [] => false
        end.
Proof.
  unfold Walking.do_walk_to_box. intro H.
  destruct (Walking.box_loop _ _ _ _ _ _ _ _ frames None false None false)
    as [[events' r']|] eqn:E; [|discriminate].
  injection H as _ <-.
  apply box_loop_result in E. exact E.
Qed.

End BoxResult.

Lemma do_walk_to_box_releases_keys_witness :
  exists events r,
    Walking.do_walk_to_box (fun r => 1920 * r) (fun r => 1080 * r) 100 30
      true 0.05 0.07 true true
      [Walking.mk_box_frame 100 false None false false;
       Walking.mk_box_frame 101 false (Some (1500, 400)) true true;
       Walking.mk_box_frame 102 false (Some (1000, 700)) true false;
       Walking.mk_box_frame 131 false None false false]
    = Some (Some (events, r)) /\
    keys_held events None = Some None.
Proof.
  apply (do_walk_to_box_releases_keys (fun r => 1920 * r)
           (fun r => 1080 * r) 100 30 true 0.05 0.07 true).
  apply Exists_cons_tl, Exists_cons_tl, Exists_cons_tl, Exists_cons_hd.
  cbn. lra.
Defined.

Lemma do_walk_to_box_result_witness :
  true = Qltb (100 - 100) 30.
Proof.
  apply (do_walk_to_box_result (fun r => 1920 * r) (fun r => 1080 * r)
           100 30 false 0.05 0.07 false
           [Walking.mk_box_frame 100 false None false false;
            Walking.mk_box_frame 131 false None false false]
           [Walking.NextFrame; Walking.LogInfo;
            Walking.SendKeyDown Walking.W;
            Walking.SendKeyUp Walking.W; Walking.Sleep 0.001]
           true).
  vm_compute. reflexivity.
Defined.
